(** * hivemq_random_data.py: a cargo telemetry simulator publishing to HiveMQ

    The script draws a synthetic reading (position, temperature, battery),
    serialises it with [json.dumps] and publishes it over MQTT, 3600 times,
    five seconds apart, and tears the connection down in a [finally] block.

    The development embeds the script as Rocq functions:
    - Python floats are binary64 values, kept as the exact rational they
      denote; every float operation rounds its exact result to the nearest
      double, ties to even;
    - the dict returned by [generate_cargo_data] is an insertion-ordered
      association list;
    - the calls into paho-mqtt, [print] and [time.sleep] are events appended
      to a log, and an oracle (the [world]) decides which of them raise; an
      exception arises in one of these calls only (a [KeyboardInterrupt]
      that arrives while [generate_cargo_data] or [json.dumps] runs is
      outside the model);
    - [try/except KeyboardInterrupt/finally] is a combinator on a state and
      exception monad.

    The statements are about [generate_cargo_data], [run_simulation] and
    the callback [on_connect].
    The configuration of the client at import time (credentials, TLS)
    comes before [run_simulation] and is no part of a run. *)

From Stdlib Require Import ZArith NArith QArith Qround Qabs Qpower Qreduction.
From Stdlib Require Import List String Ascii Bool Lia Lqa.
Import ListNotations.

Open Scope Z_scope.
Open Scope Q_scope.

(* ================================================================== *)
(** ** Python floats *)

(** Nearest integer, ties to the even one. *)
Definition round_half_even (q : Q) : Z :=
  let f := Qfloor q in
  match Qcompare (q - inject_Z f) (1 # 2) with
  | Lt => f
  | Gt => (f + 1)%Z
  | Eq => if Z.even f then f else (f + 1)%Z
  end.

(** For [0 < q], the exponent [e] with [2^e <= q < 2^(e+1)]. *)
Definition ilog2 (q : Q) : Z :=
  let g := (Z.log2 (Qnum q) - Z.log2 (Zpos (Qden q)))%Z in
  if Qle_bool (2 ^ g) q then g else (g - 1)%Z.

(** Smallest exponent of a normal double; below it the spacing stays
    [2^(emin - 52)] (subnormal numbers). *)
Definition emin : Z := -1022.

(** Rounding of a positive rational to 53 significant bits.  Overflow to
    infinity is outside this model: the script's values stay below 128. *)
Definition round_pos (q : Q) : Q :=
  let e := Z.max (ilog2 q) emin in
  Qred (inject_Z (round_half_even (q * 2 ^ (52 - e))) * 2 ^ (e - 52)).

(** The double nearest to [q] (round to nearest, ties to even), as a
    rational in lowest terms. *)
Definition binary64 (q : Q) : Q :=
  match Qnum q with
  | Z0 => 0
  | Zpos _ => round_pos q
  | Zneg _ => - round_pos (- q)
  end.

(** A decimal literal of the source, [n / d] as written. *)
Definition float_lit (n : Z) (d : positive) : Q := binary64 (n # d).

(** [float(i)] for the small integers of the script. *)
Definition float_of_int (i : Z) : Q := binary64 (inject_Z i).

Definition fadd (x y : Q) : Q := binary64 (x + y).
Definition fsub (x y : Q) : Q := binary64 (x - y).
Definition fmul (x y : Q) : Q := binary64 (x * y).
Definition fneg (x : Q) : Q := - x.

(** [round(x, ndigits)] on a float: the exact value of [x] is rounded to
    [ndigits] decimals, ties to even, and the decimal is converted back to
    the nearest double. *)
Definition py_round (x : Q) (ndigits : Z) : Q :=
  binary64 (inject_Z (round_half_even (x * 10 ^ ndigits)) / 10 ^ ndigits).

(** [random.random()] returns [k / 2^53] for an integer [0 <= k < 2^53];
    the entropy handed in is reduced to that range. *)
Definition random_value (k : N) : Q :=
  Qred (inject_Z (Z.of_N (k mod 2 ^ 53)) / 2 ^ 53).

(** [random.uniform(a, b)] is [a + (b - a) * self.random()]. *)
Definition uniform_value (a b r : Q) : Q := fadd a (fmul (fsub b a) r).

(* ================================================================== *)
(** ** Text: integers, [float.__repr__], [datetime.isoformat] *)

Open Scope string_scope.

Definition digit_char (d : N) : ascii := ascii_of_N (48 + d).

Fixpoint digits_fuel (fuel : nat) (n : N) (acc : string) : string :=
  match fuel with
  | O => acc
  | S f =>
      let acc' := String (digit_char (n mod 10)) acc in
      if (n / 10 =? 0)%N then acc' else digits_fuel f (n / 10) acc'
  end.

(** [str(n)] for a natural number. *)
Definition str_nat (n : N) : string :=
  digits_fuel (S (N.to_nat (N.log2 n))) n "".

(** [str(z)] for an integer. *)
Definition str_int (z : Z) : string :=
  match z with
  | Zneg p => "-" ++ str_nat (Npos p)
  | _ => str_nat (Z.to_N z)
  end.

Fixpoint zeros (n : nat) : string :=
  match n with O => "" | S n' => String "0" (zeros n') end.

(** ["%0<width>d" % n] *)
Definition pad_nat (width : nat) (n : N) : string :=
  let s := str_nat n in zeros (width - String.length s) ++ s.

(** For [0 < q], the exponent [e] with [10^e <= q < 10^(e+1)], searched
    upwards from an estimate taken from [ilog2]. *)
Fixpoint ilog10_from (fuel : nat) (e : Z) (q : Q) : Z :=
  match fuel with
  | O => e
  | S f => if Qle_bool (10 ^ (e + 1)) q then ilog10_from f (e + 1)%Z q else e
  end.

Definition ilog10 (q : Q) : Z :=
  ilog10_from 3 ((ilog2 q * 30103) / 100000 - 1)%Z q.

(** The decimals with [p] significant digits next to [x] (below and above)
    that convert back to [x]; of two, the nearer.  The result [(c, s)]
    stands for [c / 10^s]. *)
Definition repr_candidate (x : Q) (e10 p : Z) : option (Z * Z) :=
  let s := (p - 1 - e10)%Z in
  let lo := Qfloor (x * 10 ^ s) in
  let hi := (lo + 1)%Z in
  let back c := Qeq_bool (binary64 (inject_Z c / 10 ^ s)) x in
  match back lo, back hi with
  | true, true =>
      match Qcompare (x * 10 ^ s - inject_Z lo) (inject_Z hi - x * 10 ^ s) with
      | Lt => Some (lo, s)
      | Gt => Some (hi, s)
      | Eq => Some (if Z.even lo then lo else hi, s)
      end
  | true, false => Some (lo, s)
  | false, true => Some (hi, s)
  | false, false => None
  end.

Fixpoint shortest_from (fuel : nat) (x : Q) (e10 p : Z) : Z * Z :=
  match fuel with
  | O => (round_half_even (x * 10 ^ (p - 1 - e10)), (p - 1 - e10)%Z)
  | S f =>
      match repr_candidate x e10 p with
      | Some r => r
      | None => shortest_from f x e10 (p + 1)%Z
      end
  end.

(** Trailing zeros of the digit string carry no information. *)
Fixpoint strip_zeros (fuel : nat) (c s : Z) : Z * Z :=
  match fuel with
  | O => (c, s)
  | S f => if ((c mod 10 =? 0) && negb (c =? 0))%Z
           then strip_zeros f (c / 10)%Z (s - 1)%Z else (c, s)
  end.

(** The shortest decimal that converts back to the positive double [x]:
    one to sixteen digits are tried in turn; seventeen always suffice. *)
Definition shortest_decimal (x : Q) : Z * Z :=
  let (c, s) := shortest_from 16 x (ilog10 x) 1 in
  strip_zeros 17 c s.

Fixpoint take (n : nat) (s : string) : string :=
  match n, s with
  | S n', String c s' => String c (take n' s')
  | _, _ => ""
  end.

Fixpoint drop (n : nat) (s : string) : string :=
  match n, s with
  | S n', String _ s' => drop n' s'
  | _, _ => s
  end.

(** Layout of [repr]: plain notation when the decimal point sits within
    [-3 .. 16] of the first digit, exponent notation otherwise. *)
Definition format_digits (ds : string) (decpt : Z) : string :=
  let n := Z.of_nat (String.length ds) in
  if ((decpt <=? -4) || (16 <? decpt))%Z then
    let mant := match ds with
                | String c "" => String c ""
                | String c tl => String c ("." ++ tl)
                | "" => ""
                end in
    let e := (decpt - 1)%Z in
    mant ++ "e" ++ (if (e <? 0)%Z then "-" else "+")
         ++ pad_nat 2 (Z.to_N (Z.abs e))
  else if (decpt <=? 0)%Z then
    "0." ++ zeros (Z.to_nat (- decpt)) ++ ds
  else if (n <=? decpt)%Z then
    ds ++ zeros (Z.to_nat (decpt - n)) ++ ".0"
  else
    take (Z.to_nat decpt) ds ++ "." ++ drop (Z.to_nat decpt) ds.

(** [repr(x)] (also [str(x)]) of a finite float. *)
Definition float_repr (x : Q) : string :=
  match Qnum x with
  | Z0 => "0.0"
  | Zpos _ =>
      let (c, s) := shortest_decimal x in
      let ds := str_nat (Z.to_N c) in
      format_digits ds (Z.of_nat (String.length ds) - s)
  | Zneg _ =>
      let (c, s) := shortest_decimal (- x) in
      let ds := str_nat (Z.to_N c) in
      "-" ++ format_digits ds (Z.of_nat (String.length ds) - s)
  end.

(** What [datetime.utcnow()] returns: a naive date and time. *)
Record datetime : Set := mk_datetime {
  year : N; month : N; day : N;
  hour : N; minute : N; second : N; microsecond : N
}.

(** [dt.isoformat()]: the fraction is printed only when it is not zero. *)
Definition isoformat (dt : datetime) : string :=
  pad_nat 4 (year dt) ++ "-" ++ pad_nat 2 (month dt) ++ "-" ++ pad_nat 2 (day dt)
  ++ "T" ++ pad_nat 2 (hour dt) ++ ":" ++ pad_nat 2 (minute dt)
  ++ ":" ++ pad_nat 2 (second dt)
  ++ (if (microsecond dt =? 0)%N then "" else "." ++ pad_nat 6 (microsecond dt)).

(* ================================================================== *)
(** ** Python values and the json module *)

(** The values a JSON text stands for.  A dict keeps its keys in insertion
    order, as Python dicts do.  Strings are sequences of code points below
    256. *)
#[warnings="-register-all"]
Inductive pyval : Type :=
| PNone
| PBool (b : bool)
| PInt (z : Z)
| PFloat (x : Q)
| PStr (s : string)
| PList (items : list pyval)
| PDict (items : list (string * pyval)).

(** [d[key]] *)
Fixpoint dict_get (items : list (string * pyval)) (key : string) : option pyval :=
  match items with
  | [] => None
  | (k, v) :: rest => if String.eqb k key then Some v else dict_get rest key
  end.

(** [d[key] = v]: an existing key keeps its place. *)
Fixpoint dict_set (items : list (string * pyval)) (key : string) (v : pyval)
  : list (string * pyval) :=
  match items with
  | [] => [(key, v)]
  | (k, v0) :: rest =>
      if String.eqb k key then (k, v) :: rest else (k, v0) :: dict_set rest key v
  end.

Definition dquote : ascii := "034"%char.
Definition backslash : ascii := "092"%char.

Definition hex_char (n : N) : ascii :=
  if (n <? 10)%N then ascii_of_N (48 + n) else ascii_of_N (87 + n).

(** One character under [ensure_ascii]: printable ASCII stays, the rest is
    escaped. *)
Definition escape_char (c : ascii) : string :=
  let n := N_of_ascii c in
  if Ascii.eqb c dquote then String backslash (String dquote "")
  else if Ascii.eqb c backslash then String backslash (String backslash "")
  else if (n =? 10)%N then String backslash "n"
  else if (n =? 13)%N then String backslash "r"
  else if (n =? 9)%N then String backslash "t"
  else if (n =? 8)%N then String backslash "b"
  else if (n =? 12)%N then String backslash "f"
  else if ((32 <=? n) && (n <=? 126))%N then String c ""
  else String backslash
         ("u00" ++ String (hex_char (n / 16)) (String (hex_char (n mod 16)) "")).

Fixpoint escape_string (s : string) : string :=
  match s with
  | "" => ""
  | String c rest => escape_char c ++ escape_string rest
  end.

Definition encode_string (s : string) : string :=
  String dquote (escape_string s ++ String dquote "").

Fixpoint join (sep : string) (parts : list string) : string :=
  match parts with
  | [] => ""
  | [p] => p
  | p :: rest => p ++ sep ++ join sep rest
  end.

(** [json.dumps(v)] with the default separators. *)
Fixpoint dumps (v : pyval) : string :=
  match v with
  | PNone => "null"
  | PBool true => "true"
  | PBool false => "false"
  | PInt z => str_int z
  | PFloat x => float_repr x
  | PStr s => encode_string s
  | PList items => "[" ++ join ", " (map dumps items) ++ "]"
  | PDict items =>
      "{" ++ join ", "
               (map (fun kv => encode_string (fst kv) ++ ": " ++ dumps (snd kv))
                    items)
          ++ "}"
  end.

Definition is_digit (c : ascii) : bool :=
  let n := N_of_ascii c in ((48 <=? n) && (n <=? 57))%N.

Definition is_space (c : ascii) : bool :=
  let n := N_of_ascii c in
  ((n =? 32) || (n =? 9) || (n =? 10) || (n =? 13))%N.

Fixpoint skip_ws (s : string) : string :=
  match s with
  | String c rest => if is_space c then skip_ws rest else s
  | "" => ""
  end.

Fixpoint span_digits (s : string) : string * string :=
  match s with
  | String c rest =>
      if is_digit c
      then let (ds, tl) := span_digits rest in (String c ds, tl)
      else ("", s)
  | "" => ("", "")
  end.

Fixpoint digits_value (acc : N) (s : string) : N :=
  match s with
  | "" => acc
  | String c rest => digits_value (acc * 10 + (N_of_ascii c - 48))%N rest
  end.

(** [float(text)] for [text] = sign, integer digits, fraction digits and
    exponent: the nearest double to the decimal. *)
Definition float_of_decimal (neg : bool) (ip fp : string) (ex : Z) : Q :=
  let m := inject_Z (Z.of_N (digits_value 0 (ip ++ fp))) in
  let v := m * 10 ^ (ex - Z.of_nat (String.length fp)) in
  binary64 (if neg then - v else v).

(** The number at the head of [s], after the decoder's pattern: an optional
    minus, [0] or digits not starting with 0, an optional fraction and an
    optional exponent.  With a fraction or an exponent it is a float. *)
Definition parse_number (s : string) : option (pyval * string) :=
  let (neg, s1) := match s with
                   | String "-"%char r => (true, r)
                   | _ => (false, s)
                   end in
  let (ip, s2) := match s1 with
                  | String "0"%char r => ("0", r)
                  | _ => span_digits s1
                  end in
  match ip with
  | "" => None
  | _ =>
      let (fp, s3) := match s2 with
                      | String "."%char r =>
                          match span_digits r with
                          | ("", _) => ("", s2)
                          | (ds, tl) => (ds, tl)
                          end
                      | _ => ("", s2)
                      end in
      let (ex, s4) :=
        match s3 with
        | String c r =>
            if (Ascii.eqb c "e" || Ascii.eqb c "E")%bool then
              let (eneg, r1) := match r with
                                | String "-"%char r' => (true, r')
                                | String "+"%char r' => (false, r')
                                | _ => (false, r)
                                end in
              match span_digits r1 with
              | ("", _) => (None, s3)
              | (ds, tl) =>
                  let e := Z.of_N (digits_value 0 ds) in
                  (Some (if eneg then (- e)%Z else e), tl)
              end
            else (None, s3)
        | "" => (None, s3)
        end in
      match fp, ex with
      | "", None =>
          let z := Z.of_N (digits_value 0 ip) in
          Some (PInt (if neg then (- z)%Z else z), s4)
      | _, None => Some (PFloat (float_of_decimal neg ip fp 0), s4)
      | _, Some e => Some (PFloat (float_of_decimal neg ip fp e), s4)
      end
  end.

Definition hex_value (c : ascii) : option N :=
  let n := N_of_ascii c in
  if ((48 <=? n) && (n <=? 57))%N then Some (n - 48)%N
  else if ((97 <=? n) && (n <=? 102))%N then Some (n - 87)%N
  else if ((65 <=? n) && (n <=? 70))%N then Some (n - 55)%N
  else None.

(** The text of a string after its opening quote, up to the closing one.
    Control characters are refused; an escaped code point above 255 is
    outside this model of strings. *)
Fixpoint scanstring (s : string) : option (string * string) :=
  match s with
  | "" => None
  | String c rest =>
      if Ascii.eqb c dquote then Some ("", rest)
      else if Ascii.eqb c backslash then
        match rest with
        | String e rest' =>
            let plain ch :=
              match scanstring rest' with
              | Some (str, tl) => Some (String ch str, tl)
              | None => None
              end in
            if Ascii.eqb e dquote then plain dquote
            else if Ascii.eqb e backslash then plain backslash
            else if Ascii.eqb e "/" then plain "/"%char
            else if Ascii.eqb e "b" then plain "008"%char
            else if Ascii.eqb e "f" then plain "012"%char
            else if Ascii.eqb e "n" then plain "010"%char
            else if Ascii.eqb e "r" then plain "013"%char
            else if Ascii.eqb e "t" then plain "009"%char
            else if Ascii.eqb e "u" then
              match rest' with
              | String h1 (String h2 (String h3 (String h4 rest''))) =>
                  match hex_value h1, hex_value h2, hex_value h3, hex_value h4 with
                  | Some 0%N, Some 0%N, Some a, Some b =>
                      match scanstring rest'' with
                      | Some (str, tl) =>
                          Some (String (ascii_of_N (a * 16 + b)) str, tl)
                      | None => None
                      end
                  | _, _, _, _ => None
                  end
              | _ => None
              end
            else None
        | "" => None
        end
      else if (N_of_ascii c <? 32)%N then None
      else
        match scanstring rest with
        | Some (str, tl) => Some (String c str, tl)
        | None => None
        end
  end.

Definition starts_with (p s : string) : option string :=
  if String.prefix p s then Some (drop (String.length p) s) else None.

(** The decoder's [scan_once] with the object and array loops.  [fuel]
    bounds the nesting and the number of members; the length of the text
    is enough. *)
Fixpoint scan_once (fuel : nat) (s : string) : option (pyval * string) :=
  match fuel with
  | O => None
  | S f =>
      match s with
      | "" => None
      | String c rest =>
          if Ascii.eqb c dquote then
            match scanstring rest with
            | Some (str, tl) => Some (PStr str, tl)
            | None => None
            end
          else if Ascii.eqb c "{" then
            match skip_ws rest with
            | String c' rest' =>
                if Ascii.eqb c' "}" then Some (PDict [], rest')
                else scan_members f (skip_ws rest) []
            | "" => None
            end
          else if Ascii.eqb c "[" then
            match skip_ws rest with
            | String c' rest' =>
                if Ascii.eqb c' "]" then Some (PList [], rest')
                else scan_items f (skip_ws rest) []
            | "" => None
            end
          else if Ascii.eqb c "n" then
            match starts_with "null" s with
            | Some tl => Some (PNone, tl)
            | None => None
            end
          else if Ascii.eqb c "t" then
            match starts_with "true" s with
            | Some tl => Some (PBool true, tl)
            | None => None
            end
          else if Ascii.eqb c "f" then
            match starts_with "false" s with
            | Some tl => Some (PBool false, tl)
            | None => None
            end
          else parse_number s
      end
  end

with scan_members (fuel : nat) (s : string) (acc : list (string * pyval))
  : option (pyval * string) :=
  match fuel with
  | O => None
  | S f =>
      match s with
      | String c rest =>
          if Ascii.eqb c dquote then
            match scanstring rest with
            | Some (key, tl) =>
                match skip_ws tl with
                | String ":"%char tl1 =>
                    match scan_once f (skip_ws tl1) with
                    | Some (v, tl2) =>
                        let acc' := dict_set acc key v in
                        match skip_ws tl2 with
                        | String "}"%char tl3 => Some (PDict acc', tl3)
                        | String ","%char tl3 => scan_members f (skip_ws tl3) acc'
                        | _ => None
                        end
                    | None => None
                    end
                | _ => None
                end
            | None => None
            end
          else None
      | "" => None
      end
  end

with scan_items (fuel : nat) (s : string) (acc : list pyval)
  : option (pyval * string) :=
  match fuel with
  | O => None
  | S f =>
      match scan_once f s with
      | Some (v, tl) =>
          match skip_ws tl with
          | String "]"%char tl1 => Some (PList (acc ++ [v]), tl1)
          | String ","%char tl1 => scan_items f (skip_ws tl1) (acc ++ [v])
          | _ => None
          end
      | None => None
      end
  end.

(** [json.loads(text)]: one value, with blanks allowed around it and
    nothing else after it. *)
Definition loads (text : string) : option pyval :=
  match scan_once (S (String.length text)) (skip_ws text) with
  | Some (v, tl) => match skip_ws tl with "" => Some v | _ => None end
  | None => None
  end.

(** [repr(s)] of a string: single quotes unless the text has one and no
    double quote; control and non-printable characters are escaped. *)
Fixpoint has_char (c : ascii) (s : string) : bool :=
  match s with
  | "" => false
  | String c' rest => (Ascii.eqb c c' || has_char c rest)%bool
  end.

Definition repr_char (q c : ascii) : string :=
  let n := N_of_ascii c in
  if (Ascii.eqb c q || Ascii.eqb c backslash)%bool then String backslash (String c "")
  else if (n =? 9)%N then String backslash "t"
  else if (n =? 10)%N then String backslash "n"
  else if (n =? 13)%N then String backslash "r"
  else if ((n <? 32) || ((127 <=? n) && (n <=? 160)) || (n =? 173))%N
  then String backslash
         ("x" ++ String (hex_char (n / 16)) (String (hex_char (n mod 16)) ""))
  else String c "".

Fixpoint repr_chars (q : ascii) (s : string) : string :=
  match s with
  | "" => ""
  | String c rest => repr_char q c ++ repr_chars q rest
  end.

Definition str_repr (s : string) : string :=
  let q := if (has_char "'" s && negb (has_char dquote s))%bool
           then dquote else "'"%char in
  String q (repr_chars q s ++ String q "").

Fixpoint py_repr (v : pyval) : string :=
  match v with
  | PNone => "None"
  | PBool true => "True"
  | PBool false => "False"
  | PInt z => str_int z
  | PFloat x => float_repr x
  | PStr s => str_repr s
  | PList items => "[" ++ join ", " (map py_repr items) ++ "]"
  | PDict items =>
      "{" ++ join ", "
               (map (fun kv => str_repr (fst kv) ++ ": " ++ py_repr (snd kv)) items)
          ++ "}"
  end.

(** [str(v)], which a replacement field of an f-string prints. *)
Definition py_str (v : pyval) : string :=
  match v with
  | PStr s => s
  | _ => py_repr v
  end.

(* ================================================================== *)
(** ** The world outside the script *)

Inductive exn : Set :=
| KeyboardInterrupt
| OtherError (name : string).

Definition is_KeyboardInterrupt (e : exn) : bool :=
  match e with KeyboardInterrupt => true | OtherError _ => false end.

(** The calls that leave the script: [print], [time.sleep] and the methods
    of the MQTT client. *)
Inductive call : Set :=
| Print (line : string)
| Connect (host : string) (port keepalive : Z)
| LoopStart
| Publish (topic payload : string) (qos : Z)
| Sleep (seconds : Z)
| LoopStop
| Disconnect.

(** A call together with what came of it: [None] when it returned. *)
Record event : Set := mk_event { ev_call : call; ev_raised : option exn }.

(** Everything the script cannot control.  [raises n c] tells whether the
    call [c], made as the [n]-th call of the run, raises (an interrupt from
    the keyboard surfaces in the call during which it arrives); [utcnow n]
    is the [n]-th reading of the clock and [entropy n] the [n]-th draw of
    the random generator. *)
Record world : Type := mk_world {
  raises : nat -> call -> option exn;
  utcnow : nat -> datetime;
  entropy : nat -> N
}.

(** The run so far: calls made, clock readings and random draws taken, and
    the log of calls, latest first. *)
Record state : Set := mk_state {
  calls : nat;
  ticks : nat;
  draws : nat;
  log : list event
}.

Definition init : state := mk_state 0 0 0 [].

Inductive result (A : Type) : Type :=
| Ok (a : A)
| Raise (e : exn).
Arguments Ok {A} a.
Arguments Raise {A} e.

(** Computations that read and extend the state and may raise. *)
Definition M (A : Type) : Type := state -> result A * state.

Definition ret {A} (a : A) : M A := fun s => (Ok a, s).

Definition raise {A} (e : exn) : M A := fun s => (Raise e, s).

Definition bind {A B} (m : M A) (k : A -> M B) : M B :=
  fun s =>
    match m s with
    | (Ok a, s1) => k a s1
    | (Raise e, s1) => (Raise e, s1)
    end.

Declare Scope py_scope.
Delimit Scope py_scope with py.
Notation "x <- m ;; k" := (bind m (fun x => k))
  (at level 61, m at next level, right associativity) : py_scope.
Notation "m ;; k" := (bind m (fun _ => k))
  (at level 61, right associativity) : py_scope.

(** [try: body / except KeyboardInterrupt: handler / finally: final].
    The handler runs when [body] raises an exception it [catches]; [final]
    runs in every case, and what was pending then continues unless [final]
    raises itself. *)
Definition try_except_finally (body : M unit) (catches : exn -> bool)
  (handler final : M unit) : M unit :=
  fun s =>
    let (r1, s1) := body s in
    let (r2, s2) :=
      match r1 with
      | Ok _ => (Ok tt, s1)
      | Raise e => if catches e then handler s1 else (Raise e, s1)
      end in
    let (r3, s3) := final s2 in
    match r3 with
    | Ok _ => (r2, s3)
    | Raise e => (Raise e, s3)
    end.

(** [for x in xs: body] *)
Fixpoint for_each {A} (xs : list A) (body : A -> M unit) : M unit :=
  match xs with
  | [] => ret tt
  | x :: rest => (body x ;; for_each rest body)%py
  end.

(** [range(n)] *)
Definition range (n : Z) : list nat := seq 0 (Z.to_nat n).

(* ================================================================== *)
(** ** hivemq_random_data.py *)

Definition BROKER_ADDRESS : string := "YOUR_CLUSTER_URL.s2.eu.hivemq.cloud".
Definition PORT : Z := 8883.
Definition USERNAME : string := "YOUR_USERNAME".
Definition PASSWORD : string := "YOUR_PASSWORD".
Definition TOPIC : string := "cargo/telemetry".

Definition INTERVAL : Z := 5.
Definition DURATION_HOURS : Z := 5.
Definition TOTAL_STEPS : Z := (DURATION_HOURS * 3600) / INTERVAL.

Section Script.

Variable W : world.

Local Open Scope py_scope.

(** A call that leaves the script: logged, then it returns or raises as
    the world decides. *)
Definition external (c : call) : M unit :=
  fun s =>
    let o := raises W (calls s) c in
    let s' := mk_state (S (calls s)) (ticks s) (draws s)
                       (mk_event c o :: log s) in
    match o with
    | None => (Ok tt, s')
    | Some e => (Raise e, s')
    end.

(** [datetime.utcnow()] *)
Definition datetime_utcnow : M datetime :=
  fun s => (Ok (utcnow W (ticks s)),
            mk_state (calls s) (S (ticks s)) (draws s) (log s)).

(** [random.random()] *)
Definition random_random : M Q :=
  fun s => (Ok (random_value (entropy W (draws s))),
            mk_state (calls s) (ticks s) (S (draws s)) (log s)).

(** [random.uniform(a, b)] *)
Definition random_uniform (a b : Q) : M Q :=
  r <- random_random ;; ret (uniform_value a b r).

(** [data[key]] *)
Definition subscript (data : pyval) (key : string) : M pyval :=
  match data with
  | PDict items =>
      match dict_get items key with
      | Some v => ret v
      | None => raise (OtherError "KeyError")
      end
  | _ => raise (OtherError "TypeError")
  end.

(** The callback the network thread of the client runs with the result
    code of the connection. *)
Definition on_connect (rc : Z) : M unit :=
  if (rc =? 0)%Z
  then external (Print "Successfully connected to HiveMQ Cloud!")
  else external (Print ("Connection failed with code " ++ str_int rc)).

Definition generate_cargo_data : M pyval :=
  now <- datetime_utcnow ;;
  u_lat <- random_uniform (fneg (float_lit 1 1000)) (float_lit 1 1000) ;;
  u_lon <- random_uniform (fneg (float_lit 1 1000)) (float_lit 1 1000) ;;
  u_temp <- random_uniform (fneg (float_lit 5 10)) (float_lit 5 10) ;;
  r <- random_random ;;
  ret (PDict
         [ ("device_id", PStr "CARGO-ESP32-001");
           ("timestamp", PStr (isoformat now ++ "Z"));
           ("location",
             PDict
               [ ("lat", PFloat (py_round (fadd (float_lit 13521 10000) u_lat) 4));
                 ("lon", PFloat (py_round (fadd (float_lit 1038198 10000) u_lon) 4)) ]);
           ("temperature", PFloat (py_round (fadd (float_lit 42 10) u_temp) 1));
           ("battery",
             PFloat (py_round (fsub (float_of_int 87)
                                    (fmul r (float_of_int 2))) 1)) ]).

(** One turn of the loop, for the index [i] of [range(TOTAL_STEPS)].  The
    progress line ends with the three code points U+00C2, U+00B0 and C of
    the source text. *)
Definition loop_body (i : nat) : M unit :=
  data <- generate_cargo_data ;;
  external (Publish TOPIC (dumps data) 1) ;;
  temperature <- subscript data "temperature" ;;
  external (Print ("[" ++ str_int (Z.of_nat i + 1) ++ "/" ++ str_int TOTAL_STEPS
                       ++ "] Published to HiveMQ: " ++ py_str temperature
                       ++ String "194"%char (String "176"%char "C"))) ;;
  external (Sleep INTERVAL).

(** The [try] section. *)
Definition simulation : M unit :=
  external (Print ("Connecting to " ++ BROKER_ADDRESS ++ "...")) ;;
  external (Connect BROKER_ADDRESS PORT 60) ;;
  external LoopStart ;;
  for_each (range TOTAL_STEPS) loop_body.

(** The [finally] section. *)
Definition teardown : M unit :=
  external LoopStop ;;
  external Disconnect.

Definition run_simulation : M unit :=
  try_except_finally
    simulation
    is_KeyboardInterrupt
    (external (Print (String "010" "Stopping...")))
    teardown.

End Script.

(** A whole run, from the first call on: how [run_simulation] ended and the
    calls it made, in the order they were made. *)
Definition outcome (w : world) : result unit := fst (run_simulation w init).
Definition trace (w : world) : list event := rev (log (snd (run_simulation w init))).

(* ================================================================== *)
(** ** Vocabulary of the statements *)

(** The four numbers of a reading, as functions of the draw they use. *)
Definition lat_value (k : N) : Q :=
  py_round (fadd (float_lit 13521 10000)
                 (uniform_value (fneg (float_lit 1 1000)) (float_lit 1 1000)
                                (random_value k))) 4.

Definition lon_value (k : N) : Q :=
  py_round (fadd (float_lit 1038198 10000)
                 (uniform_value (fneg (float_lit 1 1000)) (float_lit 1 1000)
                                (random_value k))) 4.

Definition temperature_value (k : N) : Q :=
  py_round (fadd (float_lit 42 10)
                 (uniform_value (fneg (float_lit 5 10)) (float_lit 5 10)
                                (random_value k))) 1.

Definition battery_value (k : N) : Q :=
  py_round (fsub (float_of_int 87) (fmul (random_value k) (float_of_int 2))) 1.

(** The dict of a reading with the given timestamp and numbers. *)
Definition reading_shape (ts : string) (lat lon temp bat : Q) : pyval :=
  PDict
    [ ("device_id", PStr "CARGO-ESP32-001");
      ("timestamp", PStr ts);
      ("location", PDict [ ("lat", PFloat lat); ("lon", PFloat lon) ]);
      ("temperature", PFloat temp);
      ("battery", PFloat bat) ].

(** The JSON text of such a reading, piece by piece. *)
Definition reading_text (ts : string) (lat lon temp bat : Q) : string :=
  "{" ++ encode_string "device_id" ++ ": " ++ encode_string "CARGO-ESP32-001" ++ ", "
  ++ encode_string "timestamp" ++ ": " ++ encode_string ts ++ ", "
  ++ encode_string "location" ++ ": " ++ "{"
  ++ encode_string "lat" ++ ": " ++ float_repr lat ++ ", "
  ++ encode_string "lon" ++ ": " ++ float_repr lon ++ "}" ++ ", "
  ++ encode_string "temperature" ++ ": " ++ float_repr temp ++ ", "
  ++ encode_string "battery" ++ ": " ++ float_repr bat ++ "}" ++ "".

(** The reading made from one clock value and four draws. *)
Definition reading_of (now : datetime) (k_lat k_lon k_temp k_bat : N) : pyval :=
  reading_shape (isoformat now ++ "Z") (lat_value k_lat) (lon_value k_lon)
                (temperature_value k_temp) (battery_value k_bat).

(** The reading made with the clock reading [t] and the draws from [d] on. *)
Definition reading_from (w : world) (t d : nat) : pyval :=
  reading_of (utcnow w t) (entropy w d) (entropy w (S d))
             (entropy w (S (S d))) (entropy w (S (S (S d)))).

(** The reading of the [i]-th turn of a run: it takes the [i]-th clock
    reading and the draws [4i .. 4i+3]. *)
Definition reading_at (w : world) (i : nat) : pyval := reading_from w i (4 * i).

(** The call of the event returned. *)
Definition returned (ev : event) : Prop := ev_raised ev = None.

(** How a stretch of the log fits the way the computation ended: every call
    returned, or the last one raised what the computation raises. *)
Definition ended (r : result unit) (evs : list event) : Prop :=
  match r with
  | Ok _ => Forall returned evs
  | Raise e =>
      exists evs0 c, evs = (evs0 ++ [mk_event c (Some e)])%list /\ Forall returned evs0
  end.

(** The outcome of an event is the world's answer to its call. *)
Definition answered (w : world) (ev : event) : Prop :=
  exists n, ev_raised ev = raises w n (ev_call ev).

(** The calls of the loop: a publish on [TOPIC] with QoS 1, a progress line,
    a pause. *)
Definition loop_call (c : call) : Prop :=
  match c with
  | Publish t _ q => t = TOPIC /\ q = 1%Z
  | Print _ | Sleep _ => True
  | _ => False
  end.

(** The calls of the [try] section. *)
Definition try_call (c : call) : Prop :=
  match c with
  | Publish t _ q => t = TOPIC /\ q = 1%Z
  | LoopStop | Disconnect => False
  | _ => True
  end.

Definition connecting_line : string := "Connecting to " ++ BROKER_ADDRESS ++ "...".
Definition stopping_line : string := String "010" "Stopping...".

Definition all_returned (tr : list event) : Prop :=
  forall ev, In ev tr -> returned ev.

Definition field (key : string) (v : pyval) : option pyval :=
  match v with
  | PDict items => dict_get items key
  | _ => None
  end.

Definition keys (v : pyval) : list string :=
  match v with
  | PDict items => map fst items
  | _ => []
  end.

Definition float_field (key : string) (v : pyval) : option Q :=
  match field key v with
  | Some (PFloat x) => Some x
  | _ => None
  end.

Definition nested_float (outer inner : string) (v : pyval) : option Q :=
  match field outer v with
  | Some d => float_field inner d
  | None => None
  end.

Definition nested_field (outer inner : string) (v : pyval) : option pyval :=
  match field outer v with
  | Some d => field inner d
  | None => None
  end.

(** [s.endswith(suffix)] *)
Definition endswith (s suffix : string) : bool :=
  (String.eqb (drop (String.length s - String.length suffix) s) suffix
   && (String.length suffix <=? String.length s)%nat)%bool.

(** Python's test for a number: an int or a float. *)
Definition is_number (v : pyval) : bool :=
  match v with
  | PInt _ | PFloat _ => true
  | _ => false
  end.

(** The double written as the decimal [m / 10^ndigits]. *)
Definition decimal_double (m : Z) (ndigits : Z) : Q :=
  binary64 (inject_Z m / 10 ^ ndigits).

Definition is_publish (c : call) : bool :=
  match c with Publish _ _ _ => true | _ => false end.

Definition is_connect (c : call) : bool :=
  match c with Connect _ _ _ => true | _ => false end.

Definition is_loop_stop (c : call) : bool :=
  match c with LoopStop => true | _ => false end.

Definition is_disconnect (c : call) : bool :=
  match c with Disconnect => true | _ => false end.

Definition is_teardown (c : call) : bool := (is_loop_stop c || is_disconnect c)%bool.

(** How many calls of a kind a trace holds. *)
Definition count_calls (kind : call -> bool) (tr : list event) : nat :=
  List.length (filter (fun ev => kind (ev_call ev)) tr).

(** The payloads published, in order. *)
Definition payloads (tr : list event) : list string :=
  flat_map (fun ev => match ev_call ev with
                      | Publish _ p _ => [p]
                      | _ => []
                      end) tr.

(** The calls of the [finally] section return. *)
Definition teardown_returns (w : world) : Prop :=
  forall n, raises w n LoopStop = None /\ raises w n Disconnect = None.

(** No call raises. *)
Definition undisturbed (w : world) : Prop :=
  forall n c, raises w n c = None.

(** The events of the [try] section, started in the state [s]: they end the
    way the section ended, hold no call of the teardown, at most one
    [connect] (and when that one raised, nothing after it), and the payloads
    published are those of the readings taken in turn. *)
Definition try_events (w : world) (s : state) (r : result unit) (evs : list event)
  : Prop :=
  ended r evs
  /\ Forall try_call (map ev_call evs)
  /\ Forall (answered w) evs
  /\ (count_calls is_connect evs <= 1)%nat
  /\ (forall ev, In ev evs -> is_connect (ev_call ev) = true -> ~ returned ev ->
      evs = [mk_event (Print connecting_line) None; ev])
  /\ exists m,
       (m <= Z.to_nat TOTAL_STEPS)%nat
       /\ (r = Ok tt -> m = Z.to_nat TOTAL_STEPS)
       /\ payloads evs
          = map (fun j => dumps (reading_from w (ticks s + j) (draws s + 4 * j)))
                (seq 0 m).

(** The events of the [except] clause after the [try] section ended with
    [r], and what is pending after it. *)
Definition handler_events (w : world) (r : result unit) (hevs : list event)
  (r2 : result unit) : Prop :=
  match r with
  | Raise KeyboardInterrupt =>
      exists o, answered w (mk_event (Print stopping_line) o)
                /\ hevs = [mk_event (Print stopping_line) o]
                /\ r2 = match o with None => Ok tt | Some e => Raise e end
  | _ => hevs = [] /\ r2 = r
  end.

(** The events of the [finally] section, entered with [r2] pending, and how
    the run ends. *)
Definition teardown_events (w : world) (r2 : result unit) (tevs : list event)
  (out : result unit) : Prop :=
  exists o1,
    answered w (mk_event LoopStop o1)
    /\ match o1 with
       | Some e => tevs = [mk_event LoopStop (Some e)] /\ out = Raise e
       | None =>
           exists o2,
             answered w (mk_event Disconnect o2)
             /\ tevs = [mk_event LoopStop None; mk_event Disconnect o2]
             /\ out = match o2 with None => r2 | Some e => Raise e end
       end.

Definition noon : datetime := mk_datetime 2026 11 3 12 0 0 0.

(** A world in which every call returns; each draw is zero. *)
Definition quiet_world : world :=
  mk_world (fun _ _ => None) (fun _ => noon) (fun _ => 0%N).

(** The broker refuses the connection. *)
Definition refused_world : world :=
  mk_world (fun _ c => match c with
                       | Connect _ _ _ => Some (OtherError "ConnectionRefusedError")
                       | _ => None
                       end)
           (fun _ => noon) (fun _ => 0%N).

(** The first publish fails. *)
Definition publish_fails_world : world :=
  mk_world (fun _ c => match c with
                       | Publish _ _ _ => Some (OtherError "ValueError")
                       | _ => None
                       end)
           (fun _ => noon) (fun _ => 0%N).

(** The user presses Ctrl-C during the first pause. *)
Definition interrupted_world : world :=
  mk_world (fun _ c => match c with
                       | Sleep _ => Some KeyboardInterrupt
                       | _ => None
                       end)
           (fun _ => noon) (fun _ => 0%N).

(** The user presses Ctrl-C during the first pause, and [loop_stop] fails
    in turn. *)
Definition stuck_stop_world : world :=
  mk_world (fun _ c => match c with
                       | Sleep _ => Some KeyboardInterrupt
                       | LoopStop => Some (OtherError "RuntimeError")
                       | _ => None
                       end)
           (fun _ => noon) (fun _ => 0%N).

(** Every call returns; the battery draw of the first turn is one half, that
    of the second turn zero. *)
Definition zigzag_world : world :=
  mk_world (fun _ _ => None) (fun _ => noon)
           (fun n => if Nat.eqb n 3 then (2 ^ 52)%N else 0%N).

Fixpoint Zrange (lo : Z) (n : nat) : list Z :=
  match n with
  | O => []
  | S n' => lo :: Zrange (lo + 1)%Z n'
  end.

(** The state after one call of [generate_cargo_data]: one clock reading
    and four draws further. *)
Definition advance (s : state) : state :=
  mk_state (calls s) (S (ticks s)) (4 + draws s) (log s).

(** [x] is no further than [bound] from [base], as exact numbers. *)
Definition within (x base bound : Q) : Prop := Qabs (x - base) <= bound.

(** The largest value of [random.random()]. *)
Definition rmax : Q := 9007199254740991 # 9007199254740992.

(** Checks run over the finitely many values a field can take. *)
Definition check_position (base tol : Q) (m : Z) : bool :=
  ((round_half_even (decimal_double m 4 * 10 ^ 4) =? m)%Z
   && Qle_bool (Qabs (decimal_double m 4 - base)) (float_lit 1 1000 + tol))%bool.

Definition check_tenth (m : Z) : bool :=
  (round_half_even (decimal_double m 1 * 10 ^ 1) =? m)%Z.

(* ================================================================== *)
(** ** Vocabulary of the further statements *)

(* ================================================================== *)
(** ** Vocabulary for the order of the calls *)

(** The line printed after the publish of turn [i], for the temperature
    [t] of the reading. *)
Definition progress_line (i : nat) (t : Q) : string :=
  "[" ++ str_int (Z.of_nat i + 1) ++ "/" ++ str_int TOTAL_STEPS
      ++ "] Published to HiveMQ: " ++ float_repr t
      ++ String "194"%char (String "176"%char "C").

(** The temperature drawn in turn [i] of a run. *)
Definition temperature_at (w : world) (i : nat) : Q :=
  temperature_value (entropy w (S (S (4 * i)))).

(** The calls of one turn of the loop with index [i], made with the clock
    reading [t] and the draws from [d] on. *)
Definition turn_calls (w : world) (i t d : nat) : list call :=
  [ Publish TOPIC (dumps (reading_from w t d)) 1;
    Print (progress_line i (temperature_value (entropy w (S (S d)))));
    Sleep INTERVAL ].

(** The calls of [n] whole turns from the index [a] on. *)
Definition loop_calls (w : world) (a t d n : nat) : list call :=
  flat_map (fun j => turn_calls w (a + j) (t + j) (d + 4 * j)) (seq 0 n).

(** The calls before the loop. *)
Definition setup_calls : list call :=
  [Print connecting_line; Connect BROKER_ADDRESS PORT 60; LoopStart].

(** The calls of a [try] section that nothing disturbs. *)
Definition ideal_calls (w : world) : list call :=
  (setup_calls ++ loop_calls w 0 0 0 (Z.to_nat TOTAL_STEPS))%list.

Definition prefix_of {A : Type} (l full : list A) : Prop :=
  exists tail, full = (l ++ tail)%list.

Definition is_sleep (c : call) : bool :=
  match c with Sleep _ => true | _ => false end.

(** The lines printed, in order. *)
Definition lines_printed (tr : list event) : list string :=
  flat_map (fun ev => match ev_call ev with
                      | Print l => [l]
                      | _ => []
                      end) tr.

(** The seconds asked of [time.sleep], summed over a trace. *)
Definition total_sleep (tr : list event) : Z :=
  fold_right (fun ev acc => match ev_call ev with
                            | Sleep n => (n + acc)%Z
                            | _ => acc
                            end) 0%Z tr.

(** The payloads and the lines among a list of calls. *)
Definition published (cs : list call) : list string :=
  flat_map (fun c => match c with Publish _ p _ => [p] | _ => [] end) cs.

Definition printed (cs : list call) : list string :=
  flat_map (fun c => match c with Print l => [l] | _ => [] end) cs.

Definition slept (cs : list call) : Z :=
  fold_right (fun c acc => match c with Sleep n => (n + acc)%Z | _ => acc end) 0%Z cs.

(** The calls of the [try] section of a run that ended with [r]: a
    beginning of [setup_calls] cut short by an exception, or the setup, [q]
    whole turns and the first [p] calls of one more turn. *)
Definition try_calls (w : world) (r : result unit) (cs : list call) : Prop :=
  (exists j, (1 <= j <= 3)%nat /\ cs = firstn j setup_calls /\ exists e, r = Raise e)
  \/ (exists q p,
        (q <= Z.to_nat TOTAL_STEPS)%nat /\ (p <= 2)%nat
        /\ (q = Z.to_nat TOTAL_STEPS -> p = 0%nat)
        /\ (forall u, r = Ok u -> q = Z.to_nat TOTAL_STEPS)
        /\ cs = (setup_calls ++ loop_calls w 0 0 0 q
                             ++ firstn p (turn_calls w q q (4 * q)))%list).

(** The state a run ends in. *)
Definition final_state (w : world) : state := snd (run_simulation w init).

(** The broker refuses the connection and [loop_stop] raises too. *)
Definition failing_teardown_world : world :=
  mk_world (fun _ c => match c with
                       | Connect _ _ _ => Some (OtherError "ConnectionRefusedError")
                       | LoopStop => Some (OtherError "RuntimeError")
                       | _ => None
                       end)
           (fun _ => noon) (fun _ => 0%N).

(** A world in which every call returns and the first four draws are the
    given ones. *)
Definition drawing_world (k_lat k_lon k_temp k_bat : N) : world :=
  mk_world (fun _ _ => None) (fun _ => noon)
           (fun n => match n with
                     | 0%nat => k_lat
                     | 1%nat => k_lon
                     | 2%nat => k_temp
                     | _ => k_bat
                     end).

(** The draw at the fraction [(m - lo) / span] of the range of
    [random.random()], kept below its upper end. *)
Definition draw_at (lo span m : Z) : N :=
  Z.to_N (Z.min (2 ^ 53 - 1) ((m - lo) * 2 ^ 53 / span)).

(** Equality of two rationals as written (same numerator, same
    denominator). *)
Definition same_fraction (a b : Q) : bool :=
  ((Qnum a =? Qnum b)%Z && (Qden a =? Qden b)%positive)%bool.

(** The fields of a [datetime] object are within the ranges the class
    keeps. *)
Definition valid_datetime (dt : datetime) : Prop :=
  (1 <= year dt <= 9999)%N /\ (1 <= month dt <= 12)%N /\ (1 <= day dt <= 31)%N
  /\ (hour dt <= 23)%N /\ (minute dt <= 59)%N /\ (second dt <= 59)%N
  /\ (microsecond dt <= 999999)%N.

(** The text holds decimal digits only. *)
Fixpoint all_digits (s : string) : bool :=
  match s with
  | String c rest => (is_digit c && all_digits rest)%bool
  | "" => true
  end.

(** [s] is the number [n] written with [width] decimal digits. *)
Definition written (width : nat) (s : string) (n : N) : Prop :=
  String.length s = width /\ all_digits s = true /\ digits_value 0 s = n.

(** Every call returns; the clock shows one microsecond after noon. *)
Definition later_world : world :=
  mk_world (fun _ _ => None) (fun _ => mk_datetime 2026 11 3 12 0 0 1)
           (fun _ => 0%N).

(** The character at a position of a text. *)
Definition char_at (i : nat) (s : string) : option ascii := String.get i s.

(** A call of the [try] section is no call of the teardown and does not
    print the handler's line. *)
Definition try_kind (c : call) : Prop :=
  is_teardown c = false /\ c <> Print stopping_line.

Definition starts_with_digit (s : string) : Prop :=
  match s with
  | String c _ => is_digit c = true
  | "" => False
  end.

(* ================================================================== *)
(** * Proofs *)

(** ** Rounding is monotone *)

Lemma round_half_even_mono q1 q2 :
  q1 <= q2 -> (round_half_even q1 <= round_half_even q2)%Z.
Proof.
  intros H. pose proof (Qfloor_resp_le _ _ H) as Hf.
  pose proof (Qfloor_le q1) as L1. pose proof (Qlt_floor q1) as U1.
  pose proof (Qfloor_le q2) as L2. pose proof (Qlt_floor q2) as U2.
  unfold round_half_even.
  destruct (Z.eq_dec (Qfloor q1) (Qfloor q2)) as [E|NE].
  - rewrite E in *.
    destruct (Qcompare_spec (q1 - inject_Z (Qfloor q2)) (1 # 2)),
             (Qcompare_spec (q2 - inject_Z (Qfloor q2)) (1 # 2));
      try lia; try (exfalso; lra); destruct (Z.even (Qfloor q2)); lia.
  - assert (Qfloor q1 + 1 <= Qfloor q2)%Z by lia.
    destruct (Qcompare (q1 - inject_Z (Qfloor q1)) (1 # 2)),
             (Qcompare (q2 - inject_Z (Qfloor q2)) (1 # 2));
      try destruct (Z.even (Qfloor q1)); try destruct (Z.even (Qfloor q2)); lia.
Qed.

Lemma round_half_even_Z z : round_half_even (inject_Z z) = z.
Proof.
  unfold round_half_even. rewrite Qfloor_Z.
  destruct (Qcompare_spec (inject_Z z - inject_Z z) (1 # 2)); try reflexivity; exfalso; lra.
Qed.

Lemma round_half_even_ext q1 q2 : q1 == q2 -> round_half_even q1 = round_half_even q2.
Proof.
  intros H. apply Z.le_antisymm; apply round_half_even_mono; rewrite H; apply Qle_refl.
Qed.

Lemma pow2_pos e : 0 < 2 ^ e.
Proof. apply Qpower_0_lt. reflexivity. Qed.

Lemma pow2_succ e : 2 ^ (e + 1) == 2 * 2 ^ e.
Proof. rewrite Qpower_plus by discriminate. simpl (2 ^ 1). ring. Qed.

Lemma ilog2_spec q : 0 < q -> 2 ^ ilog2 q <= q /\ q < 2 ^ (ilog2 q + 1).
Proof.
  intros Hq. destruct q as [n d]. 
  assert (Hn : (0 < n)%Z). { unfold Qlt in Hq. simpl in Hq. lia. }
  unfold ilog2. simpl Qnum. simpl Qden.
  set (a := Z.log2 n). set (b := Z.log2 (Z.pos d)).
  destruct (Z.log2_spec n Hn) as [A1 A2]. fold a in A1, A2.
  destruct (Z.log2_spec (Z.pos d) eq_refl) as [B1 B2]. fold b in B1, B2.
  assert (Ha : (0 <= a)%Z) by apply Z.log2_nonneg.
  assert (Hb : (0 <= b)%Z) by apply Z.log2_nonneg.
  assert (QA : inject_Z (2 ^ a) == 2 ^ a) by (apply (Zpower_Qpower 2 a Ha)).
  assert (QB : inject_Z (2 ^ b) == 2 ^ b) by (apply (Zpower_Qpower 2 b Hb)).
  assert (G : 2 ^ (a - b) * 2 ^ b == 2 ^ a).
  { rewrite <- Qpower_plus by discriminate. replace (a - b + b)%Z with a by ring. reflexivity. }
  assert (G1 : 2 ^ (a - b - 1) * 2 == 2 ^ (a - b)).
  { replace (a - b)%Z with (a - b - 1 + 1)%Z at 2 by ring. rewrite pow2_succ. ring. }
  pose proof (pow2_pos (a - b)) as Pg. pose proof (pow2_pos b) as Pb.
  pose proof (pow2_pos (a - b - 1)) as Pg1.
  assert (QN : n # d == inject_Z n / inject_Z (Z.pos d)) by apply Qmake_Qdiv.
  assert (Dpos : 0 < inject_Z (Z.pos d)) by (unfold Qlt; simpl; lia).
  assert (E : (n # d) * inject_Z (Z.pos d) == inject_Z n).
  { rewrite QN. field. intro K. rewrite K in Dpos. discriminate. }
  assert (A1q : 2 ^ a <= inject_Z n). { rewrite <- QA. rewrite <- Zle_Qle. exact A1. }
  assert (A2q : inject_Z n < 2 * 2 ^ a).
  { rewrite <- QA. change 2 with (inject_Z 2) at 1. rewrite <- inject_Z_mult, <- Zlt_Qlt.
    rewrite Z.pow_succ_r in A2 by lia. lia. }
  assert (B1q : 2 ^ b <= inject_Z (Z.pos d)). { rewrite <- QB. rewrite <- Zle_Qle. exact B1. }
  assert (B2q : inject_Z (Z.pos d) < 2 * 2 ^ b).
  { rewrite <- QB. change 2 with (inject_Z 2) at 1. rewrite <- inject_Z_mult, <- Zlt_Qlt.
    rewrite Z.pow_succ_r in B2 by lia. lia. }
  set (q := n # d) in *. set (D := inject_Z (Z.pos d)) in *. set (N := inject_Z n) in *.
  set (PA := 2 ^ a) in *. set (PB := 2 ^ b) in *.
  assert (Up : q < 2 * 2 ^ (a - b)).
  { set (PG := 2 ^ (a - b)) in *. nra. }
  assert (Lo : 2 ^ (a - b - 1) < q).
  { set (PG := 2 ^ (a - b)) in *. set (PG1 := 2 ^ (a - b - 1)) in *. nra. }
  destruct (Qle_bool (2 ^ (a - b)) q) eqn:C.
  - apply Qle_bool_iff in C. split; [exact C|]. rewrite pow2_succ. exact Up.
  - assert (C' : q < 2 ^ (a - b)).
    { apply Qnot_le_lt. intro K. apply Qle_bool_iff in K. congruence. }
    split; [apply Qlt_le_weak; exact Lo|].
    replace (a - b - 1 + 1)%Z with (a - b)%Z by ring. exact C'.
Qed.
Lemma ilog2_mono q1 q2 : 0 < q1 -> q1 <= q2 -> (ilog2 q1 <= ilog2 q2)%Z.
Proof.
  intros H1 H12.
  destruct (ilog2_spec q1 H1) as [L1 _].
  destruct (ilog2_spec q2 (Qlt_le_trans _ _ _ H1 H12)) as [_ U2].
  assert (K : 2 ^ ilog2 q1 < 2 ^ (ilog2 q2 + 1)) by lra.
  apply Qpower_lt_compat_l_inv in K; [lia | reflexivity].
Qed.

Lemma pow2_split a b : 2 ^ a * 2 ^ b == 2 ^ (a + b).
Proof. rewrite Qpower_plus by discriminate. reflexivity. Qed.

Lemma round_pos_value q :
  round_pos q ==
  inject_Z (round_half_even (q * 2 ^ (52 - Z.max (ilog2 q) emin)))
  * 2 ^ (Z.max (ilog2 q) emin - 52).
Proof. unfold round_pos. apply Qred_correct. Qed.

Lemma round_pos_nonneg q : 0 <= q -> 0 <= round_pos q.
Proof.
  intros H. rewrite round_pos_value.
  apply Qmult_le_0_compat; [|apply Qlt_le_weak, pow2_pos].
  change 0 with (inject_Z 0). rewrite <- Zle_Qle.
  rewrite <- (round_half_even_Z 0). apply round_half_even_mono.
  apply Qmult_le_0_compat; [exact H | apply Qlt_le_weak, pow2_pos].
Qed.

Lemma round_pos_mono q1 q2 : 0 < q1 -> q1 <= q2 -> round_pos q1 <= round_pos q2.
Proof.
  intros H1 H12. assert (H2 : 0 < q2) by lra.
  rewrite (round_pos_value q1), (round_pos_value q2).
  pose proof (ilog2_mono q1 q2 H1 H12) as Hl.
  destruct (ilog2_spec q1 H1) as [_ U1]. destruct (ilog2_spec q2 H2) as [L2 _].
  set (e1 := Z.max (ilog2 q1) emin). set (e2 := Z.max (ilog2 q2) emin).
  assert (He : (e1 <= e2)%Z) by (unfold e1, e2; lia).
  destruct (Z.eq_dec e1 e2) as [E|NE].
  - rewrite E. apply Qmult_le_compat_r; [|apply Qlt_le_weak, pow2_pos].
    rewrite <- Zle_Qle. apply round_half_even_mono.
    apply Qmult_le_compat_r; [exact H12 | apply Qlt_le_weak, pow2_pos].
  - assert (Hlt : (e1 + 1 <= e2)%Z) by lia.
    assert (E2 : e2 = ilog2 q2) by (unfold e1, e2 in *; lia).
    apply Qle_trans with (2 ^ e2).
    + apply Qle_trans with (2 ^ (e1 + 1)).
      * assert (R : (round_half_even (q1 * 2 ^ (52 - e1)) <= 2 ^ 53)%Z).
        { rewrite <- (round_half_even_Z (2 ^ 53)). apply round_half_even_mono.
          assert (P : 2 ^ (e1 + 1) * 2 ^ (52 - e1) == inject_Z (2 ^ 53)).
          { rewrite pow2_split. replace (e1 + 1 + (52 - e1))%Z with 53%Z by ring. reflexivity. }
          rewrite <- P. apply Qmult_le_compat_r; [|apply Qlt_le_weak, pow2_pos].
          apply Qle_trans with (2 ^ (ilog2 q1 + 1)); [lra|].
          apply Qpower_le_compat_l; [unfold e1; lia | discriminate]. }
        apply Qle_trans with (inject_Z (2 ^ 53) * 2 ^ (e1 - 52)).
        -- apply Qmult_le_compat_r; [|apply Qlt_le_weak, pow2_pos].
           rewrite <- Zle_Qle. exact R.
        -- change (inject_Z (2 ^ 53)) with ((2:Q) ^ 53). rewrite pow2_split.
           replace (53 + (e1 - 52))%Z with (e1 + 1)%Z by ring. apply Qle_refl.
      * apply Qpower_le_compat_l; [exact Hlt | discriminate].
    + assert (R : (2 ^ 52 <= round_half_even (q2 * 2 ^ (52 - e2)))%Z).
      { rewrite <- (round_half_even_Z (2 ^ 52)) at 1. apply round_half_even_mono.
        assert (P : 2 ^ e2 * 2 ^ (52 - e2) == inject_Z (2 ^ 52)).
        { rewrite pow2_split. replace (e2 + (52 - e2))%Z with 52%Z by ring. reflexivity. }
        rewrite <- P. apply Qmult_le_compat_r; [|apply Qlt_le_weak, pow2_pos].
        rewrite E2. exact L2. }
      apply Qle_trans with (inject_Z (2 ^ 52) * 2 ^ (e2 - 52)).
      * change (inject_Z (2 ^ 52)) with ((2:Q) ^ 52). rewrite pow2_split.
        replace (52 + (e2 - 52))%Z with e2 by ring. apply Qle_refl.
      * apply Qmult_le_compat_r; [|apply Qlt_le_weak, pow2_pos].
        rewrite <- Zle_Qle. exact R.
Qed.

Lemma Qnum_sign q :
  match Qnum q with Z0 => q == 0 | Zpos _ => 0 < q | Zneg _ => q < 0 end.
Proof. destruct q as [[|p|p] d]; unfold Qeq, Qlt; simpl; lia. Qed.

Lemma binary64_mono q1 q2 : q1 <= q2 -> binary64 q1 <= binary64 q2.
Proof.
  intros H. unfold binary64.
  pose proof (Qnum_sign q1) as S1. pose proof (Qnum_sign q2) as S2.
  destruct (Qnum q1), (Qnum q2); try (exfalso; lra).
  - apply Qle_refl.
  - apply round_pos_nonneg. lra.
  - apply round_pos_mono; assumption.
  - assert (0 <= round_pos (- q1)) by (apply round_pos_nonneg; lra). lra.
  - assert (0 <= round_pos (- q1)) by (apply round_pos_nonneg; lra).
    assert (0 <= round_pos q2) by (apply round_pos_nonneg; lra). lra.
  - assert (round_pos (- q2) <= round_pos (- q1)) by (apply round_pos_mono; lra). lra.
Qed.

Lemma round_pos_ext q1 q2 : 0 < q1 -> q1 == q2 -> round_pos q1 = round_pos q2.
Proof.
  intros H1 E. unfold round_pos.
  assert (L : ilog2 q1 = ilog2 q2).
  { apply Z.le_antisymm; apply ilog2_mono; lra. }
  rewrite L. apply Qred_complete.
  rewrite (round_half_even_ext (q1 * 2 ^ (52 - Z.max (ilog2 q2) emin))
                               (q2 * 2 ^ (52 - Z.max (ilog2 q2) emin))).
  - reflexivity.
  - rewrite E. reflexivity.
Qed.

Lemma binary64_ext q1 q2 : q1 == q2 -> binary64 q1 = binary64 q2.
Proof.
  intros E. unfold binary64.
  pose proof (Qnum_sign q1) as S1. pose proof (Qnum_sign q2) as S2.
  destruct (Qnum q1), (Qnum q2); try (exfalso; lra).
  - reflexivity.
  - apply round_pos_ext; assumption.
  - f_equal. apply round_pos_ext; lra.
Qed.

(** *** Ranges of the drawn values *)

Lemma random_value_range k :
  0 <= random_value k /\ random_value k <= 9007199254740991 # 9007199254740992.
Proof.
  unfold random_value. rewrite Qred_correct.
  assert (H : (k mod 2 ^ 53 < 2 ^ 53)%N) by (apply N.mod_lt; discriminate).
  set (j := (k mod 2 ^ 53)%N) in *.
  assert (Hz : (0 <= Z.of_N j <= 9007199254740991)%Z).
  { change (2 ^ 53)%N with 9007199254740992%N in H. lia. }
  change ((2:Q) ^ 53) with (inject_Z 9007199254740992).
  unfold Qdiv, Qmult, Qinv, Qle, inject_Z. simpl. lia.
Qed.

Lemma fadd_mono_r a x y : x <= y -> fadd a x <= fadd a y.
Proof. intros H. apply binary64_mono. lra. Qed.

Lemma fmul_mono_r c x y : 0 <= c -> x <= y -> fmul c x <= fmul c y.
Proof.
  intros Hc H. apply binary64_mono.
  rewrite (Qmult_comm c x), (Qmult_comm c y). apply Qmult_le_compat_r; assumption.
Qed.

Lemma uniform_value_mono a b r1 r2 :
  0 <= fsub b a -> r1 <= r2 -> uniform_value a b r1 <= uniform_value a b r2.
Proof. intros Hc H. apply fadd_mono_r, fmul_mono_r; assumption. Qed.

Lemma scaled_round_mono x y nd :
  x <= y -> (round_half_even (x * 10 ^ nd) <= round_half_even (y * 10 ^ nd))%Z.
Proof.
  intros H. apply round_half_even_mono, Qmult_le_compat_r; [exact H|].
  apply Qpower_0_le. discriminate.
Qed.

Lemma py_round_decimal x nd :
  py_round x nd = decimal_double (round_half_even (x * 10 ^ nd)) nd.
Proof. reflexivity. Qed.

Lemma forallb_Zrange f n : forall lo m,
  forallb f (Zrange lo n) = true ->
  (lo <= m < lo + Z.of_nat n)%Z -> f m = true.
Proof.
  induction n as [|n IH]; intros lo m H Hm; [lia|].
  simpl in H. apply andb_true_iff in H. destruct H as [H0 H1].
  destruct (Z.eq_dec m lo) as [->|NE]; [exact H0|].
  apply (IH (lo + 1)%Z); [exact H1 | lia].
Qed.

(** The jitter of the position is a positive span. *)
Lemma jitter_span_pos : 0 <= fsub (float_lit 1 1000) (fneg (float_lit 1 1000)).
Proof. vm_compute. discriminate. Qed.

Lemma temp_span_pos : 0 <= fsub (float_lit 5 10) (fneg (float_lit 5 10)).
Proof. vm_compute. discriminate. Qed.

Lemma lat_ticks_range k :
  exists m, lat_value k = decimal_double m 4 /\ (13511 <= m <= 13531)%Z.
Proof.
  unfold lat_value. rewrite py_round_decimal.
  eexists; split; [reflexivity|].
  destruct (random_value_range k) as [L U].
  set (F := fun r => round_half_even
     (fadd (float_lit 13521 10000)
        (uniform_value (fneg (float_lit 1 1000)) (float_lit 1 1000) r) * 10 ^ 4)).
  change (13511 <= F (random_value k) <= 13531)%Z.
  assert (Mono : forall x y, x <= y -> (F x <= F y)%Z).
  { intros x y H. apply scaled_round_mono, fadd_mono_r, uniform_value_mono;
      [apply jitter_span_pos | exact H]. }
  assert (E0 : F 0 = 13511%Z) by (vm_compute; reflexivity).
  assert (E1 : F rmax = 13531%Z) by (vm_compute; reflexivity).
  pose proof (Mono _ _ L). pose proof (Mono _ _ U). fold rmax in *. lia.
Qed.

Lemma lon_ticks_range k :
  exists m, lon_value k = decimal_double m 4 /\ (1038188 <= m <= 1038208)%Z.
Proof.
  unfold lon_value. rewrite py_round_decimal.
  eexists; split; [reflexivity|].
  destruct (random_value_range k) as [L U].
  set (F := fun r => round_half_even
     (fadd (float_lit 1038198 10000)
        (uniform_value (fneg (float_lit 1 1000)) (float_lit 1 1000) r) * 10 ^ 4)).
  change (1038188 <= F (random_value k) <= 1038208)%Z.
  assert (Mono : forall x y, x <= y -> (F x <= F y)%Z).
  { intros x y H. apply scaled_round_mono, fadd_mono_r, uniform_value_mono;
      [apply jitter_span_pos | exact H]. }
  assert (E0 : F 0 = 1038188%Z) by (vm_compute; reflexivity).
  assert (E1 : F rmax = 1038208%Z) by (vm_compute; reflexivity).
  pose proof (Mono _ _ L). pose proof (Mono _ _ U). fold rmax in *. lia.
Qed.

Lemma temperature_ticks_range k :
  exists m, temperature_value k = decimal_double m 1 /\ (37 <= m <= 47)%Z.
Proof.
  unfold temperature_value. rewrite py_round_decimal.
  eexists; split; [reflexivity|].
  destruct (random_value_range k) as [L U].
  set (F := fun r => round_half_even
     (fadd (float_lit 42 10)
        (uniform_value (fneg (float_lit 5 10)) (float_lit 5 10) r) * 10 ^ 1)).
  change (37 <= F (random_value k) <= 47)%Z.
  assert (Mono : forall x y, x <= y -> (F x <= F y)%Z).
  { intros x y H. apply scaled_round_mono, fadd_mono_r, uniform_value_mono;
      [apply temp_span_pos | exact H]. }
  assert (E0 : F 0 = 37%Z) by (vm_compute; reflexivity).
  assert (E1 : F rmax = 47%Z) by (vm_compute; reflexivity).
  pose proof (Mono _ _ L). pose proof (Mono _ _ U). fold rmax in *. lia.
Qed.

Lemma battery_ticks_range k :
  exists m, battery_value k = decimal_double m 1 /\ (850 <= m <= 870)%Z.
Proof.
  unfold battery_value. rewrite py_round_decimal.
  eexists; split; [reflexivity|].
  destruct (random_value_range k) as [L U].
  set (G := fun r => round_half_even
     (fsub (float_of_int 87) (fmul r (float_of_int 2)) * 10 ^ 1)).
  change (850 <= G (random_value k) <= 870)%Z.
  assert (Anti : forall x y, x <= y -> (G y <= G x)%Z).
  { intros x y H. apply scaled_round_mono. apply binary64_mono.
    assert (fmul x (float_of_int 2) <= fmul y (float_of_int 2)).
    { apply binary64_mono. apply Qmult_le_compat_r; [exact H|].
      vm_compute. discriminate. }
    lra. }
  assert (E0 : G 0 = 870%Z) by (vm_compute; reflexivity).
  assert (E1 : G rmax = 850%Z) by (vm_compute; reflexivity).
  pose proof (Anti _ _ L). pose proof (Anti _ _ U). fold rmax in *. lia.
Qed.

(** ** The numbers of a reading *)

(** *** The generator as a function of the clock and the draws *)

Lemma generate_cargo_data_eq w s :
  generate_cargo_data w s =
  (Ok (reading_of (utcnow w (ticks s)) (entropy w (draws s))
                  (entropy w (S (draws s))) (entropy w (S (S (draws s))))
                  (entropy w (S (S (S (draws s)))))),
   advance s).
Proof.
  cbv [generate_cargo_data bind datetime_utcnow random_uniform random_random ret
       reading_of reading_shape lat_value lon_value temperature_value battery_value advance
       calls ticks draws log Nat.add].
  reflexivity.
Qed.

Lemma lat_values_checked :
  forallb (check_position (float_lit 13521 10000) (2 ^ (-52))) (Zrange 13511 21) = true.
Proof. vm_compute. reflexivity. Qed.

Lemma lon_values_checked :
  forallb (check_position (float_lit 1038198 10000) (2 ^ (-46))) (Zrange 1038188 21) = true.
Proof. vm_compute. reflexivity. Qed.

Lemma temperature_values_checked :
  forallb (fun m => check_tenth m
                    && Qle_bool (Qabs (decimal_double m 1 - float_lit 42 10))
                                (float_lit 5 10))%bool
          (Zrange 37 11) = true.
Proof. vm_compute. reflexivity. Qed.

Lemma battery_values_checked :
  forallb (fun m => check_tenth m
                    && Qle_bool (float_of_int 87 - float_of_int 2) (decimal_double m 1)
                    && Qle_bool (decimal_double m 1) (float_of_int 87))%bool
          (Zrange 850 21) = true.
Proof. vm_compute. reflexivity. Qed.

Lemma py_round_fixed m nd :
  round_half_even (decimal_double m nd * 10 ^ nd) = m ->
  py_round (decimal_double m nd) nd = decimal_double m nd.
Proof. intros H. unfold py_round. rewrite H. reflexivity. Qed.

Lemma position_checked base tol m :
  check_position base tol m = true ->
  py_round (decimal_double m 4) 4 = decimal_double m 4
  /\ within (decimal_double m 4) base (float_lit 1 1000 + tol).
Proof.
  unfold check_position. intros H. apply andb_true_iff in H. destruct H as [H1 H2].
  split.
  - apply py_round_fixed. apply Z.eqb_eq. exact H1.
  - apply Qle_bool_iff. exact H2.
Qed.

(** C5, as stated, fails: with the draw 0 the latitude is the double of
    1.3511, and the distance between that double and the double of 1.3521
    is larger than the double of 0.001 (by about 1.1e-16), both when the
    distance is taken exactly and when it is computed in floats. *)
Lemma position_outside_jitter :
  exists data lat,
    fst (generate_cargo_data quiet_world init) = Ok data
    /\ nested_float "location" "lat" data = Some lat
    /\ lat = decimal_double 13511 4
    /\ ~ within lat (float_lit 13521 10000) (float_lit 1 1000)
    /\ ~ Qabs (fsub lat (float_lit 13521 10000)) <= float_lit 1 1000.
Proof.
  eexists. eexists. split; [reflexivity|]. split; [reflexivity|].
  split; [vm_compute; reflexivity|].
  split; unfold within; vm_compute; intro H; apply H; reflexivity.
Qed.

(** C5, amended: latitude and longitude are doubles of decimals with four
    places, between 1.3511 and 1.3531 and between 103.8188 and 103.8208;
    rounding them again to four places changes nothing; as doubles they
    are within the jitter 0.001 of the base up to one unit in the last
    place of the base ([2^-52] for 1.3521, [2^-46] for 103.8198). *)
Theorem position_within_jitter_of_base w s :
  exists data lat lon m_lat m_lon,
    fst (generate_cargo_data w s) = Ok data
    /\ nested_float "location" "lat" data = Some lat
    /\ nested_float "location" "lon" data = Some lon
    /\ lat = decimal_double m_lat 4 /\ (13511 <= m_lat <= 13531)%Z
    /\ lon = decimal_double m_lon 4 /\ (1038188 <= m_lon <= 1038208)%Z
    /\ py_round lat 4 = lat /\ py_round lon 4 = lon
    /\ within lat (float_lit 13521 10000) (float_lit 1 1000 + 2 ^ (-52))
    /\ within lon (float_lit 1038198 10000) (float_lit 1 1000 + 2 ^ (-46)).
Proof.
  rewrite generate_cargo_data_eq.
  destruct (lat_ticks_range (entropy w (draws s))) as [m1 [E1 R1]].
  destruct (lon_ticks_range (entropy w (S (draws s)))) as [m2 [E2 R2]].
  destruct (position_checked _ _ m1
              (forallb_Zrange _ _ _ m1 lat_values_checked ltac:(simpl; lia))) as [F1 T1].
  destruct (position_checked _ _ m2
              (forallb_Zrange _ _ _ m2 lon_values_checked ltac:(simpl; lia))) as [F2 T2].
  eexists. exists (decimal_double m1 4), (decimal_double m2 4), m1, m2.
  split; [reflexivity|].
  split; [unfold nested_float, float_field; simpl; rewrite E1; reflexivity|].
  split; [unfold nested_float, float_field; simpl; rewrite E2; reflexivity|].
  repeat split; try assumption; try lia.
Qed.

(** C6: temperature and battery are doubles of decimals with one place
    (rounding them again to one place changes nothing); the temperature is
    within 0.5 of 4.2 and the battery lies between 87 - 2 and 87. *)
Theorem temperature_and_battery_bounds w s :
  exists data t b m_t m_b,
    fst (generate_cargo_data w s) = Ok data
    /\ float_field "temperature" data = Some t
    /\ float_field "battery" data = Some b
    /\ t = decimal_double m_t 1 /\ b = decimal_double m_b 1
    /\ py_round t 1 = t /\ py_round b 1 = b
    /\ within t (float_lit 42 10) (float_lit 5 10)
    /\ float_of_int 87 - float_of_int 2 <= b /\ b <= float_of_int 87.
Proof.
  rewrite generate_cargo_data_eq.
  destruct (temperature_ticks_range (entropy w (S (S (draws s))))) as [m1 [E1 R1]].
  destruct (battery_ticks_range (entropy w (S (S (S (draws s)))))) as [m2 [E2 R2]].
  pose proof (forallb_Zrange _ _ _ m1 temperature_values_checked ltac:(simpl; lia)) as C1.
  pose proof (forallb_Zrange _ _ _ m2 battery_values_checked ltac:(simpl; lia)) as C2.
  cbv beta in C1, C2.
  apply andb_true_iff in C1. destruct C1 as [C1a C1b].
  apply andb_true_iff in C2. destruct C2 as [C2 C2c].
  apply andb_true_iff in C2. destruct C2 as [C2a C2b].
  eexists. exists (decimal_double m1 1), (decimal_double m2 1), m1, m2.
  split; [reflexivity|].
  split; [unfold float_field; simpl; rewrite E1; reflexivity|].
  split; [unfold float_field; simpl; rewrite E2; reflexivity|].
  split; [reflexivity|]. split; [reflexivity|].
  split; [apply py_round_fixed, Z.eqb_eq; exact C1a|].
  split; [apply py_round_fixed, Z.eqb_eq; exact C2a|].
  split; [apply Qle_bool_iff; exact C1b|].
  split; apply Qle_bool_iff; assumption.
Qed.

(** ** Reading JSON text back *)

Lemma append_assoc (a b c : string) : (a ++ b) ++ c = a ++ (b ++ c).
Proof. induction a as [|x a IH]; simpl; [reflexivity | rewrite IH; reflexivity]. Qed.

Lemma scanstring_escape_char c X :
  scanstring (escape_char c ++ X) =
  match scanstring X with
  | Some (str, tl) => Some (String c str, tl)
  | None => None
  end.
Proof.
  destruct c as [b0 b1 b2 b3 b4 b5 b6 b7].
  destruct b0, b1, b2, b3, b4, b5, b6, b7; reflexivity.
Qed.

Lemma scanstring_escape s X :
  scanstring (escape_string s ++ String dquote X) = Some (s, X).
Proof.
  induction s as [|c s IH].
  - reflexivity.
  - simpl escape_string. rewrite append_assoc, scanstring_escape_char, IH. reflexivity.
Qed.

Lemma encode_string_cons s X :
  encode_string s ++ X = String dquote (escape_string s ++ String dquote X).
Proof. unfold encode_string. simpl. rewrite append_assoc. reflexivity. Qed.

Lemma skip_ws_encode s X : skip_ws (encode_string s ++ X) = encode_string s ++ X.
Proof. rewrite encode_string_cons. reflexivity. Qed.

Lemma scan_string_value f s X :
  scan_once (S f) (skip_ws (encode_string s ++ X)) = Some (PStr s, X).
Proof.
  rewrite skip_ws_encode, encode_string_cons.
  cbn [scan_once]. change (Ascii.eqb dquote dquote) with true. cbv iota.
  rewrite scanstring_escape. reflexivity.
Qed.

Lemma scan_object_open f k X :
  scan_once (S f) (skip_ws ("{" ++ encode_string k ++ X))
  = scan_members f (encode_string k ++ X) [].
Proof.
  rewrite encode_string_cons. reflexivity.
Qed.

Lemma scan_members_head f key V acc :
  scan_members (S f) (encode_string key ++ ": " ++ V) acc =
  match scan_once f (skip_ws V) with
  | Some (v, tl2) =>
      match skip_ws tl2 with
      | String "}"%char tl3 => Some (PDict (dict_set acc key v), tl3)
      | String ","%char tl3 => scan_members f (skip_ws tl3) (dict_set acc key v)
      | _ => None
      end
  | None => None
  end.
Proof.
  rewrite encode_string_cons.
  cbn [scan_members]. change (Ascii.eqb dquote dquote) with true. cbv iota.
  rewrite scanstring_escape. reflexivity.
Qed.

Lemma scan_members_comma f key V v k2 X acc :
  scan_once f (skip_ws V) = Some (v, ", " ++ encode_string k2 ++ X) ->
  scan_members (S f) (encode_string key ++ ": " ++ V) acc
  = scan_members f (encode_string k2 ++ X) (dict_set acc key v).
Proof.
  intros H. rewrite scan_members_head, H.
  change (skip_ws (", " ++ encode_string k2 ++ X))
    with (String "," (String " " (encode_string k2 ++ X))).
  cbv iota.
  change (skip_ws (String " " (encode_string k2 ++ X)))
    with (skip_ws (encode_string k2 ++ X)).
  rewrite skip_ws_encode. reflexivity.
Qed.

Lemma scan_members_close f key V v X acc :
  scan_once f (skip_ws V) = Some (v, "}" ++ X) ->
  scan_members (S f) (encode_string key ++ ": " ++ V) acc
  = Some (PDict (dict_set acc key v), X).
Proof.
  intros H. rewrite scan_members_head, H. reflexivity.
Qed.

Ltac split_range m lo n :=
  lazymatch n with
  | O => exfalso; lia
  | S ?n' =>
      destruct (Z.eq_dec m lo) as [->|?];
      [ | let lo' := eval compute in (lo + 1)%Z in split_range m lo' n' ]
  end.

Lemma lat_text_scans m f rest :
  (13511 <= m <= 13531)%Z ->
  scan_once (S f) (skip_ws (float_repr (decimal_double m 4) ++ ", " ++ rest))
  = Some (PFloat (decimal_double m 4), ", " ++ rest).
Proof.
  intros H. split_range m 13511%Z 21%nat; vm_compute; reflexivity.
Qed.

Lemma lon_text_scans m f rest :
  (1038188 <= m <= 1038208)%Z ->
  scan_once (S f) (skip_ws (float_repr (decimal_double m 4) ++ "}" ++ rest))
  = Some (PFloat (decimal_double m 4), "}" ++ rest).
Proof.
  intros H. split_range m 1038188%Z 21%nat; vm_compute; reflexivity.
Qed.

Lemma temperature_text_scans m f rest :
  (37 <= m <= 47)%Z ->
  scan_once (S f) (skip_ws (float_repr (decimal_double m 1) ++ ", " ++ rest))
  = Some (PFloat (decimal_double m 1), ", " ++ rest).
Proof.
  intros H. split_range m 37%Z 11%nat; vm_compute; reflexivity.
Qed.

Lemma battery_text_scans m f rest :
  (850 <= m <= 870)%Z ->
  scan_once (S f) (skip_ws (float_repr (decimal_double m 1) ++ "}" ++ rest))
  = Some (PFloat (decimal_double m 1), "}" ++ rest).
Proof.
  intros H. split_range m 850%Z 21%nat; vm_compute; reflexivity.
Qed.

Section ReadingText.

Variables (ts : string) (lat lon temp bat : Q).

Hypothesis lat_scans : forall f rest,
  scan_once (S f) (skip_ws (float_repr lat ++ ", " ++ rest))
  = Some (PFloat lat, ", " ++ rest).
Hypothesis lon_scans : forall f rest,
  scan_once (S f) (skip_ws (float_repr lon ++ "}" ++ rest))
  = Some (PFloat lon, "}" ++ rest).
Hypothesis temp_scans : forall f rest,
  scan_once (S f) (skip_ws (float_repr temp ++ ", " ++ rest))
  = Some (PFloat temp, ", " ++ rest).
Hypothesis bat_scans : forall f rest,
  scan_once (S f) (skip_ws (float_repr bat ++ "}" ++ rest))
  = Some (PFloat bat, "}" ++ rest).

Lemma dumps_reading :
  dumps (reading_shape ts lat lon temp bat) = reading_text ts lat lon temp bat.
Proof.
  unfold reading_shape, reading_text.
  cbn [dumps map join fst snd].
  rewrite !append_assoc. reflexivity.
Qed.

Lemma scan_text f :
  scan_once (10 + f)%nat (skip_ws (reading_text ts lat lon temp bat))
  = Some (reading_shape ts lat lon temp bat, "").
Proof.
  unfold reading_text. cbn [Nat.add].
  rewrite scan_object_open.
  erewrite scan_members_comma by apply scan_string_value.
  erewrite scan_members_comma by apply scan_string_value.
  erewrite scan_members_comma.
  2:{ rewrite scan_object_open.
      erewrite scan_members_comma by apply lat_scans.
      erewrite scan_members_close by apply lon_scans.
      reflexivity. }
  erewrite scan_members_comma by apply temp_scans.
  erewrite scan_members_close by apply bat_scans.
  reflexivity.
Qed.

Lemma text_long :
  exists f, S (String.length (reading_text ts lat lon temp bat)) = (10 + f)%nat.
Proof.
  unfold reading_text. rewrite !encode_string_cons. eexists.
  cbn [append String.length Nat.add]. reflexivity.
Qed.

Lemma loads_dumps_reading :
  loads (dumps (reading_shape ts lat lon temp bat))
  = Some (reading_shape ts lat lon temp bat).
Proof.
  rewrite dumps_reading. unfold loads.
  destruct text_long as [f ->]. rewrite scan_text. reflexivity.
Qed.

End ReadingText.

(** ** The shape of a reading *)

Close Scope Q_scope.
Close Scope Z_scope.

Lemma length_append a b :
  String.length (a ++ b) = String.length a + String.length b.
Proof. induction a as [|c a IH]; simpl; [reflexivity | rewrite IH; reflexivity]. Qed.

Lemma drop_append a b : drop (String.length a) (a ++ b) = b.
Proof. induction a as [|c a IH]; simpl; [destruct b; reflexivity | exact IH]. Qed.

Lemma endswith_append body suffix : endswith (body ++ suffix) suffix = true.
Proof.
  unfold endswith. rewrite length_append.
  replace (String.length body + String.length suffix - String.length suffix)
    with (String.length body) by lia.
  rewrite drop_append, String.eqb_refl. apply Nat.leb_le. lia.
Qed.

(** C4, as stated, fails: a reading, and the object parsed back from its
    JSON text, has five fields at the top level, not six. *)
Lemma reading_has_five_top_level_fields :
  exists data parsed,
    fst (generate_cargo_data quiet_world init) = Ok data
    /\ loads (dumps data) = Some parsed
    /\ keys parsed = ["device_id"; "timestamp"; "location"; "temperature"; "battery"]
    /\ List.length (keys parsed) = 5
    /\ List.length (keys parsed) <> 6.
Proof.
  exists (reading_from quiet_world 0 0). eexists.
  split; [rewrite generate_cargo_data_eq; reflexivity|].
  split; [vm_compute; reflexivity|].
  split; [reflexivity|]. split; [reflexivity | discriminate].
Qed.

(** C4, amended: parsing the JSON text of a generated reading gives the
    reading back: the same five fields at the top level (the two
    coordinates sit inside location), each with an equal value. *)
Theorem json_round_trip w s :
  exists data,
    fst (generate_cargo_data w s) = Ok data
    /\ loads (dumps data) = Some data
    /\ keys data = ["device_id"; "timestamp"; "location"; "temperature"; "battery"]
    /\ (exists loc, field "location" data = Some loc /\ keys loc = ["lat"; "lon"]).
Proof.
  rewrite generate_cargo_data_eq. eexists. split; [reflexivity|].
  split; [|split; [reflexivity | eexists; split; reflexivity]].
  unfold reading_of.
  destruct (lat_ticks_range (entropy w (draws s))) as [m1 [-> R1]].
  destruct (lon_ticks_range (entropy w (S (draws s)))) as [m2 [-> R2]].
  destruct (temperature_ticks_range (entropy w (S (S (draws s))))) as [m3 [-> R3]].
  destruct (battery_ticks_range (entropy w (S (S (S (draws s)))))) as [m4 [-> R4]].
  apply loads_dumps_reading.
  - intros f rest. apply lat_text_scans, R1.
  - intros f rest. apply lon_text_scans, R2.
  - intros f rest. apply temperature_text_scans, R3.
  - intros f rest. apply battery_text_scans, R4.
Qed.

(** C8: a reading carries the device id CARGO-ESP32-001, a timestamp that
    is not empty and ends in Z, and numbers for latitude, longitude,
    temperature and battery. *)
Theorem reading_fields w s :
  exists data ts,
    fst (generate_cargo_data w s) = Ok data
    /\ field "device_id" data = Some (PStr "CARGO-ESP32-001")
    /\ field "timestamp" data = Some (PStr ts)
    /\ ts <> "" /\ endswith ts "Z" = true
    /\ ts = isoformat (utcnow w (ticks s)) ++ "Z"
    /\ (exists v, nested_field "location" "lat" data = Some v /\ is_number v = true)
    /\ (exists v, nested_field "location" "lon" data = Some v /\ is_number v = true)
    /\ (exists v, field "temperature" data = Some v /\ is_number v = true)
    /\ (exists v, field "battery" data = Some v /\ is_number v = true).
Proof.
  rewrite generate_cargo_data_eq. eexists. eexists.
  split; [reflexivity|]. split; [reflexivity|]. split; [reflexivity|].
  split. { destruct (isoformat (utcnow w (ticks s))); discriminate. }
  split. { apply endswith_append. }
  split; [reflexivity|].
  repeat split; eexists; split; reflexivity.
Qed.

(** C10: a reading is a dict with exactly the five keys device_id,
    timestamp, location, temperature and battery, in this order; location
    is a dict with exactly the two keys lat and lon, which are no keys of
    the reading itself. *)
Theorem reading_keys w s :
  exists items loc,
    fst (generate_cargo_data w s) = Ok (PDict items)
    /\ map fst items = ["device_id"; "timestamp"; "location"; "temperature"; "battery"]
    /\ List.length items = 5
    /\ dict_get items "location" = Some (PDict loc)
    /\ map fst loc = ["lat"; "lon"]
    /\ List.length loc = 2
    /\ dict_get items "lat" = None /\ dict_get items "lon" = None.
Proof.
  rewrite generate_cargo_data_eq. eexists. eexists.
  split; [reflexivity|]. repeat split; reflexivity.
Qed.

(** ** Runs *)

Open Scope list_scope.

Lemma bind_eq {A B} (m : M A) (k : A -> M B) s :
  bind m k s = match m s with
               | (Ok a, s1) => k a s1
               | (Raise e, s1) => (Raise e, s1)
               end.
Proof. reflexivity. Qed.

(** The state after the call [c] with the outcome [o]. *)
Lemma external_run w c s :
  external w c s =
  (match raises w (calls s) c with None => Ok tt | Some e => Raise e end,
   mk_state (S (calls s)) (ticks s) (draws s)
            (mk_event c (raises w (calls s) c) :: log s)).
Proof. unfold external. destruct (raises w (calls s) c); reflexivity. Qed.

Lemma subscript_temperature w t d s :
  subscript (reading_from w t d) "temperature" s
  = (Ok (PFloat (temperature_value (entropy w (S (S d))))), s).
Proof. reflexivity. Qed.

Lemma answered_here w n c : answered w (mk_event c (raises w n c)).
Proof. exists n. reflexivity. Qed.

Ltac run_call E :=
  rewrite bind_eq, external_run in E;
  let o := fresh "o" in
  let Ho := fresh "Ho" in
  match type of E with
  | context [mk_event ?c (raises ?w ?n ?c)] =>
      pose proof (answered_here w n c) as Ho;
      destruct (raises w n c) as [o|]
  end;
  cbv beta iota in E.

Ltac split_run E :=
  let Er := fresh "Er" in
  let Es := fresh "Es" in
  pose proof (f_equal fst E) as Er; pose proof (f_equal snd E) as Es;
  cbn [fst snd] in Er, Es; clear E;
  match type of Er with _ = ?r => subst r end;
  match type of Es with _ = ?s => subst s end.

Ltac ended_raise pre :=
  exists pre; eexists; split; [reflexivity | repeat constructor].

Lemma loop_body_spec w i s r s' :
  loop_body w i s = (r, s') ->
  exists evs,
    log s' = rev evs ++ log s
    /\ ticks s' = S (ticks s)
    /\ draws s' = 4 + draws s
    /\ ended r evs
    /\ payloads evs = [dumps (reading_from w (ticks s) (draws s))]
    /\ Forall loop_call (map ev_call evs)
    /\ Forall (answered w) evs.
Proof.
  intros E. unfold loop_body in E.
  rewrite bind_eq, generate_cargo_data_eq in E.
  fold (reading_from w (ticks s) (draws s)) in E. cbv beta iota in E.
  run_call E.
  { split_run E. eexists [_].
    repeat split; try reflexivity; try (ended_raise (@nil event)); repeat constructor; assumption. }
  rewrite bind_eq, subscript_temperature in E. cbv beta iota in E.
  run_call E.
  { split_run E. eexists [_; _].
    repeat split; try reflexivity; try (eexists [_]; eexists; split; [reflexivity | repeat constructor]); repeat constructor; assumption. }
  rewrite external_run in E.
  match type of E with
  | context [mk_event ?c (raises ?w ?n ?c)] =>
      pose proof (answered_here w n c) as Ho1; destruct (raises w n c) as [o1|]
  end.
  { split_run E. eexists [_; _; _].
    repeat split; try reflexivity; try (eexists [_; _]; eexists; split; [reflexivity | repeat constructor]); repeat constructor; assumption. }
  split_run E. eexists [_; _; _].
  repeat split; try reflexivity; repeat constructor; assumption.
Qed.

Lemma ended_app r evs1 evs2 :
  Forall returned evs1 -> ended r evs2 -> ended r (evs1 ++ evs2).
Proof.
  intros H1 H2. destruct r as [u|e]; simpl in *.
  - apply Forall_app. split; assumption.
  - destruct H2 as (evs0 & c & -> & H0).
    exists (evs1 ++ evs0), c. split; [apply app_assoc|].
    apply Forall_app. split; assumption.
Qed.

Lemma payloads_app evs1 evs2 :
  payloads (evs1 ++ evs2) = payloads evs1 ++ payloads evs2.
Proof. apply flat_map_app. Qed.

Lemma loop_spec w n : forall a s r s',
  for_each (seq a n) (loop_body w) s = (r, s') ->
  exists evs m,
    log s' = rev evs ++ log s
    /\ m <= n /\ (r = Ok tt -> m = n)
    /\ ended r evs
    /\ payloads evs
       = map (fun j => dumps (reading_from w (ticks s + j) (draws s + 4 * j)))
             (seq 0 m)
    /\ Forall loop_call (map ev_call evs)
    /\ Forall (answered w) evs.
Proof.
  induction n as [|n IH]; intros a s r s' E.
  - cbn [seq for_each] in E. unfold ret in E. split_run E.
    exists [], 0. repeat split; try reflexivity; try constructor.
  - cbn [seq for_each] in E. rewrite bind_eq in E.
    destruct (loop_body w a s) as [r1 s1] eqn:E1.
    apply loop_body_spec in E1.
    destruct E1 as (evs1 & L1 & T1 & D1 & En1 & P1 & C1 & A1).
    destruct r1 as [u|e].
    + apply IH in E. destruct E as (evs2 & m & L2 & Hm & Hok & En2 & P2 & C2 & A2).
      exists (evs1 ++ evs2), (S m).
      split. { rewrite L2, L1, rev_app_distr, app_assoc. reflexivity. }
      split. { lia. }
      split. { intros Hr. rewrite (Hok Hr). reflexivity. }
      split. { apply ended_app; assumption. }
      split.
      { rewrite payloads_app, P1, P2. cbn [seq map app].
        replace (draws s + 4 * 0) with (draws s) by lia.
        replace (ticks s + 0) with (ticks s) by lia.
        apply (f_equal (cons _)). rewrite <- seq_shift, map_map.
        apply map_ext. intros j. rewrite T1, D1.
        replace (ticks s + S j) with (S (ticks s) + j) by lia.
        replace (draws s + 4 * S j) with (4 + draws s + 4 * j) by lia.
        reflexivity. }
      split. { rewrite map_app. apply Forall_app. split; assumption. }
      apply Forall_app. split; assumption.
    + split_run E. exists evs1, 1.
      split; [exact L1|]. split; [lia|]. split; [discriminate|].
      split; [exact En1|].
      split. { rewrite P1. cbn [seq map].
               replace (draws s + 4 * 0) with (draws s) by lia.
               replace (ticks s + 0) with (ticks s) by lia.
               reflexivity. }
      split; assumption.
Qed.

Lemma loop_call_try c : loop_call c -> try_call c.
Proof. destruct c; simpl; tauto. Qed.

Lemma loop_call_not_connect c : loop_call c -> is_connect c = false.
Proof. destruct c; simpl; tauto. Qed.

Lemma count_calls_app kind evs1 evs2 :
  count_calls kind (evs1 ++ evs2) = count_calls kind evs1 + count_calls kind evs2.
Proof. unfold count_calls. rewrite filter_app, length_app. reflexivity. Qed.

Lemma count_calls_none kind evs :
  Forall (fun c => kind c = false) (map ev_call evs) -> count_calls kind evs = 0.
Proof.
  unfold count_calls. induction evs as [|ev evs IH]; intros H; [reflexivity|].
  cbn [map] in H. apply Forall_cons_iff in H. destruct H as [H0 H].
  cbn [filter]. rewrite H0. apply IH, H.
Qed.

Lemma loop_has_no_connect evs :
  Forall loop_call (map ev_call evs) -> count_calls is_connect evs = 0.
Proof.
  intros H. apply count_calls_none. eapply Forall_impl; [|exact H].
  apply loop_call_not_connect.
Qed.

Ltac no_connect_here :=
  let ev := fresh "ev" in
  let Hin := fresh "Hin" in
  let Hc := fresh "Hc" in
  let Hr := fresh "Hr" in
  intros ev Hin Hc Hr; cbn [In] in Hin;
  repeat (destruct Hin as [Hin|Hin]; [subst ev; try discriminate Hc; try (exfalso; apply Hr; reflexivity)|]);
  try contradiction.

Lemma simulation_spec w s r s' :
  simulation w s = (r, s') ->
  exists evs, log s' = rev evs ++ log s /\ try_events w s r evs.
Proof.
  intros E. unfold simulation in E. fold connecting_line in E.
  run_call E.
  { split_run E. eexists [_]. split; [reflexivity|].
    repeat split; try (ended_raise (@nil event)); repeat constructor; try assumption.
    - no_connect_here.
    - exists 0. repeat split; [lia | discriminate]. }
  run_call E.
  { split_run E. eexists [_; _]. split; [reflexivity|].
    repeat split; try (eexists [_]; eexists; split; [reflexivity | repeat constructor]);
      repeat constructor; try assumption.
    - no_connect_here. reflexivity.
    - exists 0. repeat split; [lia | discriminate]. }
  run_call E.
  { split_run E. eexists [_; _; _]. split; [reflexivity|].
    repeat split; try (eexists [_; _]; eexists; split; [reflexivity | repeat constructor]);
      repeat constructor; try assumption.
    - no_connect_here.
    - exists 0. repeat split; [lia | discriminate]. }
  unfold range in E. apply loop_spec in E.
  destruct E as (evs & m & L & Hm & Hok & En & P & C & A).
  cbn [calls ticks draws log] in L, P.
  eexists ([_; _; _] ++ evs). split.
  { rewrite L, rev_app_distr, <- app_assoc. reflexivity. }
  split. { apply ended_app; [repeat constructor | exact En]. }
  split. { rewrite map_app. apply Forall_app. split; [repeat constructor|].
           eapply Forall_impl; [|exact C]. apply loop_call_try. }
  split. { apply Forall_app. split; [repeat constructor; assumption | exact A]. }
  split. { rewrite count_calls_app, (loop_has_no_connect _ C). reflexivity. }
  split.
  { intros ev Hin Hc Hr. apply in_app_or in Hin. destruct Hin as [Hin|Hin].
    - exfalso. revert ev Hin Hc Hr. no_connect_here.
    - exfalso. rewrite Forall_forall in C.
      assert (Hl : loop_call (ev_call ev)) by (apply C, in_map, Hin).
      rewrite (loop_call_not_connect _ Hl) in Hc. discriminate. }
  exists m. split; [exact Hm|]. split; [exact Hok|].
  rewrite payloads_app. exact P.
Qed.

Lemma handler_spec w r s1 :
  exists hevs r2,
    handler_events w r hevs r2
    /\ (let (r2', s2) :=
          match r with
          | Ok _ => (Ok tt, s1)
          | Raise e =>
              if is_KeyboardInterrupt e
              then external w (Print (String "010" "Stopping...")) s1
              else (Raise e, s1)
          end in
        r2' = r2 /\ log s2 = rev hevs ++ log s1).
Proof.
  destruct r as [[]|[|name]].
  - exists [], (Ok tt). repeat split.
  - cbn [is_KeyboardInterrupt]. rewrite external_run. fold stopping_line.
    pose proof (answered_here w (calls s1) (Print stopping_line)) as Ha.
    destruct (raises w (calls s1) (Print stopping_line)) as [e|].
    + exists [mk_event (Print stopping_line) (Some e)], (Raise e).
      split; [exists (Some e); repeat split; assumption | split; reflexivity].
    + exists [mk_event (Print stopping_line) None], (Ok tt).
      split; [exists None; repeat split; assumption | split; reflexivity].
  - exists [], (Raise (OtherError name)). repeat split.
Qed.

Lemma teardown_spec w r2 s2 :
  exists tevs out,
    teardown_events w r2 tevs out
    /\ (let (r3, s3) := teardown w s2 in
        match r3 with Ok _ => r2 | Raise e => Raise e end = out
        /\ log s3 = rev tevs ++ log s2).
Proof.
  unfold teardown. rewrite bind_eq, external_run.
  pose proof (answered_here w (calls s2) LoopStop) as Ha.
  destruct (raises w (calls s2) LoopStop) as [e|].
  - exists [mk_event LoopStop (Some e)], (Raise e).
    split; [exists (Some e); repeat split; assumption | split; reflexivity].
  - cbv beta iota. rewrite external_run.
    match goal with
    | |- context [mk_event Disconnect (raises w ?n Disconnect)] =>
        pose proof (answered_here w n Disconnect) as Hb;
        destruct (raises w n Disconnect) as [e|]
    end.
    + exists [mk_event LoopStop None; mk_event Disconnect (Some e)], (Raise e).
      split; [|split; reflexivity].
      exists None. split; [assumption|]. exists (Some e). repeat split; assumption.
    + exists [mk_event LoopStop None; mk_event Disconnect None], r2.
      split; [|split; reflexivity].
      exists None. split; [assumption|]. exists None. repeat split; assumption.
Qed.

(** Every run is the [try] section, then the handler when a
    [KeyboardInterrupt] was raised, then the teardown. *)
Lemma run_spec w :
  exists r evs hevs r2 tevs,
    try_events w init r evs
    /\ handler_events w r hevs r2
    /\ teardown_events w r2 tevs (outcome w)
    /\ trace w = evs ++ hevs ++ tevs.
Proof.
  unfold outcome, trace, run_simulation, try_except_finally.
  destruct (simulation w init) as [r s1] eqn:E1.
  apply simulation_spec in E1. destruct E1 as (evs & L1 & T).
  destruct (handler_spec w r s1) as (hevs & r2 & H & Hrun).
  destruct (match r with
            | Ok _ => (Ok tt, s1)
            | Raise e =>
                if is_KeyboardInterrupt e
                then external w (Print (String "010" "Stopping...")) s1
                else (Raise e, s1)
            end) as [r2' s2].
  destruct Hrun as [-> L2].
  destruct (teardown_spec w r2 s2) as (tevs & out & Td & Hrun).
  destruct (teardown w s2) as [r3 s3].
  destruct Hrun as [Hout L3].
  exists r, evs, hevs, r2, tevs.
  split; [exact T|]. split; [exact H|].
  split.
  { destruct r3; cbn [fst]; subst out; exact Td. }
  destruct r3; cbn [snd]; rewrite L3, L2, L1; cbn [init log];
    rewrite app_nil_r, !rev_app_distr, !rev_involutive, app_assoc; reflexivity.
Qed.

Lemma ended_returned r evs :
  (forall ev, In ev evs -> returned ev) -> ended r evs -> exists u, r = Ok u.
Proof.
  intros H En. destruct r as [u|e]; [exists u; reflexivity|].
  destruct En as (evs0 & c & -> & _).
  assert (K : returned (mk_event c (Some e))) by (apply H, in_or_app; right; left; reflexivity).
  discriminate K.
Qed.

Lemma ended_raised r evs ev e :
  ended r evs -> In ev evs -> ev_raised ev = Some e ->
  r = Raise e /\ exists evs0, evs = evs0 ++ [ev] /\ Forall returned evs0.
Proof.
  intros En Hin Hr. destruct r as [u|e'].
  - cbn [ended] in En. rewrite Forall_forall in En. specialize (En ev Hin).
    unfold returned in En. congruence.
  - destruct En as (evs0 & c & -> & H0).
    apply in_app_or in Hin. destruct Hin as [Hin|[<-|[]]].
    + rewrite Forall_forall in H0. specialize (H0 ev Hin). unfold returned in H0. congruence.
    + cbn [ev_raised] in Hr. injection Hr as ->. split; [reflexivity|].
      exists evs0. split; [reflexivity | exact H0].
Qed.

Lemma count_publish_payloads evs :
  count_calls is_publish evs = List.length (payloads evs).
Proof.
  unfold count_calls, payloads. induction evs as [|[c o] evs IH]; [reflexivity|].
  cbn [filter flat_map ev_call]. destruct c; cbn [is_publish app List.length]; rewrite <- ?IH; reflexivity.
Qed.

Lemma try_call_not_teardown evs :
  Forall try_call (map ev_call evs) -> count_calls is_teardown evs = 0.
Proof.
  intros H. apply count_calls_none. eapply Forall_impl; [|exact H].
  intros c. destruct c; simpl; tauto.
Qed.

Lemma handler_no_teardown w r hevs r2 :
  handler_events w r hevs r2 -> count_calls is_teardown hevs = 0.
Proof.
  destruct r as [u|[|n]]; cbn [handler_events].
  - intros [-> _]. reflexivity.
  - intros (o & _ & -> & _). reflexivity.
  - intros [-> _]. reflexivity.
Qed.

Lemma handler_payloads w r hevs r2 :
  handler_events w r hevs r2 -> payloads hevs = [] /\ count_calls is_connect hevs = 0.
Proof.
  destruct r as [u|[|n]]; cbn [handler_events].
  - intros [-> _]. split; reflexivity.
  - intros (o & _ & -> & _). split; reflexivity.
  - intros [-> _]. split; reflexivity.
Qed.

Lemma handler_answered w r hevs r2 :
  handler_events w r hevs r2 -> Forall (answered w) hevs.
Proof.
  destruct r as [u|[|n]]; cbn [handler_events].
  - intros [-> _]. constructor.
  - intros (o & Ha & -> & _). repeat constructor. exact Ha.
  - intros [-> _]. constructor.
Qed.

Lemma teardown_answered w r2 tevs out :
  teardown_events w r2 tevs out -> Forall (answered w) tevs.
Proof.
  intros (o1 & Ha & H). destruct o1 as [e|].
  - destruct H as [-> _]. repeat constructor. exact Ha.
  - destruct H as (o2 & Hb & -> & _). repeat constructor; assumption.
Qed.

Lemma teardown_payloads w r2 tevs out :
  teardown_events w r2 tevs out ->
  payloads tevs = [] /\ count_calls is_connect tevs = 0
  /\ Forall (fun ev => is_teardown (ev_call ev) = true) tevs.
Proof.
  intros (o1 & Ha & H). destruct o1 as [e|].
  - destruct H as [-> _]. repeat split; repeat constructor.
  - destruct H as (o2 & Hb & -> & _). repeat split; repeat constructor.
Qed.

(** When the calls of the teardown return, it is [loop_stop] then
    [disconnect], and what was pending comes out. *)
Lemma teardown_clean w r2 tevs out :
  teardown_returns w -> teardown_events w r2 tevs out ->
  tevs = [mk_event LoopStop None; mk_event Disconnect None] /\ out = r2.
Proof.
  intros Htd (o1 & [n1 Ha] & H). cbn [ev_raised ev_call] in Ha.
  rewrite (proj1 (Htd n1)) in Ha. subst o1.
  destruct H as (o2 & [n2 Hb] & -> & ->). cbn [ev_raised ev_call] in Hb.
  rewrite (proj2 (Htd n2)) in Hb. subst o2. split; reflexivity.
Qed.

Lemma answered_undisturbed w ev : undisturbed w -> answered w ev -> returned ev.
Proof. intros U [n H]. unfold returned. rewrite H. apply U. Qed.

Lemma undisturbed_all_returned w : undisturbed w -> all_returned (trace w).
Proof.
  intros U. destruct (run_spec w) as (r & evs & hevs & r2 & tevs & T & H & Td & ->).
  destruct T as (_ & _ & A & _).
  pose proof (handler_answered _ _ _ _ H) as A2.
  pose proof (teardown_answered _ _ _ _ Td) as A3.
  intros ev Hin. apply (answered_undisturbed w ev U).
  rewrite Forall_forall in A, A2, A3.
  apply in_app_or in Hin. destruct Hin as [Hin|Hin]; [apply A, Hin|].
  apply in_app_or in Hin. destruct Hin as [Hin|Hin]; [apply A2, Hin | apply A3, Hin].
Qed.

Lemma total_steps : Z.to_nat TOTAL_STEPS = 3600.
Proof. reflexivity. Qed.

(** C1: a run in which no call raised returns normally and made exactly
    TOTAL_STEPS = (DURATION_HOURS * 3600) // INTERVAL = 3600 publish calls. *)
Theorem publish_count w :
  all_returned (trace w) ->
  outcome w = Ok tt
  /\ count_calls is_publish (trace w) = Z.to_nat TOTAL_STEPS
  /\ TOTAL_STEPS = ((DURATION_HOURS * 3600) / INTERVAL)%Z
  /\ TOTAL_STEPS = 3600%Z.
Proof.
  intros Hall. destruct (run_spec w) as (r & evs & hevs & r2 & tevs & T & H & Td & Etr).
  rewrite Etr in *.
  destruct T as (En & _ & _ & _ & _ & m & _ & Hm & P).
  assert (Hevs : forall ev, In ev evs -> returned ev).
  { intros ev Hin. apply Hall, in_or_app. left. exact Hin. }
  destruct (ended_returned r evs Hevs En) as [[] ->].
  cbn [handler_events] in H. destruct H as [-> ->].
  destruct Td as (o1 & _ & Td).
  destruct o1 as [e|].
  { destruct Td as [-> _]. exfalso.
    assert (K : returned (mk_event LoopStop (Some e))).
    { apply Hall, in_or_app. right. left. reflexivity. }
    discriminate K. }
  destruct Td as (o2 & _ & -> & Hout).
  destruct o2 as [e|].
  { exfalso.
    assert (K : returned (mk_event Disconnect (Some e))).
    { apply Hall, in_or_app. right. right. left. reflexivity. }
    discriminate K. }
  split; [exact Hout|]. split; [|split; reflexivity].
  rewrite !count_calls_app. cbn [app].
  change (count_calls is_publish [mk_event LoopStop None; mk_event Disconnect None]) with 0.
  change (count_calls is_publish []) with 0.
  rewrite count_publish_payloads, P, length_map, length_seq, (Hm eq_refl). lia.
Qed.

(** C1 at work: the world in which every call returns. *)
Lemma publish_count_quiet :
  outcome quiet_world = Ok tt
  /\ count_calls is_publish (trace quiet_world) = Z.to_nat TOTAL_STEPS
  /\ TOTAL_STEPS = ((DURATION_HOURS * 3600) / INTERVAL)%Z
  /\ TOTAL_STEPS = 3600%Z.
Proof.
  apply (publish_count quiet_world).
  apply undisturbed_all_returned. intros n c. reflexivity.
Defined.

(** C2, as stated, fails: when the broker refuses the connection, the error
    raised by [connect] is not caught; it leaves [run_simulation] once the
    teardown has run. *)
Lemma connect_error_escapes :
  outcome refused_world = Raise (OtherError "ConnectionRefusedError")
  /\ trace refused_world
     = [ mk_event (Print connecting_line) None;
         mk_event (Connect BROKER_ADDRESS PORT 60)
                  (Some (OtherError "ConnectionRefusedError"));
         mk_event LoopStop None;
         mk_event Disconnect None ].
Proof. split; vm_compute; reflexivity. Qed.

(** The ways the [finally] section can go: [loop_stop] raises and nothing
    follows, or it returns and [disconnect] is called. *)
Lemma teardown_cases w r2 tevs out :
  teardown_events w r2 tevs out ->
  exists o1,
    match o1 with
    | Some e1 => tevs = [mk_event LoopStop (Some e1)] /\ out = Raise e1
    | None =>
        exists o2,
          tevs = [mk_event LoopStop None; mk_event Disconnect o2]
          /\ out = match o2 with None => r2 | Some e2 => Raise e2 end
    end
    /\ (teardown_returns w ->
        tevs = [mk_event LoopStop None; mk_event Disconnect None] /\ out = r2).
Proof.
  intros Td.
  pose proof (fun Htd => teardown_clean w r2 tevs out Htd Td) as Hclean.
  destruct Td as (o1 & _ & M). exists o1. split; [|exact Hclean].
  destruct o1 as [e1|]; [exact M|].
  destruct M as (o2 & _ & E & Ho). exists o2. split; assumption.
Qed.

(** C2, amended: [run_simulation] catches a [KeyboardInterrupt] and nothing
    else.  An exception of another kind raised by a call of the [try]
    section, by the connect step as much as by a publish in the loop, or by
    the handler's [print], is not caught: the only calls after it are
    [loop_stop] and, if [loop_stop] returned, [disconnect] (no retry, and
    after a failed connect the loop is not entered), and [run_simulation]
    raises: that exception when both calls of the teardown return, and
    otherwise the exception of the call of the teardown that raised.  The
    run returns normally when every exception raised by a call is a
    [KeyboardInterrupt] raised in the [try] section (none by the handler's
    [print], by [loop_stop] or by [disconnect]).  [connect] is called at
    most once. *)
Theorem only_interrupts_are_caught w :
  (forall ev e,
      In ev (trace w) -> ev_raised ev = Some e -> e <> KeyboardInterrupt ->
      is_teardown (ev_call ev) = false ->
      exists pre o1,
        (is_connect (ev_call ev) = true ->
         pre = [mk_event (Print connecting_line) None])
        /\ match o1 with
           | Some e1 =>
               trace w = pre ++ [ev; mk_event LoopStop (Some e1)]
               /\ outcome w = Raise e1
           | None =>
               exists o2,
                 trace w
                 = pre ++ [ev; mk_event LoopStop None; mk_event Disconnect o2]
                 /\ outcome w = Raise (match o2 with None => e | Some e2 => e2 end)
           end
        /\ (teardown_returns w ->
            trace w = pre ++ [ev; mk_event LoopStop None; mk_event Disconnect None]
            /\ outcome w = Raise e))
  /\ ((forall ev e, In ev (trace w) -> ev_raised ev = Some e ->
         e = KeyboardInterrupt
         /\ is_teardown (ev_call ev) = false
         /\ ev_call ev <> Print stopping_line) ->
      outcome w = Ok tt)
  /\ count_calls is_connect (trace w) <= 1.
Proof.
  destruct (run_spec w) as (r & evs & hevs & r2 & tevs & T & H & Td & Etr).
  destruct (teardown_cases _ _ _ _ Td) as (o1 & M & Hclean).
  destruct T as (En & _ & _ & Hc & Hshape & _).
  split; [|split].
  - intros ev e Hin Hr Hne Hk. rewrite Etr in Hin.
    assert (Hpre : exists pre,
               evs ++ hevs = pre ++ [ev] /\ r2 = Raise e
               /\ (is_connect (ev_call ev) = true ->
                   pre = [mk_event (Print connecting_line) None])).
    { apply in_app_or in Hin. destruct Hin as [Hin|Hin].
      - destruct (ended_raised r evs ev e En Hin Hr) as (-> & evs0 & E0 & _).
        destruct e as [|name]; [congruence|].
        cbn [handler_events] in H. destruct H as [-> ->].
        exists evs0. split; [rewrite app_nil_r; exact E0|]. split; [reflexivity|].
        intros Hconn.
        assert (Hnr : ~ returned ev) by (unfold returned; congruence).
        pose proof (Hshape ev Hin Hconn Hnr) as E1. rewrite E0 in E1.
        change [mk_event (Print connecting_line) None; ev]
          with ([mk_event (Print connecting_line) None] ++ [ev]) in E1.
        apply app_inj_tail in E1. exact (proj1 E1).
      - apply in_app_or in Hin. destruct Hin as [Hin|Hin].
        + destruct r as [u|[|name]]; cbn [handler_events] in H.
          * destruct H as [-> _]. destruct Hin.
          * destruct H as (o & _ & -> & ->).
            destruct Hin as [<-|[]]. cbn [ev_raised] in Hr. subst o.
            exists evs. split; [reflexivity|]. split; [reflexivity|].
            cbn [ev_call is_connect]. discriminate.
          * destruct H as [-> _]. destruct Hin.
        + exfalso. destruct o1 as [e1|].
          * destruct M as [-> _]. destruct Hin as [<-|[]]. discriminate Hk.
          * destruct M as (o2 & -> & _).
            destruct Hin as [<-|[<-|[]]]; discriminate Hk. }
    destruct Hpre as (pre & Epre & -> & Hconn).
    exists pre, o1. split; [exact Hconn|]. split.
    + destruct o1 as [e1|].
      * destruct M as [-> Ho]. split; [|exact Ho].
        rewrite Etr, app_assoc, Epre, <- app_assoc. reflexivity.
      * destruct M as (o2 & -> & Ho). exists o2. split.
        -- rewrite Etr, app_assoc, Epre, <- app_assoc. reflexivity.
        -- rewrite Ho. destruct o2; reflexivity.
    + intros Htd. destruct (Hclean Htd) as [-> Ho]. split; [|exact Ho].
      rewrite Etr, app_assoc, Epre, <- app_assoc. reflexivity.
  - intros Hki. rewrite Etr in Hki.
    assert (Hr2 : r2 = Ok tt).
    { destruct r as [[]|e].
      - cbn [handler_events] in H. exact (proj2 H).
      - destruct En as (evs0 & c & -> & _).
        assert (Ke : e = KeyboardInterrupt).
        { apply (Hki (mk_event c (Some e)) e); [|reflexivity].
          apply in_or_app. left. apply in_or_app. right. left. reflexivity. }
        subst e. cbn [handler_events] in H. destruct H as (o & _ & -> & ->).
        destruct o as [e'|]; [|reflexivity].
        exfalso.
        destruct (Hki (mk_event (Print stopping_line) (Some e')) e') as (_ & _ & K).
        + apply in_or_app. right. left. reflexivity.
        + reflexivity.
        + apply K. reflexivity. }
    destruct o1 as [e1|].
    + exfalso. destruct M as [-> _].
      destruct (Hki (mk_event LoopStop (Some e1)) e1) as (_ & K & _).
      * apply in_or_app. right. apply in_or_app. right. left. reflexivity.
      * reflexivity.
      * discriminate K.
    + destruct M as (o2 & -> & Ho). destruct o2 as [e2|].
      * exfalso.
        destruct (Hki (mk_event Disconnect (Some e2)) e2) as (_ & K & _).
        -- apply in_or_app. right. apply in_or_app. right. right. left. reflexivity.
        -- reflexivity.
        -- discriminate K.
      * rewrite Ho. exact Hr2.
  - rewrite Etr, !count_calls_app, (proj2 (handler_payloads _ _ _ _ H)).
    assert (Ht : count_calls is_connect tevs = 0).
    { destruct o1 as [e1|]; [destruct M as [-> _] | destruct M as (o2 & -> & _)];
        reflexivity. }
    rewrite Ht. lia.
Qed.

(** C2, amended, at work: the world whose broker refuses the connection.
    The error of [connect] leaves the function, and after it only the
    teardown runs. *)
Lemma only_interrupts_are_caught_refused :
  outcome refused_world = Raise (OtherError "ConnectionRefusedError")
  /\ trace refused_world
     = [mk_event (Print connecting_line) None]
       ++ [mk_event (Connect BROKER_ADDRESS PORT 60)
                    (Some (OtherError "ConnectionRefusedError"));
           mk_event LoopStop None; mk_event Disconnect None]
  /\ count_calls is_connect (trace refused_world) <= 1.
Proof.
  destruct (only_interrupts_are_caught refused_world) as (H1 & _ & H3).
  destruct (H1 (mk_event (Connect BROKER_ADDRESS PORT 60)
                         (Some (OtherError "ConnectionRefusedError")))
               (OtherError "ConnectionRefusedError"))
    as (pre & o1 & Hpre & _ & Htd).
  - vm_compute. right. left. reflexivity.
  - reflexivity.
  - discriminate.
  - reflexivity.
  - destruct (Htd ltac:(intros n; split; reflexivity)) as [Etr Ho].
    rewrite (Hpre eq_refl) in Etr. split; [exact Ho|]. split; [exact Etr | exact H3].
Defined.

(** C3, as stated, fails: the interrupt of the first pause is caught, then
    [loop_stop] raises in the [finally] block, and [disconnect] is not
    called at all. *)
Lemma teardown_cut_short :
  outcome stuck_stop_world = Raise (OtherError "RuntimeError")
  /\ count_calls is_loop_stop (trace stuck_stop_world) = 1
  /\ count_calls is_disconnect (trace stuck_stop_world) = 0.
Proof. vm_compute. repeat split. Qed.

(** C3, amended: whichever way the [try] section is left (the loop ran to
    its end, a [KeyboardInterrupt] was caught, another exception is on its
    way out), [loop_stop] is called exactly once, as the first call of the
    [finally] block and nowhere else.  If it returned, [disconnect] is
    called exactly once, directly after it, and the run ends there; if it
    raised, [disconnect] is not called and its exception leaves
    [run_simulation].  So the teardown, [loop_stop] followed by
    [disconnect], is executed exactly once whenever [loop_stop] returns, in
    particular when both calls of the teardown return. *)
Theorem teardown_runs_once w :
  exists pre o1,
    count_calls is_teardown pre = 0
    /\ count_calls is_loop_stop (trace w) = 1
    /\ match o1 with
       | None =>
           exists o2,
             trace w = pre ++ [mk_event LoopStop None; mk_event Disconnect o2]
             /\ count_calls is_disconnect (trace w) = 1
       | Some e =>
           trace w = pre ++ [mk_event LoopStop (Some e)]
           /\ count_calls is_disconnect (trace w) = 0
           /\ outcome w = Raise e
       end
    /\ (teardown_returns w ->
        trace w = pre ++ [mk_event LoopStop None; mk_event Disconnect None]
        /\ count_calls is_disconnect (trace w) = 1).
Proof.
  destruct (run_spec w) as (r & evs & hevs & r2 & tevs & T & H & Td & Etr).
  destruct (teardown_cases _ _ _ _ Td) as (o1 & M & Hclean).
  destruct T as (_ & Hc & _).
  assert (Hpre : count_calls is_teardown (evs ++ hevs) = 0).
  { rewrite count_calls_app, (try_call_not_teardown _ Hc),
      (handler_no_teardown _ _ _ _ H). reflexivity. }
  assert (Hsub : forall kind,
             (forall c, kind c = true -> is_teardown c = true) ->
             count_calls kind (evs ++ hevs) = 0).
  { intros kind Hk. unfold count_calls in *.
    apply length_zero_iff_nil in Hpre. apply length_zero_iff_nil.
    induction (evs ++ hevs) as [|ev l IH]; [reflexivity|].
    cbn [filter] in *. destruct (is_teardown (ev_call ev)) eqn:Et; [discriminate Hpre|].
    destruct (kind (ev_call ev)) eqn:Ek; [rewrite (Hk _ Ek) in Et; discriminate|].
    apply IH, Hpre. }
  assert (Hls : count_calls is_loop_stop (evs ++ hevs) = 0).
  { apply Hsub. intros c Hk. destruct c; try discriminate Hk; reflexivity. }
  assert (Hdc : count_calls is_disconnect (evs ++ hevs) = 0).
  { apply Hsub. intros c Hk. destruct c; try discriminate Hk; reflexivity. }
  exists (evs ++ hevs), o1. rewrite Etr, app_assoc.
  split; [exact Hpre|]. split; [|split].
  - rewrite count_calls_app, Hls.
    destruct o1 as [e1|]; [destruct M as [-> _] | destruct M as (o2 & -> & _)];
      reflexivity.
  - destruct o1 as [e1|].
    + destruct M as [-> Ho]. split; [reflexivity|]. split; [|exact Ho].
      rewrite count_calls_app, Hdc. reflexivity.
    + destruct M as (o2 & -> & _). exists o2. split; [reflexivity|].
      rewrite count_calls_app, Hdc. reflexivity.
  - intros Htd. destruct (Hclean Htd) as [-> _]. split; [reflexivity|].
    rewrite count_calls_app, Hdc. reflexivity.
Qed.

(** C3, amended, at work: the run interrupted in its first pause.  The
    interrupt is caught, and the teardown runs once, at the end. *)
Lemma teardown_runs_once_interrupted :
  exists pre,
    trace interrupted_world
    = pre ++ [mk_event LoopStop None; mk_event Disconnect None]
    /\ count_calls is_teardown pre = 0
    /\ count_calls is_loop_stop (trace interrupted_world) = 1
    /\ count_calls is_disconnect (trace interrupted_world) = 1.
Proof.
  destruct (teardown_runs_once interrupted_world) as (pre & o1 & Hp & Hl & _ & Htd).
  destruct (Htd ltac:(intros n; split; reflexivity)) as [E D].
  exists pre. split; [exact E|]. split; [exact Hp|]. split; [exact Hl | exact D].
Defined.

(** C7: every publish call of a run names the topic cargo/telemetry and
    asks for QoS 1. *)
Theorem publish_topic_and_qos w :
  Forall (fun ev => forall t p q, ev_call ev = Publish t p q ->
                                  t = "cargo/telemetry" /\ q = 1%Z)
         (trace w).
Proof.
  destruct (run_spec w) as (r & evs & hevs & r2 & tevs & T & H & Td & ->).
  destruct T as (_ & Hc & _).
  apply Forall_app. split; [|apply Forall_app; split].
  - rewrite Forall_map in Hc. eapply Forall_impl; [|exact Hc].
    intros ev Ht t p q E. cbv beta in Ht. rewrite E in Ht. exact Ht.
  - destruct r as [u|[|n]]; cbn [handler_events] in H.
    + destruct H as [-> _]. constructor.
    + destruct H as (o & _ & -> & _).
      apply Forall_cons; [intros t0 p0 q0 E; discriminate E | apply Forall_nil].
    + destruct H as [-> _]. constructor.
  - destruct (teardown_payloads _ _ _ _ Td) as (_ & _ & Ht).
    eapply Forall_impl; [|exact Ht].
    intros ev Hk t p q E. cbv beta in Hk. rewrite E in Hk. discriminate Hk.
Qed.

(** The payloads a run publishes are those of the readings taken in turn,
    as many as turns were begun. *)
Lemma run_payloads w :
  exists m,
    m <= Z.to_nat TOTAL_STEPS
    /\ payloads (trace w) = map (fun i => dumps (reading_at w i)) (seq 0 m)
    /\ (all_returned (trace w) -> m = Z.to_nat TOTAL_STEPS).
Proof.
  destruct (run_spec w) as (r & evs & hevs & r2 & tevs & T & H & Td & Etr).
  destruct T as (En & _ & _ & _ & _ & m & Hm & Hok & P).
  exists m. split; [exact Hm|]. split.
  - rewrite Etr, !payloads_app, (proj1 (handler_payloads _ _ _ _ H)).
    destruct (teardown_payloads _ _ _ _ Td) as (-> & _).
    rewrite !app_nil_r. exact P.
  - intros Hall. apply Hok.
    assert (Hevs : forall ev, In ev evs -> returned ev).
    { intros ev Hin. apply Hall. rewrite Etr. apply in_or_app. left. exact Hin. }
    destruct (ended_returned r evs Hevs En) as [[] ->]. reflexivity.
Qed.

(** C9: a reading is a function of the clock value and the four draws taken
    for it, and of nothing else: [generate_cargo_data] returns
    [reading_from w (ticks s) (draws s)]; the payloads published by a run
    are those of [reading_at w 0], [reading_at w 1], ...; two worlds that
    agree on the clock value and the draws of a turn give the same reading
    there; the battery is [battery_value] of its own draw.  So the battery
    can rise from one turn to the next: the run of [zigzag_world] publishes
    a first reading with battery 86.0 and a second one with battery 87.0. *)
Theorem readings_are_independent :
  (forall w s,
      generate_cargo_data w s = (Ok (reading_from w (ticks s) (draws s)), advance s))
  /\ (forall w, exists m,
         m <= Z.to_nat TOTAL_STEPS
         /\ payloads (trace w) = map (fun i => dumps (reading_at w i)) (seq 0 m)
         /\ (all_returned (trace w) -> m = Z.to_nat TOTAL_STEPS))
  /\ (forall w w' i,
         utcnow w i = utcnow w' i ->
         (forall k, k < 4 -> entropy w (4 * i + k) = entropy w' (4 * i + k)) ->
         reading_at w i = reading_at w' i)
  /\ (forall now k1 k2 k3 k4,
         float_field "battery" (reading_of now k1 k2 k3 k4) = Some (battery_value k4))
  /\ (exists rest,
         payloads (trace zigzag_world)
         = dumps (reading_at zigzag_world 0) :: dumps (reading_at zigzag_world 1) :: rest
         /\ float_field "battery" (reading_at zigzag_world 0) = Some (86 # 1)%Q
         /\ float_field "battery" (reading_at zigzag_world 1) = Some (87 # 1)%Q
         /\ (86 # 1 < 87 # 1)%Q).
Proof.
  split; [|split; [|split; [|split]]].
  - intros w s. apply generate_cargo_data_eq.
  - apply run_payloads.
  - intros w w' i Hc Hd. unfold reading_at, reading_from.
    assert (E0 : entropy w (4 * i) = entropy w' (4 * i)).
    { replace (4 * i) with (4 * i + 0) by lia. apply Hd. lia. }
    assert (E1 : entropy w (S (4 * i)) = entropy w' (S (4 * i))).
    { replace (S (4 * i)) with (4 * i + 1) by lia. apply Hd. lia. }
    assert (E2 : entropy w (S (S (4 * i))) = entropy w' (S (S (4 * i)))).
    { replace (S (S (4 * i))) with (4 * i + 2) by lia. apply Hd. lia. }
    assert (E3 : entropy w (S (S (S (4 * i)))) = entropy w' (S (S (S (4 * i))))).
    { replace (S (S (S (4 * i)))) with (4 * i + 3) by lia. apply Hd. lia. }
    rewrite Hc, E0, E1, E2, E3. reflexivity.
  - intros. reflexivity.
  - destruct (run_payloads zigzag_world) as (m & _ & P & Hall).
    rewrite Hall in P by (apply undisturbed_all_returned; intros n c; reflexivity).
    rewrite total_steps in P.
    change 3600 with (S (S 3598)) in P.
    rewrite <- cons_seq, <- cons_seq in P. cbn [map] in P.
    eexists. split; [exact P|].
    split; [vm_compute; reflexivity|]. split; [vm_compute; reflexivity|]. reflexivity.
Qed.

(** The [finally] section is entered exactly once in every run, also when
    one of its own calls raises: [loop_stop] is called once, and
    [disconnect] at most once. *)
Lemma finally_entered_once w :
  count_calls is_loop_stop (trace w) = 1
  /\ count_calls is_disconnect (trace w) <= 1.
Proof.
  destruct (run_spec w) as (r & evs & hevs & r2 & tevs & T & H & Td & Etr).
  destruct T as (_ & Hc & _).
  pose proof (try_call_not_teardown _ Hc) as H1.
  pose proof (handler_no_teardown _ _ _ _ H) as H2.
  assert (Hsub : forall kind l,
             (forall c, kind c = true -> is_teardown c = true) ->
             count_calls is_teardown l = 0 -> count_calls kind l = 0).
  { intros kind l Hk. unfold count_calls.
    induction l as [|ev l IH]; intros Hl; [reflexivity|].
    cbn [filter] in *. destruct (is_teardown (ev_call ev)) eqn:Et; [discriminate Hl|].
    destruct (kind (ev_call ev)) eqn:Ek; [rewrite (Hk _ Ek) in Et; discriminate|].
    apply IH, Hl. }
  assert (K1 : forall c, is_loop_stop c = true -> is_teardown c = true).
  { intros c Hk. destruct c; try discriminate Hk; reflexivity. }
  assert (K2 : forall c, is_disconnect c = true -> is_teardown c = true).
  { intros c Hk. destruct c; try discriminate Hk; reflexivity. }
  rewrite Etr, !count_calls_app.
  rewrite (Hsub _ _ K1 H1), (Hsub _ _ K1 H2), (Hsub _ _ K2 H1), (Hsub _ _ K2 H2).
  destruct Td as (o1 & _ & Td). destruct o1 as [e|].
  - destruct Td as [-> _]. split; [reflexivity | cbv; lia].
  - destruct Td as (o2 & _ & -> & _). split; [reflexivity | cbv; lia].
Qed.

(** ** Runs worked out *)

(** A failed publish: the error leaves [run_simulation] after the teardown,
    and the loop does not go on. *)
Example failed_publish_run :
  outcome publish_fails_world = Raise (OtherError "ValueError")
  /\ map (fun ev => is_publish (ev_call ev)) (trace publish_fails_world)
     = [false; false; false; true; false; false]
  /\ map ev_raised (trace publish_fails_world)
     = [None; None; None; Some (OtherError "ValueError"); None; None]
  /\ skipn 4 (trace publish_fails_world)
     = [mk_event LoopStop None; mk_event Disconnect None].
Proof. repeat split; vm_compute; reflexivity. Qed.

(** Ctrl-C during the first pause: the interrupt is caught, the teardown
    runs and [run_simulation] returns. *)
Example interrupted_run :
  outcome interrupted_world = Ok tt
  /\ count_calls is_publish (trace interrupted_world) = 1
  /\ skipn 5 (trace interrupted_world)
     = [ mk_event (Sleep 5) (Some KeyboardInterrupt);
         mk_event (Print stopping_line) None;
         mk_event LoopStop None;
         mk_event Disconnect None ].
Proof. repeat split; vm_compute; reflexivity. Qed.

(** The texts Python prints for some of the floats of the script. *)
Example float_repr_samples :
  float_repr (float_lit 13521 10000) = "1.3521"
  /\ float_repr (float_lit 1038198 10000) = "103.8198"
  /\ float_repr (float_of_int 87) = "87.0"
  /\ float_repr (fsub (float_lit 13521 10000) (float_lit 1 1000)) = "1.3511000000000002"
  /\ float_repr (lat_value 0) = "1.3511"
  /\ float_repr (battery_value (2 ^ 52)) = "86.0".
Proof. repeat split; vm_compute; reflexivity. Qed.

Example isoformat_samples :
  isoformat noon = "2026-11-03T12:00:00"
  /\ isoformat (mk_datetime 2026 11 3 9 5 7 1234) = "2026-11-03T09:05:07.001234".
Proof. split; vm_compute; reflexivity. Qed.

(* ================================================================== *)
(** * Further properties of the script *)

(** ** The order of the calls *)

Lemma py_str_float t : py_str (PFloat t) = float_repr t.
Proof. reflexivity. Qed.

Lemma progress_line_eq i t :
  ("[" ++ str_int (Z.of_nat i + 1) ++ "/" ++ str_int TOTAL_STEPS
       ++ "] Published to HiveMQ: " ++ float_repr t
       ++ String "194"%char (String "176"%char "C"))%string
  = progress_line i t.
Proof. reflexivity. Qed.

Lemma loop_body_calls w i s r s' :
  loop_body w i s = (r, s') ->
  exists evs p,
    log s' = rev evs ++ log s
    /\ ticks s' = S (ticks s)
    /\ draws s' = 4 + draws s
    /\ ended r evs
    /\ Forall (answered w) evs
    /\ 1 <= p <= 3
    /\ map ev_call evs = firstn p (turn_calls w i (ticks s) (draws s))
    /\ (forall u, r = Ok u -> p = 3).
Proof.
  intros E. unfold loop_body in E.
  rewrite bind_eq, generate_cargo_data_eq in E.
  fold (reading_from w (ticks s) (draws s)) in E. cbv beta iota in E.
  run_call E.
  { split_run E. eexists [_], 1.
    split; [reflexivity|]. split; [reflexivity|]. split; [reflexivity|].
    split; [ended_raise (@nil event)|]. split; [repeat constructor; assumption|].
    split; [lia|]. split; [reflexivity | discriminate]. }
  rewrite bind_eq, subscript_temperature in E. cbv beta iota in E.
  rewrite py_str_float, progress_line_eq in E.
  run_call E.
  { split_run E. eexists [_; _], 2.
    split; [reflexivity|]. split; [reflexivity|]. split; [reflexivity|].
    split; [eexists [_]; eexists; split; [reflexivity | repeat constructor]|].
    split; [repeat constructor; assumption|].
    split; [lia|]. split; [reflexivity | discriminate]. }
  rewrite external_run in E.
  match type of E with
  | context [mk_event ?c (raises ?w ?n ?c)] =>
      pose proof (answered_here w n c) as Ho1; destruct (raises w n c) as [o1|]
  end.
  { split_run E. eexists [_; _; _], 3.
    split; [reflexivity|]. split; [reflexivity|]. split; [reflexivity|].
    split; [eexists [_; _]; eexists; split; [reflexivity | repeat constructor]|].
    split; [repeat constructor; assumption|].
    split; [lia|]. split; [reflexivity | reflexivity]. }
  split_run E. eexists [_; _; _], 3.
  split; [reflexivity|]. split; [reflexivity|]. split; [reflexivity|].
  split; [repeat constructor|]. split; [repeat constructor; assumption|].
  split; [lia|]. split; reflexivity.
Qed.

Lemma flat_map_map {A B C} (f : B -> list C) (g : A -> B) l :
  flat_map f (map g l) = flat_map (fun x => f (g x)) l.
Proof. induction l as [|x l IH]; [reflexivity|]. cbn [map flat_map]. rewrite IH. reflexivity. Qed.

Lemma turn_calls_zero w a t d :
  turn_calls w (a + 0) (t + 0) (d + 4 * 0) = turn_calls w a t d.
Proof.
  replace (a + 0) with a by lia. replace (t + 0) with t by lia.
  replace (d + 4 * 0) with d by lia. reflexivity.
Qed.

Lemma loop_calls_succ w a t d q :
  loop_calls w a t d (S q)
  = turn_calls w a t d ++ loop_calls w (S a) (S t) (4 + d) q.
Proof.
  unfold loop_calls. change (seq 0 (S q)) with (0 :: seq 1 q).
  cbn [flat_map]. rewrite turn_calls_zero.
  apply (f_equal (app _)).
  rewrite <- seq_shift, flat_map_map. apply flat_map_ext. intros j.
  replace (a + S j) with (S a + j) by lia.
  replace (t + S j) with (S t + j) by lia.
  replace (d + 4 * S j) with (4 + d + 4 * j) by lia. reflexivity.
Qed.

Lemma published_app cs1 cs2 : published (cs1 ++ cs2) = published cs1 ++ published cs2.
Proof. apply flat_map_app. Qed.

Lemma published_turn_prefix w i t d p :
  1 <= p <= 3 -> List.length (published (firstn p (turn_calls w i t d))) = 1.
Proof.
  intros Hp. assert (H : p = 1 \/ p = 2 \/ p = 3) by lia.
  destruct H as [->|[->| ->]]; reflexivity.
Qed.

Lemma loop_canonical w n : forall a s r s',
  for_each (seq a n) (loop_body w) s = (r, s') ->
  exists evs q p,
    log s' = rev evs ++ log s
    /\ ended r evs
    /\ Forall (answered w) evs
    /\ q <= n /\ p <= 2 /\ (q = n -> p = 0)
    /\ (forall u, r = Ok u -> q = n)
    /\ map ev_call evs
       = loop_calls w a (ticks s) (draws s) q
         ++ firstn p (turn_calls w (a + q) (ticks s + q) (draws s + 4 * q))
    /\ ticks s' = ticks s + List.length (published (map ev_call evs))
    /\ draws s' = draws s + 4 * List.length (published (map ev_call evs)).
Proof.
  induction n as [|n IH]; intros a s r s' E.
  - cbn [seq for_each] in E. unfold ret in E. split_run E.
    exists [], 0, 0. split; [reflexivity|]. split; [constructor|]. split; [constructor|].
    split; [lia|]. split; [lia|]. split; [reflexivity|]. split; [reflexivity|].
    split; [reflexivity|]. cbn [map published flat_map List.length]. split; lia.
  - cbn [seq for_each] in E. rewrite bind_eq in E.
    destruct (loop_body w a s) as [r1 s1] eqn:E1.
    apply loop_body_calls in E1.
    destruct E1 as (evs1 & p1 & L1 & T1 & D1 & En1 & A1 & Hp1 & C1 & Hok1).
    assert (P1 : List.length (published (map ev_call evs1)) = 1).
    { rewrite C1. apply published_turn_prefix, Hp1. }
    destruct r1 as [u|e].
    + pose proof (Hok1 u eq_refl) as ->. cbn [firstn] in C1.
      apply IH in E.
      destruct E as (evs2 & q & p & L2 & En2 & A2 & Hq & Hp & Hqp & Hok & C2 & Tk & Dr).
      exists (evs1 ++ evs2), (S q), p.
      split. { rewrite L2, L1, rev_app_distr, app_assoc. reflexivity. }
      split. { apply ended_app; assumption. }
      split. { apply Forall_app. split; assumption. }
      split; [lia|]. split; [exact Hp|]. split; [intros K; apply Hqp; lia|].
      split. { intros u' K. rewrite (Hok u' K). reflexivity. }
      split.
      { rewrite map_app, C1, C2, loop_calls_succ, T1, D1, <- app_assoc.
        replace (a + S q) with (S a + q) by lia.
        replace (ticks s + S q) with (S (ticks s) + q) by lia.
        replace (draws s + 4 * S q) with (4 + draws s + 4 * q) by lia.
        reflexivity. }
      rewrite map_app, published_app, length_app, P1. split; lia.
    + split_run E.
      assert (Hcases : p1 = 1 \/ p1 = 2 \/ p1 = 3) by lia.
      destruct Hcases as [->|[->| ->]].
      * exists evs1, 0, 1.
        split; [exact L1|]. split; [exact En1|]. split; [exact A1|].
        split; [lia|]. split; [lia|]. split; [discriminate|]. split; [discriminate|].
        split; [|rewrite P1; split; lia].
        rewrite C1. unfold loop_calls. cbn [seq flat_map app]. rewrite turn_calls_zero.
        reflexivity.
      * exists evs1, 0, 2.
        split; [exact L1|]. split; [exact En1|]. split; [exact A1|].
        split; [lia|]. split; [lia|]. split; [discriminate|]. split; [discriminate|].
        split; [|rewrite P1; split; lia].
        rewrite C1. unfold loop_calls. cbn [seq flat_map app]. rewrite turn_calls_zero.
        reflexivity.
      * exists evs1, 1, 0.
        split; [exact L1|]. split; [exact En1|]. split; [exact A1|].
        split; [lia|]. split; [lia|]. split; [reflexivity|]. split; [discriminate|].
        split; [|rewrite P1; split; lia].
        rewrite C1, loop_calls_succ. unfold loop_calls. cbn [seq flat_map firstn].
        rewrite !app_nil_r. reflexivity.
Qed.

Lemma simulation_calls w s r s' :
  simulation w s = (r, s') -> ticks s = 0 -> draws s = 0 ->
  exists evs,
    log s' = rev evs ++ log s
    /\ ended r evs
    /\ Forall (answered w) evs
    /\ try_calls w r (map ev_call evs)
    /\ ticks s' = List.length (published (map ev_call evs))
    /\ draws s' = 4 * List.length (published (map ev_call evs)).
Proof.
  intros E Ht Hd. unfold simulation in E. fold connecting_line in E.
  run_call E.
  { split_run E. eexists [_]. split; [reflexivity|].
    split; [ended_raise (@nil event)|]. split; [repeat constructor; assumption|].
    split; [|split; cbn [ticks draws]; rewrite ?Ht, ?Hd; reflexivity].
    left. exists 1. split; [lia|]. split; [reflexivity | eexists; reflexivity]. }
  run_call E.
  { split_run E. eexists [_; _]. split; [reflexivity|].
    split; [eexists [_]; eexists; split; [reflexivity | repeat constructor]|].
    split; [repeat constructor; assumption|].
    split; [|split; cbn [ticks draws]; rewrite ?Ht, ?Hd; reflexivity].
    left. exists 2. split; [lia|]. split; [reflexivity | eexists; reflexivity]. }
  run_call E.
  { split_run E. eexists [_; _; _]. split; [reflexivity|].
    split; [eexists [_; _]; eexists; split; [reflexivity | repeat constructor]|].
    split; [repeat constructor; assumption|].
    split; [|split; cbn [ticks draws]; rewrite ?Ht, ?Hd; reflexivity].
    left. exists 3. split; [lia|]. split; [reflexivity | eexists; reflexivity]. }
  unfold range in E. apply loop_canonical in E.
  destruct E as (evs & q & p & L & En & A & Hq & Hp & Hqp & Hok & C & Tk & Dr).
  cbn [calls ticks draws log] in L, C, Tk, Dr. rewrite Ht, Hd in *.
  eexists ([_; _; _] ++ evs). split.
  { rewrite L, rev_app_distr, <- app_assoc. reflexivity. }
  split. { apply ended_app; [repeat constructor | exact En]. }
  split. { apply Forall_app. split; [repeat constructor; assumption | exact A]. }
  rewrite map_app. cbn [map ev_call].
  split.
  { right. exists q, p. split; [exact Hq|]. split; [exact Hp|]. split; [exact Hqp|].
    split; [exact Hok|]. rewrite C. reflexivity. }
  unfold published. rewrite flat_map_app. cbn [flat_map app].
  fold (published (map ev_call evs)). split; assumption.
Qed.

(** Every run is the [try] section, whose calls follow the set order,
    then the handler, then the teardown. *)
Lemma run_calls w :
  exists r evs hevs r2 tevs,
    trace w = evs ++ hevs ++ tevs
    /\ ended r evs
    /\ Forall (answered w) evs
    /\ try_calls w r (map ev_call evs)
    /\ handler_events w r hevs r2
    /\ teardown_events w r2 tevs (outcome w)
    /\ ticks (final_state w) = List.length (published (map ev_call evs))
    /\ draws (final_state w) = 4 * List.length (published (map ev_call evs)).
Proof.
  unfold outcome, trace, final_state, run_simulation, try_except_finally.
  destruct (simulation w init) as [r s1] eqn:E1.
  apply simulation_calls in E1; [|reflexivity|reflexivity].
  destruct E1 as (evs & L1 & En & A & C & Tk & Dr).
  assert (Hh : exists hevs r2 s2,
             match r with
             | Ok _ => (Ok tt, s1)
             | Raise e =>
                 if is_KeyboardInterrupt e
                 then external w (Print (String "010" "Stopping...")) s1
                 else (Raise e, s1)
             end = (r2, s2)
             /\ handler_events w r hevs r2
             /\ log s2 = rev hevs ++ log s1
             /\ ticks s2 = ticks s1 /\ draws s2 = draws s1).
  { destruct r as [[]|[|name]].
    - exists [], (Ok tt), s1. repeat split.
    - cbn [is_KeyboardInterrupt]. rewrite external_run. fold stopping_line.
      pose proof (answered_here w (calls s1) (Print stopping_line)) as Ha.
      destruct (raises w (calls s1) (Print stopping_line)) as [e|];
        eexists [_], _, _; (split; [reflexivity|]);
        (split; [eexists; split; [exact Ha | split; reflexivity]|]);
        repeat split.
    - exists [], (Raise (OtherError name)), s1. repeat split. }
  destruct Hh as (hevs & r2 & s2 & -> & H & L2 & Tk2 & Dr2).
  assert (Ht : exists tevs r3 s3,
             teardown w s2 = (r3, s3)
             /\ teardown_events w r2 tevs
                  (match r3 with Ok _ => r2 | Raise e => Raise e end)
             /\ log s3 = rev tevs ++ log s2
             /\ ticks s3 = ticks s2 /\ draws s3 = draws s2).
  { unfold teardown. rewrite bind_eq, external_run.
    pose proof (answered_here w (calls s2) LoopStop) as Ha.
    destruct (raises w (calls s2) LoopStop) as [e|].
    - eexists [_], _, _. split; [reflexivity|].
      split; [exists (Some e); split; [exact Ha | split; reflexivity]|]. repeat split.
    - cbv beta iota. rewrite external_run.
      match goal with
      | |- context [mk_event Disconnect (raises w ?n Disconnect)] =>
          pose proof (answered_here w n Disconnect) as Hb;
          destruct (raises w n Disconnect) as [e|]
      end.
      + eexists [_; _], _, _. split; [reflexivity|].
        split; [|repeat split].
        exists None. split; [exact Ha|]. exists (Some e). repeat split; exact Hb.
      + eexists [_; _], _, _. split; [reflexivity|].
        split; [|repeat split].
        exists None. split; [exact Ha|]. exists None. repeat split; exact Hb. }
  destruct Ht as (tevs & r3 & s3 & -> & Td & L3 & Tk3 & Dr3).
  exists r, evs, hevs, r2, tevs.
  split.
  { destruct r3; cbn [snd]; rewrite L3, L2, L1; cbn [init log];
      rewrite app_nil_r, !rev_app_distr, !rev_involutive, app_assoc; reflexivity. }
  split; [exact En|]. split; [exact A|]. split; [exact C|]. split; [exact H|].
  split. { destruct r3; cbn [fst]; exact Td. }
  destruct r3; cbn [snd]; rewrite Tk3, Dr3, Tk2, Dr2; split; assumption.
Qed.

(** *** What a list of calls publishes, prints and sleeps *)

Lemma payloads_published tr : payloads tr = published (map ev_call tr).
Proof. unfold payloads, published. rewrite flat_map_map. reflexivity. Qed.

Lemma lines_printed_calls tr : lines_printed tr = printed (map ev_call tr).
Proof. unfold lines_printed, printed. rewrite flat_map_map. reflexivity. Qed.

Lemma total_sleep_calls tr : total_sleep tr = slept (map ev_call tr).
Proof.
  unfold total_sleep, slept. induction tr as [|ev tr IH]; [reflexivity|].
  cbn [map fold_right]. rewrite IH. reflexivity.
Qed.

Lemma printed_app cs1 cs2 : printed (cs1 ++ cs2) = printed cs1 ++ printed cs2.
Proof. apply flat_map_app. Qed.

Lemma slept_app cs1 cs2 : slept (cs1 ++ cs2) = (slept cs1 + slept cs2)%Z.
Proof.
  unfold slept. induction cs1 as [|c cs1 IH]; [reflexivity|].
  cbn [app fold_right]. rewrite IH. destruct c; lia.
Qed.

Lemma flat_map_flat_map {A B C} (f : B -> list C) (g : A -> list B) l :
  flat_map f (flat_map g l) = flat_map (fun x => flat_map f (g x)) l.
Proof.
  induction l as [|x l IH]; [reflexivity|].
  cbn [flat_map]. rewrite flat_map_app, IH. reflexivity.
Qed.

Lemma flat_map_singleton {A B} (h : A -> B) l :
  flat_map (fun x => [h x]) l = map h l.
Proof. induction l as [|x l IH]; [reflexivity|]. cbn [flat_map map app]. rewrite IH. reflexivity. Qed.

Lemma published_loop w a t d q :
  published (loop_calls w a t d q)
  = map (fun j => dumps (reading_from w (t + j) (d + 4 * j))) (seq 0 q).
Proof.
  unfold published, loop_calls. rewrite flat_map_flat_map.
  rewrite <- flat_map_singleton. apply flat_map_ext. intros j. reflexivity.
Qed.

Lemma printed_loop w a t d q :
  printed (loop_calls w a t d q)
  = map (fun j => progress_line (a + j)
                    (temperature_value (entropy w (S (S (d + 4 * j))))))
        (seq 0 q).
Proof.
  unfold printed, loop_calls. rewrite flat_map_flat_map.
  rewrite <- flat_map_singleton. apply flat_map_ext. intros j. reflexivity.
Qed.

Lemma slept_loop w q : forall a t d,
  slept (loop_calls w a t d q) = (INTERVAL * Z.of_nat q)%Z.
Proof.
  induction q as [|q IH]; intros a t d; [reflexivity|].
  rewrite loop_calls_succ, slept_app, IH.
  change (slept (turn_calls w a t d)) with (INTERVAL + 0)%Z. lia.
Qed.

Lemma length_loop w q : forall a t d, List.length (loop_calls w a t d q) = 3 * q.
Proof.
  induction q as [|q IH]; intros a t d; [reflexivity|].
  rewrite loop_calls_succ, length_app, IH.
  change (List.length (turn_calls w a t d)) with 3. lia.
Qed.

Lemma loop_calls_app w q m : forall a t d,
  loop_calls w a t d (q + m)
  = loop_calls w a t d q ++ loop_calls w (a + q) (t + q) (d + 4 * q) m.
Proof.
  induction q as [|q IH]; intros a t d.
  - cbn [Nat.add]. unfold loop_calls at 2. cbn [seq flat_map app].
    replace (a + 0) with a by lia. replace (t + 0) with t by lia.
    replace (d + 4 * 0) with d by lia. reflexivity.
  - cbn [Nat.add]. rewrite !loop_calls_succ, IH, <- app_assoc.
    replace (S a + q) with (a + S q) by lia.
    replace (S t + q) with (t + S q) by lia.
    replace (4 + d + 4 * q) with (d + 4 * S q) by lia. reflexivity.
Qed.

Lemma all_returned_events l :
  Forall returned l -> l = map (fun c => mk_event c None) (map ev_call l).
Proof.
  induction 1 as [|[c o] l H _ IH]; [reflexivity|].
  cbn [map ev_call]. unfold returned in H. cbn [ev_raised] in H. subst o.
  rewrite <- IH. reflexivity.
Qed.

(** X1: a run in which no call raised is the connecting line, [connect],
    [loop_start], then 3600 turns of publish, progress line and a pause of
    five seconds, then [loop_stop] and [disconnect]: 10805 calls, in this
    order, with the payload and the line of each turn. *)
Theorem undisturbed_run_calls w :
  all_returned (trace w) ->
  trace w = map (fun c => mk_event c None) (ideal_calls w ++ [LoopStop; Disconnect])
  /\ List.length (trace w) = 3 + 3 * Z.to_nat TOTAL_STEPS + 2.
Proof.
  intros Hall.
  destruct (run_calls w) as (r & evs & hevs & r2 & tevs & Etr & En & _ & C & H & Td & _).
  assert (Hevs : forall ev, In ev evs -> returned ev).
  { intros ev Hin. apply Hall. rewrite Etr. apply in_or_app. left. exact Hin. }
  destruct (ended_returned r evs Hevs En) as [[] ->].
  cbn [handler_events] in H. destruct H as [-> _].
  destruct C as [(j & _ & _ & e & K)|(q & p & _ & _ & Hqp & Hok & C)]; [discriminate K|].
  pose proof (Hok tt eq_refl) as Hq. pose proof (Hqp Hq) as ->. subst q.
  cbn [firstn] in C. rewrite app_nil_r in C. fold (ideal_calls w) in C.
  destruct Td as (o1 & _ & Td).
  assert (Hcalls : map ev_call (trace w) = ideal_calls w ++ [LoopStop; Disconnect]).
  { rewrite Etr, !map_app, C. cbn [map app]. destruct o1 as [e|].
    - destruct Td as [-> _]. exfalso.
      assert (K : returned (mk_event LoopStop (Some e))).
      { apply Hall. rewrite Etr. apply in_or_app. right. left. reflexivity. }
      discriminate K.
    - destruct Td as (o2 & _ & -> & _). reflexivity. }
  assert (Hform : trace w = map (fun c => mk_event c None) (map ev_call (trace w))).
  { apply all_returned_events, Forall_forall, Hall. }
  split.
  - rewrite Hform, Hcalls. reflexivity.
  - rewrite <- (length_map ev_call), Hcalls, length_app. unfold ideal_calls.
    rewrite length_app, length_loop. cbn [setup_calls List.length]. lia.
Qed.

(** The undisturbed run at work. *)
Lemma undisturbed_run_calls_quiet :
  trace quiet_world
  = map (fun c => mk_event c None) (ideal_calls quiet_world ++ [LoopStop; Disconnect])
  /\ List.length (trace quiet_world) = 3 + 3 * Z.to_nat TOTAL_STEPS + 2.
Proof.
  apply (undisturbed_run_calls quiet_world).
  apply undisturbed_all_returned. intros n c. reflexivity.
Defined.

Lemma prefix_of_setup j : prefix_of (firstn j setup_calls) setup_calls.
Proof. exists (skipn j setup_calls). symmetry. apply firstn_skipn. Qed.

Lemma try_calls_prefix w r cs :
  try_calls w r cs -> prefix_of cs (ideal_calls w) /\ cs <> [].
Proof.
  intros [(j & Hj & -> & _)|(q & p & Hq & Hp & Hqp & _ & ->)].
  - split.
    + destruct (prefix_of_setup j) as [tail E]. unfold ideal_calls.
      exists (tail ++ loop_calls w 0 0 0 (Z.to_nat TOTAL_STEPS)).
      rewrite app_assoc, <- E. reflexivity.
    + assert (H : j = 1 \/ j = 2 \/ j = 3) by lia.
      destruct H as [->|[->| ->]]; discriminate.
  - split; [|discriminate].
    unfold ideal_calls.
    replace (Z.to_nat TOTAL_STEPS) with (q + (Z.to_nat TOTAL_STEPS - q)) at 1 by lia.
    rewrite loop_calls_app. cbn [Nat.add].
    destruct p as [|p].
    + exists (loop_calls w q q (4 * q) (Z.to_nat TOTAL_STEPS - q)).
      cbn [firstn]. rewrite app_nil_r, <- app_assoc. reflexivity.
    + assert (Hlt : q <> Z.to_nat TOTAL_STEPS) by (intros K; specialize (Hqp K); discriminate).
      destruct (Z.to_nat TOTAL_STEPS - q) as [|m] eqn:Em; [lia|].
      rewrite loop_calls_succ.
      exists (skipn (S p) (turn_calls w q q (4 * q))
              ++ loop_calls w (S q) (S q) (4 + 4 * q) m).
      rewrite <- !app_assoc.
      rewrite (app_assoc (firstn (S p) _)), firstn_skipn. reflexivity.
Qed.

(** X2: whatever raises, a run is a non-empty beginning of the undisturbed
    run in which every call but the last returned (nothing of the [try]
    section runs after its first exception), followed by [loop_stop] alone,
    by [loop_stop] and [disconnect], or by the handler's line and one of
    these two.  When the last call of the beginning raised
    [KeyboardInterrupt] the handler's line comes next; when it raised
    anything else [loop_stop] comes next. *)
Theorem calls_follow_the_script w :
  exists evs0 last tail,
    trace w = evs0 ++ last :: tail
    /\ prefix_of (map ev_call (evs0 ++ [last])) (ideal_calls w)
    /\ Forall returned evs0
    /\ (map ev_call tail = [LoopStop] \/ map ev_call tail = [LoopStop; Disconnect]
        \/ map ev_call tail = [Print stopping_line; LoopStop]
        \/ map ev_call tail = [Print stopping_line; LoopStop; Disconnect])
    /\ (ev_raised last = Some KeyboardInterrupt ->
        exists o, hd_error tail = Some (mk_event (Print stopping_line) o))
    /\ (forall e, ev_raised last = Some e -> e <> KeyboardInterrupt ->
        exists o, hd_error tail = Some (mk_event LoopStop o)).
Proof.
  destruct (run_calls w) as (r & evs & hevs & r2 & tevs & Etr & En & _ & C & H & Td & _).
  destruct (try_calls_prefix _ _ _ C) as [Hp Hne].
  assert (Hevs : evs <> []) by (intros K; apply Hne; rewrite K; reflexivity).
  destruct (exists_last Hevs) as (evs0 & last & E). subst evs.
  assert (Hin : In last (evs0 ++ [last])) by (apply in_or_app; right; left; reflexivity).
  assert (F0 : Forall returned evs0).
  { destruct r as [u|e]; cbn [ended] in En.
    - apply Forall_app in En. exact (proj1 En).
    - destruct En as (evs1 & c & E & F). apply app_inj_tail in E.
      destruct E as [-> _]. exact F. }
  destruct Td as (o1 & _ & Td).
  assert (Ht : tevs = [mk_event LoopStop o1]
               \/ exists o2, tevs = [mk_event LoopStop o1; mk_event Disconnect o2]).
  { destruct o1 as [e|].
    - left. exact (proj1 Td).
    - right. destruct Td as (o2 & _ & -> & _). exists o2. reflexivity. }
  exists evs0, last, (hevs ++ tevs).
  split; [rewrite Etr, <- app_assoc; reflexivity|].
  split; [exact Hp|]. split; [exact F0|].
  split; [|split].
  - destruct r as [u|[|n]]; cbn [handler_events] in H.
    + destruct H as [-> _]. destruct Ht as [->|[o2 ->]]; cbn [app map ev_call]; tauto.
    + destruct H as (o & _ & -> & _).
      destruct Ht as [->|[o2 ->]]; cbn [app map ev_call]; tauto.
    + destruct H as [-> _]. destruct Ht as [->|[o2 ->]]; cbn [app map ev_call]; tauto.
  - intros Hr. destruct (ended_raised _ _ _ _ En Hin Hr) as [-> _].
    cbn [handler_events] in H. destruct H as (o & _ & -> & _).
    exists o. reflexivity.
  - intros e Hr Hne'. destruct (ended_raised _ _ _ _ En Hin Hr) as [-> _].
    destruct e as [|n]; [congruence|].
    cbn [handler_events] in H. destruct H as [-> _].
    exists o1. destruct Ht as [->|[o2 ->]]; reflexivity.
Qed.

Lemma handler_published w r hevs r2 :
  handler_events w r hevs r2 ->
  published (map ev_call hevs) = [] /\ slept (map ev_call hevs) = 0%Z.
Proof.
  destruct r as [u|[|n]]; cbn [handler_events].
  - intros [-> _]. split; reflexivity.
  - intros (o & _ & -> & _). split; reflexivity.
  - intros [-> _]. split; reflexivity.
Qed.

Lemma teardown_published w r2 tevs out :
  teardown_events w r2 tevs out ->
  published (map ev_call tevs) = [] /\ slept (map ev_call tevs) = 0%Z
  /\ printed (map ev_call tevs) = [].
Proof.
  intros (o1 & _ & H). destruct o1 as [e|].
  - destruct H as [-> _]. repeat split.
  - destruct H as (o2 & _ & -> & _). repeat split.
Qed.

Lemma count_publish_published tr :
  count_calls is_publish tr = List.length (published (map ev_call tr)).
Proof. rewrite count_publish_payloads, payloads_published. reflexivity. Qed.

Lemma published_trace w r evs hevs r2 tevs :
  trace w = evs ++ hevs ++ tevs ->
  handler_events w r hevs r2 -> teardown_events w r2 tevs (outcome w) ->
  published (map ev_call (trace w)) = published (map ev_call evs).
Proof.
  intros -> H Td. rewrite !map_app, !published_app.
  rewrite (proj1 (handler_published _ _ _ _ H)), (proj1 (teardown_published _ _ _ _ Td)).
  rewrite !app_nil_r. reflexivity.
Qed.

Lemma ended_first_three r e1 e2 e3 e4 rest :
  ended r (e1 :: e2 :: e3 :: e4 :: rest) -> returned e1 /\ returned e2 /\ returned e3.
Proof.
  destruct r as [u|e]; cbn [ended].
  - intros H. rewrite !Forall_cons_iff in H. tauto.
  - intros (evs0 & c & E & H).
    destruct evs0 as [|x1 [|x2 [|x3 evs0]]].
    + apply (f_equal (@List.length event)) in E. cbn [List.length app] in E. lia.
    + apply (f_equal (@List.length event)) in E. cbn [List.length app] in E. lia.
    + apply (f_equal (@List.length event)) in E. cbn [List.length app] in E. lia.
    + cbn [app] in E. injection E as <- <- <- _.
      rewrite !Forall_cons_iff in H. tauto.
Qed.

Lemma cons_eq_inv {A} (a b : A) l l' : a :: l = b :: l' -> a = b /\ l = l'.
Proof. intros E. injection E as E1 E2. split; assumption. Qed.

Lemma published_setup_prefix j : published (firstn j setup_calls) = [].
Proof. destruct j as [|[|[|[|j]]]]; reflexivity. Qed.

Lemma slept_setup_prefix j : slept (firstn j setup_calls) = 0%Z.
Proof. destruct j as [|[|[|[|j]]]]; reflexivity. Qed.

Lemma printed_setup_prefix j : 1 <= j -> printed (firstn j setup_calls) = [connecting_line].
Proof. intros H. destruct j as [|[|[|[|j]]]]; [lia|reflexivity..]. Qed.

Lemma slept_turn_prefix w i t d p : p <= 2 -> slept (firstn p (turn_calls w i t d)) = 0%Z.
Proof. intros H. destruct p as [|[|[|p]]]; [reflexivity..|lia]. Qed.

(** X4: a message is published only on a client whose [connect] and
    [loop_start] have returned: a trace with a publish in it begins with
    the connecting line, [connect] and [loop_start], all three returned. *)
Theorem publish_needs_connection w :
  1 <= count_calls is_publish (trace w) ->
  exists rest,
    trace w = mk_event (Print connecting_line) None
              :: mk_event (Connect BROKER_ADDRESS PORT 60) None
              :: mk_event LoopStart None :: rest.
Proof.
  intros Hpub.
  destruct (run_calls w) as (r & evs & hevs & r2 & tevs & Etr & En & _ & C & H & Td & _).
  rewrite count_publish_published, (published_trace w r evs hevs r2 tevs Etr H Td) in Hpub.
  destruct C as [(j & _ & C & _)|(q & p & _ & _ & _ & _ & C)].
  - rewrite C, published_setup_prefix in Hpub. cbn [List.length] in Hpub. lia.
  - rewrite C in Hpub.
    destruct (loop_calls w 0 0 0 q ++ firstn p (turn_calls w q q (4 * q)))
      as [|c4 cs] eqn:EX.
    { rewrite app_nil_r in Hpub. cbn in Hpub. lia. }
    destruct evs as [|e1 [|e2 [|e3 [|e4 evs]]]];
      try (apply (f_equal (@List.length call)) in C; cbn [map List.length app setup_calls] in C; lia).
    cbn [map app setup_calls] in C.
    apply cons_eq_inv in C. destruct C as [C1 C].
    apply cons_eq_inv in C. destruct C as [C2 C].
    apply cons_eq_inv in C. destruct C as [C3 _].
    destruct (ended_first_three _ _ _ _ _ _ En) as (R1 & R2 & R3).
    destruct e1 as [c1 o1], e2 as [c2 o2], e3 as [c3 o3].
    unfold returned in R1, R2, R3. cbn [ev_call ev_raised] in *. subst.
    rewrite Etr. eexists. reflexivity.
Qed.

(** The publish guard at work: the world whose first publish fails. *)
Lemma publish_needs_connection_failing :
  exists rest,
    trace publish_fails_world
    = mk_event (Print connecting_line) None
      :: mk_event (Connect BROKER_ADDRESS PORT 60) None
      :: mk_event LoopStart None :: rest.
Proof.
  apply (publish_needs_connection publish_fails_world).
  vm_compute. lia.
Defined.

Lemma slept_trace w :
  exists q, q <= Z.to_nat TOTAL_STEPS
            /\ total_sleep (trace w) = (INTERVAL * Z.of_nat q)%Z
            /\ (all_returned (trace w) -> q = Z.to_nat TOTAL_STEPS).
Proof.
  destruct (run_calls w) as (r & evs & hevs & r2 & tevs & Etr & En & _ & C & H & Td & _).
  assert (E : total_sleep (trace w) = slept (map ev_call evs)).
  { rewrite total_sleep_calls, Etr, !map_app, !slept_app.
    rewrite (proj2 (handler_published _ _ _ _ H)).
    rewrite (proj1 (proj2 (teardown_published _ _ _ _ Td))). lia. }
  destruct C as [(j & _ & C & e & Hr)|(q & p & Hq & Hp & _ & Hok & C)].
  - exists 0. split; [lia|]. split.
    + rewrite E, C, slept_setup_prefix. lia.
    + intros Hall. exfalso. subst r.
      assert (Hevs : forall ev, In ev evs -> returned ev).
      { intros ev Hin. apply Hall. rewrite Etr. apply in_or_app. left. exact Hin. }
      destruct (ended_returned _ evs Hevs En) as [u K]. discriminate K.
  - exists q. split; [exact Hq|]. split.
    + rewrite E, C, !slept_app, slept_loop, slept_turn_prefix by exact Hp.
      change (slept setup_calls) with 0%Z. lia.
    + intros Hall.
      assert (Hevs : forall ev, In ev evs -> returned ev).
      { intros ev Hin. apply Hall. rewrite Etr. apply in_or_app. left. exact Hin. }
      destruct (ended_returned r evs Hevs En) as [u ->]. apply (Hok u eq_refl).
Qed.

(** X5: a run never asks for more sleep than the configured duration; the
    sleep asked for is a whole number of intervals. *)
Theorem sleep_within_duration w :
  (0 <= total_sleep (trace w) <= DURATION_HOURS * 3600)%Z
  /\ exists q, total_sleep (trace w) = (INTERVAL * Z.of_nat q)%Z.
Proof.
  destruct (slept_trace w) as (q & Hq & E & _).
  split; [|exists q; exact E].
  rewrite E. assert (Z.to_nat TOTAL_STEPS = 3600) by reflexivity.
  change INTERVAL with 5%Z. change DURATION_HOURS with 5%Z. lia.
Qed.

(** X6: an undisturbed run sleeps the configured duration exactly, five
    hours in all. *)
Theorem undisturbed_run_sleeps_duration w :
  all_returned (trace w) ->
  total_sleep (trace w) = (DURATION_HOURS * 3600)%Z.
Proof.
  intros Hall. destruct (slept_trace w) as (q & _ & E & Hq).
  rewrite E, (Hq Hall). reflexivity.
Qed.

Lemma undisturbed_run_sleeps_duration_quiet :
  total_sleep (trace quiet_world) = (DURATION_HOURS * 3600)%Z.
Proof.
  apply (undisturbed_run_sleeps_duration quiet_world).
  apply undisturbed_all_returned. intros n c. reflexivity.
Defined.

Lemma temperature_of_reading w i :
  float_field "temperature" (reading_at w i) = Some (temperature_at w i).
Proof.
  cbv [temperature_at reading_at reading_from reading_of reading_shape
       float_field field dict_get String.eqb Ascii.eqb Bool.eqb andb].
  reflexivity.
Qed.

Lemma map_seq_snoc {A} (f : nat -> A) q :
  map f (seq 0 (S q)) = map f (seq 0 q) ++ [f q].
Proof. rewrite seq_S, map_app. reflexivity. Qed.

Lemma published_loop0 w q :
  published (loop_calls w 0 0 0 q) = map (fun i => dumps (reading_at w i)) (seq 0 q).
Proof. rewrite published_loop. unfold reading_at. reflexivity. Qed.

Lemma printed_loop0 w q :
  printed (loop_calls w 0 0 0 q)
  = map (fun i => progress_line i (temperature_at w i)) (seq 0 q).
Proof. rewrite printed_loop. unfold temperature_at. reflexivity. Qed.

Lemma published_turn0 w q :
  published (firstn 0 (turn_calls w q q (4 * q))) = [].
Proof. reflexivity. Qed.

Lemma published_turn1 w q p :
  1 <= p <= 2 ->
  published (firstn p (turn_calls w q q (4 * q))) = [dumps (reading_at w q)].
Proof. intros H. assert (K : p = 1 \/ p = 2) by lia. destruct K as [->| ->]; unfold reading_at; reflexivity. Qed.

Lemma printed_turn01 w q p :
  p <= 1 -> printed (firstn p (turn_calls w q q (4 * q))) = [].
Proof. intros H. assert (K : p = 0 \/ p = 1) by lia. destruct K as [->| ->]; reflexivity. Qed.

Lemma printed_turn2 w q :
  printed (firstn 2 (turn_calls w q q (4 * q))) = [progress_line q (temperature_at w q)].
Proof. unfold temperature_at. reflexivity. Qed.

(** X7: the progress lines printed are those of the messages published, in
    order: line [i] carries the index [i + 1] and the temperature of the
    [i]-th reading published, and at any moment at most one message has
    been published without its line. *)
Theorem progress_lines_match_payloads w :
  exists m j tail,
    j <= m <= j + 1
    /\ m <= Z.to_nat TOTAL_STEPS
    /\ payloads (trace w) = map (fun i => dumps (reading_at w i)) (seq 0 m)
    /\ lines_printed (trace w)
       = connecting_line
         :: map (fun i => progress_line i (temperature_at w i)) (seq 0 j) ++ tail
    /\ (tail = [] \/ tail = [stopping_line])
    /\ (forall i, float_field "temperature" (reading_at w i)
                  = Some (temperature_at w i)).
Proof.
  destruct (run_calls w) as (r & evs & hevs & r2 & tevs & Etr & _ & _ & C & H & Td & _).
  assert (Htail : exists tail,
             printed (map ev_call hevs) ++ printed (map ev_call tevs) = tail
             /\ (tail = [] \/ tail = [stopping_line])).
  { rewrite (proj2 (proj2 (teardown_published _ _ _ _ Td))), app_nil_r.
    destruct r as [u|[|n]]; cbn [handler_events] in H.
    - destruct H as [-> _]. exists []. split; [reflexivity | left; reflexivity].
    - destruct H as (o & _ & -> & _). exists [stopping_line].
      split; [reflexivity | right; reflexivity].
    - destruct H as [-> _]. exists []. split; [reflexivity | left; reflexivity]. }
  destruct Htail as (tail & Etail & Htail).
  assert (Epay : payloads (trace w) = published (map ev_call evs)).
  { rewrite payloads_published. apply (published_trace w r evs hevs r2 tevs Etr H Td). }
  assert (Elines : lines_printed (trace w) = printed (map ev_call evs) ++ tail).
  { rewrite lines_printed_calls, Etr, !map_app, !printed_app, Etail. reflexivity. }
  rewrite Epay, Elines. clear Epay Elines Etail.
  destruct C as [(j & Hj & -> & _)|(q & p & Hq & Hp & Hqp & _ & ->)].
  - exists 0, 0, tail. split; [lia|]. split; [lia|].
    split; [apply published_setup_prefix|].
    split; [|split; [exact Htail | apply temperature_of_reading]].
    rewrite printed_setup_prefix by lia. reflexivity.
  - rewrite !published_app, !printed_app, published_loop0, printed_loop0.
    change (published setup_calls) with (@nil string).
    change (printed setup_calls) with [connecting_line].
    cbn [app].
    assert (Hcases : p = 0 \/ p = 1 \/ p = 2) by lia.
    destruct Hcases as [->|[->| ->]].
    + exists q, q, tail. split; [lia|]. split; [exact Hq|].
      rewrite published_turn0, printed_turn01, !app_nil_r by lia.
      split; [reflexivity|]. split; [reflexivity|].
      split; [exact Htail | apply temperature_of_reading].
    + assert (q <> Z.to_nat TOTAL_STEPS) by (intros K; specialize (Hqp K); discriminate).
      exists (S q), q, tail. split; [lia|]. split; [lia|].
      rewrite published_turn1, printed_turn01, map_seq_snoc, !app_nil_r by lia.
      split; [reflexivity|]. split; [reflexivity|].
      split; [exact Htail | apply temperature_of_reading].
    + assert (q <> Z.to_nat TOTAL_STEPS) by (intros K; specialize (Hqp K); discriminate).
      exists (S q), (S q), tail. split; [lia|]. split; [lia|].
      rewrite published_turn1, printed_turn2, !map_seq_snoc by lia.
      split; [reflexivity|]. split; [reflexivity|].
      split; [exact Htail | apply temperature_of_reading].
Qed.

Lemma string_head_eq a s b s' : String a s = String b s' -> a = b.
Proof. intros E. injection E as E1 _. exact E1. Qed.

Lemma progress_line_not_stopping i t : progress_line i t <> stopping_line.
Proof.
  unfold progress_line, stopping_line. cbn [append]. intros K.
  apply string_head_eq in K. discriminate K.
Qed.

Lemma connecting_line_not_stopping : connecting_line <> stopping_line.
Proof.
  unfold connecting_line, stopping_line. cbn [append]. intros K.
  apply string_head_eq in K. discriminate K.
Qed.


Lemma ideal_calls_kinds w : Forall try_kind (ideal_calls w).
Proof.
  unfold ideal_calls. apply Forall_app. split.
  - unfold setup_calls. repeat constructor; try discriminate.
  - unfold loop_calls. apply Forall_flat_map, Forall_forall. intros j _.
    unfold turn_calls. repeat constructor; try discriminate.
Qed.

Lemma try_calls_kinds w r cs : try_calls w r cs -> Forall try_kind cs.
Proof.
  intros C. destruct (try_calls_prefix _ _ _ C) as [[tail E] _].
  pose proof (ideal_calls_kinds w) as K. rewrite E in K.
  apply Forall_app in K. exact (proj1 K).
Qed.

Lemma try_event_kind w r evs ev :
  try_calls w r (map ev_call evs) -> In ev evs -> try_kind (ev_call ev).
Proof.
  intros C Hin. pose proof (try_calls_kinds _ _ _ C) as K.
  rewrite Forall_forall in K. apply K, in_map, Hin.
Qed.

Lemma count_calls_zero kind evs :
  Forall (fun ev => kind (ev_call ev) = false) evs -> count_calls kind evs = 0.
Proof.
  unfold count_calls. induction 1 as [|ev evs H _ IH]; [reflexivity|].
  cbn [filter]. rewrite H. exact IH.
Qed.

Lemma handler_event_inv w r hevs r2 ev :
  handler_events w r hevs r2 -> In ev hevs ->
  r = Raise KeyboardInterrupt
  /\ ev_call ev = Print stopping_line
  /\ hevs = [ev]
  /\ r2 = match ev_raised ev with None => Ok tt | Some e => Raise e end.
Proof.
  destruct r as [u|[|n]]; cbn [handler_events].
  - intros [-> _] [].
  - intros (o & _ & -> & ->) [<-|[]]. repeat split.
  - intros [-> _] [].
Qed.

Lemma teardown_event_inv w r2 tevs out ev :
  teardown_events w r2 tevs out -> In ev tevs ->
  is_teardown (ev_call ev) = true
  /\ (forall e, ev_raised ev = Some e ->
      out = Raise e
      /\ (ev_call ev = LoopStop -> count_calls is_disconnect tevs = 0)).
Proof.
  intros (o1 & _ & H) Hin. destruct o1 as [e1|].
  - destruct H as [-> ->]. destruct Hin as [<-|[]].
    split; [reflexivity|]. intros e E. cbn in E. injection E as <-.
    split; reflexivity.
  - destruct H as (o2 & _ & -> & ->). destruct Hin as [<-|[<-|[]]].
    + split; [reflexivity|]. intros e E. discriminate E.
    + split; [reflexivity|]. intros e E. cbn in E. subst o2.
      split; [reflexivity|]. intros K. discriminate K.
Qed.

Lemma teardown_quiet_outcome w r2 tevs out :
  teardown_events w r2 tevs out ->
  Forall returned tevs -> out = r2.
Proof.
  intros (o1 & _ & H) F. destruct o1 as [e1|].
  - destruct H as [-> _]. inversion F as [|? ? K _]. discriminate K.
  - destruct H as (o2 & _ & -> & ->).
    inversion F as [|? ? _ F']. inversion F' as [|? ? K _].
    cbn in K. unfold returned in K. cbn in K. subst o2. reflexivity.
Qed.

Lemma teardown_outcome_ok w r2 tevs :
  teardown_events w r2 tevs (Ok tt) -> r2 = Ok tt /\ Forall returned tevs.
Proof.
  intros (o1 & _ & H). destruct o1 as [e1|].
  - destruct H as [_ K]. discriminate K.
  - destruct H as (o2 & _ & -> & K). destruct o2 as [e2|]; [discriminate K|].
    split; [symmetry; exact K|]. repeat constructor.
Qed.

(** X8: an exception raised by [loop_stop] or [disconnect] in the [finally]
    block is what [run_simulation] raises, whatever happened before (it
    replaces an exception that was on its way out, and turns a normal end or
    a caught interrupt into a failure); and when it is [loop_stop] that
    raised, [disconnect] is never called. *)
Theorem teardown_error_wins w ev e :
  In ev (trace w) -> is_teardown (ev_call ev) = true -> ev_raised ev = Some e ->
  outcome w = Raise e
  /\ (ev_call ev = LoopStop -> count_calls is_disconnect (trace w) = 0).
Proof.
  intros Hin Hk Hr.
  destruct (run_calls w) as (r & evs & hevs & r2 & tevs & Etr & En & A & C & H & Td & _).
  rewrite Etr in Hin |- *.
  apply in_app_or in Hin. destruct Hin as [Hin|Hin].
  { destruct (try_event_kind _ _ _ _ C Hin) as [K _]. congruence. }
  apply in_app_or in Hin. destruct Hin as [Hin|Hin].
  { destruct (handler_event_inv _ _ _ _ _ H Hin) as (_ & K & _). rewrite K in Hk.
    discriminate Hk. }
  destruct (teardown_event_inv _ _ _ _ _ Td Hin) as [_ K].
  destruct (K e Hr) as [Ho Hd]. split; [exact Ho|].
  intros Hc. rewrite !count_calls_app, (Hd Hc).
  rewrite (count_calls_zero is_disconnect evs).
  - rewrite (count_calls_zero is_disconnect hevs); [reflexivity|].
    apply Forall_forall. intros ev' Hin'.
    destruct (handler_event_inv _ _ _ _ _ H Hin') as (_ & K' & _). rewrite K'. reflexivity.
  - apply Forall_forall. intros ev' Hin'.
    destruct (try_event_kind _ _ _ _ C Hin') as [K' _].
    unfold is_teardown in K'. apply orb_false_iff in K'. exact (proj2 K').
Qed.

(** The run of [failing_teardown_world]: the broker refuses the connection
    and [loop_stop] fails in turn; the caller sees the second error and the
    client is not disconnected. *)
Lemma teardown_error_wins_failing :
  outcome failing_teardown_world = Raise (OtherError "RuntimeError")
  /\ count_calls is_disconnect (trace failing_teardown_world) = 0.
Proof.
  destruct (teardown_error_wins failing_teardown_world
              (mk_event LoopStop (Some (OtherError "RuntimeError")))
              (OtherError "RuntimeError")) as [A B].
  - vm_compute. right. right. left. reflexivity.
  - reflexivity.
  - reflexivity.
  - split; [exact A | apply B; reflexivity].
Defined.

Lemma ended_raise_last e evs :
  ended (Raise e) evs ->
  exists ev, In ev evs /\ ev_raised ev = Some e.
Proof.
  intros (evs0 & c & -> & _). exists (mk_event c (Some e)).
  split; [apply in_or_app; right; left; reflexivity | reflexivity].
Qed.

Lemma ended_raise_only r evs ev e :
  ended r evs -> In ev evs -> ev_raised ev = Some e -> r = Raise e.
Proof.
  destruct r as [u|e0]; cbn [ended].
  - intros F Hin Hr. rewrite Forall_forall in F. specialize (F _ Hin).
    unfold returned in F. congruence.
  - intros (evs0 & c & -> & F) Hin Hr. apply in_app_or in Hin.
    destruct Hin as [Hin|[<-|[]]].
    + rewrite Forall_forall in F. specialize (F _ Hin).
      unfold returned in F. congruence.
    + cbn in Hr. congruence.
Qed.

(** X9: [run_simulation] returns normally exactly when the only exceptions
    of the run are [KeyboardInterrupt]s raised by a call of the [try]
    section (the connecting line, [connect], [loop_start], a publish, a
    progress line or a pause).  Any other exception, an exception of the
    handler's own [print], and any exception of [loop_stop] or [disconnect]
    leave the function. *)
Theorem normal_return_iff w :
  outcome w = Ok tt
  <-> (forall ev e, In ev (trace w) -> ev_raised ev = Some e ->
         e = KeyboardInterrupt
         /\ is_teardown (ev_call ev) = false
         /\ ev_call ev <> Print stopping_line).
Proof.
  destruct (run_calls w) as (r & evs & hevs & r2 & tevs & Etr & En & A & C & H & Td & _).
  rewrite Etr. split.
  - intros Ho. rewrite Ho in Td.
    destruct (teardown_outcome_ok _ _ _ Td) as [-> Ft].
    intros ev e Hin Hr.
    apply in_app_or in Hin. destruct Hin as [Hin|Hin].
    { pose proof (ended_raise_only _ _ _ _ En Hin Hr) as ->.
      destruct (try_event_kind _ _ _ _ C Hin) as [K1 K2].
      destruct e as [|n]; [repeat split; assumption|].
      cbn [handler_events] in H. destruct H as [_ K]. discriminate K. }
    apply in_app_or in Hin. destruct Hin as [Hin|Hin].
    { destruct (handler_event_inv _ _ _ _ _ H Hin) as (_ & _ & _ & K).
      rewrite Hr in K. discriminate K. }
    rewrite Forall_forall in Ft. specialize (Ft _ Hin).
    unfold returned in Ft. congruence.
  - intros Hall.
    assert (Hr2 : r2 = Ok tt).
    { destruct r as [[]|e0].
      - cbn [handler_events] in H. exact (proj2 H).
      - destruct (ended_raise_last _ _ En) as (ev & Hin & Hr).
        destruct (Hall ev e0 (in_or_app _ _ _ (or_introl Hin)) Hr) as [-> _].
        cbn [handler_events] in H. destruct H as (o & _ & -> & ->).
        destruct o as [e1|]; [|reflexivity].
        destruct (Hall (mk_event (Print stopping_line) (Some e1)) e1) as (_ & _ & K).
        + apply in_or_app. right. left. reflexivity.
        + reflexivity.
        + exfalso. apply K. reflexivity. }
    rewrite <- Hr2. apply (teardown_quiet_outcome w r2 tevs _ Td).
    apply Forall_forall. intros ev Hin. unfold returned.
    destruct (ev_raised ev) as [e|] eqn:Hr; [|reflexivity].
    destruct (teardown_event_inv _ _ _ _ _ Td Hin) as [K _].
    destruct (Hall ev e) as (_ & K' & _).
    + apply in_or_app. right. apply in_or_app. right. exact Hin.
    + exact Hr.
    + congruence.
Qed.

(** X10: when a call of the [try] section raises [KeyboardInterrupt], the
    handler's line (a newline, then Stopping...) is printed directly after
    it, and [loop_stop] is the next call; every call before the interrupted
    one returned, and the line is printed nowhere else in the run. *)
Theorem interrupt_prints_stopping_line w ev :
  In ev (trace w) -> ev_raised ev = Some KeyboardInterrupt ->
  is_teardown (ev_call ev) = false -> ev_call ev <> Print stopping_line ->
  exists pre o tevs,
    trace w = pre ++ [ev; mk_event (Print stopping_line) o] ++ tevs
    /\ Forall returned pre
    /\ Forall (fun ev' => ev_call ev' <> Print stopping_line) (pre ++ [ev] ++ tevs)
    /\ exists o1, hd_error tevs = Some (mk_event LoopStop o1).
Proof.
  intros Hin Hr Hk Hc.
  destruct (run_calls w) as (r & evs & hevs & r2 & tevs & Etr & En & A & C & H & Td & _).
  rewrite Etr in Hin |- *.
  assert (Htry : forall ev, In ev evs -> ev_call ev <> Print stopping_line).
  { intros ev' Hin'. exact (proj2 (try_event_kind _ _ _ _ C Hin')). }
  assert (Htd : forall ev, In ev tevs -> ev_call ev <> Print stopping_line).
  { intros ev' Hin' K. destruct (teardown_event_inv _ _ _ _ _ Td Hin') as [K' _].
    rewrite K in K'. discriminate K'. }
  apply in_app_or in Hin. destruct Hin as [Hin|Hin].
  2:{ exfalso. apply in_app_or in Hin. destruct Hin as [Hin|Hin].
      - destruct (handler_event_inv _ _ _ _ _ H Hin) as (_ & K & _). exact (Hc K).
      - destruct (teardown_event_inv _ _ _ _ _ Td Hin) as [K _]. congruence. }
  destruct (ended_raised _ _ _ _ En Hin Hr) as (-> & evs0 & -> & F0).
  cbn [handler_events] in H. destruct H as (o & _ & -> & _).
  exists evs0, o, tevs.
  split. { rewrite <- !app_assoc. reflexivity. }
  split. { exact F0. }
  split.
  { apply Forall_forall. intros ev' Hin'.
    apply in_app_or in Hin'. destruct Hin' as [Hin'|Hin'].
    - apply Htry. apply in_or_app. left. exact Hin'.
    - apply in_app_or in Hin'. destruct Hin' as [[<-|[]]|Hin'].
      + exact Hc.
      + apply Htd. exact Hin'. }
  destruct Td as (o1 & _ & Td). destruct o1 as [e1|].
  - destruct Td as [-> _]. eexists. reflexivity.
  - destruct Td as (o2 & _ & -> & _). eexists. reflexivity.
Qed.

(** The run interrupted in its first pause: the line follows the pause. *)
Lemma interrupt_prints_stopping_line_first_pause :
  exists pre o tevs,
    trace interrupted_world
    = pre ++ [mk_event (Sleep INTERVAL) (Some KeyboardInterrupt);
              mk_event (Print stopping_line) o] ++ tevs
    /\ Forall returned pre
    /\ Forall (fun ev' => ev_call ev' <> Print stopping_line)
              (pre ++ [mk_event (Sleep INTERVAL) (Some KeyboardInterrupt)] ++ tevs)
    /\ exists o1, hd_error tevs = Some (mk_event LoopStop o1).
Proof.
  apply (interrupt_prints_stopping_line interrupted_world
           (mk_event (Sleep INTERVAL) (Some KeyboardInterrupt))).
  - vm_compute. do 5 right. left. reflexivity.
  - reflexivity.
  - reflexivity.
  - discriminate.
Defined.

(** ** The callback [on_connect] *)

Open Scope string_scope.

Lemma digit_char_value d : (d < 10)%N -> (N_of_ascii (digit_char d) - 48)%N = d.
Proof.
  intros H. unfold digit_char. rewrite N_ascii_embedding; lia.
Qed.

Lemma digits_value_app s1 : forall a s2,
  digits_value a (s1 ++ s2) = digits_value (digits_value a s1) s2.
Proof.
  induction s1 as [|c s1 IH]; intros a s2; [reflexivity|].
  cbn [append digits_value]. apply IH.
Qed.

(** The digits written for [n] are read back as [n]. *)
Lemma digits_fuel_value fuel : forall n acc,
  (n < 2 ^ N.of_nat fuel)%N ->
  exists pre, digits_fuel fuel n acc = pre ++ acc
              /\ forall a, digits_value a pre
                           = (a * 10 ^ N.of_nat (String.length pre) + n)%N.
Proof.
  induction fuel as [|f IH]; intros n acc H.
  - exists "". split; [reflexivity|]. intros a. cbn in H |- *. lia.
  - cbn [digits_fuel].
    assert (Hd : (n mod 10 < 10)%N) by (apply N.mod_lt; discriminate).
    pose proof (N.div_mod n 10 ltac:(discriminate)) as Hn.
    destruct (N.eqb_spec (n / 10) 0) as [Z|NZ].
    + exists (String (digit_char (n mod 10)) ""). split; [reflexivity|].
      intros a. cbn [digits_value String.length].
      rewrite digit_char_value by exact Hd. change (10 ^ N.of_nat 1)%N with 10%N. lia.
    + assert (Hq : (n / 10 < 2 ^ N.of_nat f)%N).
      { rewrite Nat2N.inj_succ, N.pow_succ_r' in H.
        apply N.Div0.div_lt_upper_bound. lia. }
      destruct (IH (n / 10)%N (String (digit_char (n mod 10)) acc) Hq)
        as (pre & E & V).
      exists (pre ++ String (digit_char (n mod 10)) "").
      split. { rewrite E, append_assoc. reflexivity. }
      intros a. rewrite digits_value_app, V. cbn [digits_value].
      rewrite digit_char_value by exact Hd.
      replace (String.length (pre ++ String (digit_char (n mod 10)) ""))
        with (S (String.length pre)).
      { rewrite Nat2N.inj_succ, N.pow_succ_r'. lia. }
      clear. induction pre as [|c p IHp]; [reflexivity|].
      cbn [append String.length]. rewrite <- IHp. reflexivity.
Qed.

Lemma str_nat_value n : digits_value 0 (str_nat n) = n.
Proof.
  unfold str_nat.
  destruct (digits_fuel_value (S (N.to_nat (N.log2 n))) n "") as (pre & E & V).
  - rewrite Nat2N.inj_succ, N2Nat.id.
    destruct n as [|p]; [reflexivity|]. apply N.log2_spec. reflexivity.
  - rewrite E, digits_value_app, V. cbn [digits_value]. lia.
Qed.


Lemma is_digit_digit_char d : (d < 10)%N -> is_digit (digit_char d) = true.
Proof.
  intros H.
  assert (K : forallb (fun i => is_digit (digit_char (N.of_nat i))) (seq 0 10) = true)
    by (vm_compute; reflexivity).
  rewrite forallb_forall in K. specialize (K (N.to_nat d)).
  rewrite N2Nat.id in K. apply K, in_seq. lia.
Qed.

Lemma digits_fuel_head fuel : forall n acc,
  starts_with_digit acc -> starts_with_digit (digits_fuel fuel n acc).
Proof.
  induction fuel as [|f IH]; intros n acc H; [exact H|].
  cbn [digits_fuel].
  assert (Hd : starts_with_digit (String (digit_char (n mod 10)) acc)).
  { apply is_digit_digit_char, N.mod_lt. discriminate. }
  destruct (n / 10 =? 0)%N; [exact Hd | apply IH, Hd].
Qed.

Lemma str_nat_head n : starts_with_digit (str_nat n).
Proof.
  unfold str_nat. cbn [digits_fuel].
  assert (Hd : starts_with_digit (String (digit_char (n mod 10)) "")).
  { apply is_digit_digit_char, N.mod_lt. discriminate. }
  destruct (n / 10 =? 0)%N; [exact Hd | apply digits_fuel_head, Hd].
Qed.

Lemma str_nat_inj n1 n2 : str_nat n1 = str_nat n2 -> n1 = n2.
Proof.
  intros E. rewrite <- (str_nat_value n1), <- (str_nat_value n2), E. reflexivity.
Qed.

(** [str] tells integers apart. *)
Lemma str_int_inj z1 z2 : str_int z1 = str_int z2 -> z1 = z2.
Proof.
  assert (Hneg : forall p n, "-" ++ str_nat (Npos p) <> str_nat n).
  { intros p n E. pose proof (str_nat_head n) as H. rewrite <- E in H.
    cbn in H. discriminate H. }
  unfold str_int. destruct z1 as [|p1|p1], z2 as [|p2|p2]; intros E;
    try (apply str_nat_inj in E; cbn in E; congruence);
    try (exfalso; exact (Hneg _ _ E));
    try (exfalso; symmetry in E; exact (Hneg _ _ E)).
  cbn [append] in E. injection E as E. apply str_nat_inj in E. congruence.
Qed.

Lemma append_inj_l p : forall a b, p ++ a = p ++ b -> a = b.
Proof.
  induction p as [|c p IH]; intros a b E; [exact E|].
  cbn [append] in E. injection E as E. exact (IH _ _ E).
Qed.

Lemma on_connect_print w rc :
  on_connect w rc
  = external w (Print (if (rc =? 0)%Z
                       then "Successfully connected to HiveMQ Cloud!"
                       else "Connection failed with code " ++ str_int rc)).
Proof. unfold on_connect. destruct (rc =? 0)%Z; reflexivity. Qed.

Lemma external_call w c s :
  map ev_call (log (snd (external w c s))) = c :: map ev_call (log s).
Proof. rewrite external_run. reflexivity. Qed.

(** X11: [on_connect] makes one call, a [print]; the line is the success
    message exactly when the result code is 0, and otherwise it names the
    code: two result codes that leave the same line are the same code. *)
Theorem on_connect_reports_code w s rc :
  exists line,
    map ev_call (log (snd (on_connect w rc s))) = Print line :: map ev_call (log s)
    /\ (line = "Successfully connected to HiveMQ Cloud!" <-> rc = 0%Z)
    /\ (rc <> 0%Z -> line = "Connection failed with code " ++ str_int rc)
    /\ (forall rc',
          map ev_call (log (snd (on_connect w rc' s))) = Print line :: map ev_call (log s)
          -> rc' = rc).
Proof.
  assert (Hinj : forall rc',
            (if (rc' =? 0)%Z
             then "Successfully connected to HiveMQ Cloud!"
             else "Connection failed with code " ++ str_int rc')
            = (if (rc =? 0)%Z
               then "Successfully connected to HiveMQ Cloud!"
               else "Connection failed with code " ++ str_int rc)
            -> rc' = rc).
  { intros rc' E.
    destruct (Z.eqb_spec rc' 0) as [E1|NZ'], (Z.eqb_spec rc 0) as [E2|NZ];
      try congruence; try discriminate E.
    apply append_inj_l in E. exact (str_int_inj _ _ E). }
  exists (if (rc =? 0)%Z
          then "Successfully connected to HiveMQ Cloud!"
          else "Connection failed with code " ++ str_int rc).
  split; [rewrite on_connect_print; apply external_call|].
  split; [|split].
  - destruct (Z.eqb_spec rc 0) as [E|NZ]; split; intros H;
      try reflexivity; try contradiction; try exact E. discriminate H.
  - intros NZ. destruct (Z.eqb_spec rc 0) as [E|_]; [contradiction|reflexivity].
  - intros rc' E. rewrite on_connect_print, external_call in E.
    injection E as E. exact (Hinj _ E).
Qed.

Open Scope list_scope.

(** ** The values a reading can take *)

Open Scope Z_scope.
Open Scope Q_scope.

Lemma random_value_mono k1 k2 :
  (k1 mod 2 ^ 53 <= k2 mod 2 ^ 53)%N -> random_value k1 <= random_value k2.
Proof.
  intros H. unfold random_value. rewrite !Qred_correct.
  unfold Qdiv. apply Qmult_le_compat_r.
  - rewrite <- Zle_Qle. lia.
  - vm_compute. discriminate.
Qed.

Lemma py_round_mono x y nd : x <= y -> py_round x nd <= py_round y nd.
Proof.
  intros H. unfold py_round. apply binary64_mono.
  unfold Qdiv. apply Qmult_le_compat_r.
  - rewrite <- Zle_Qle. apply scaled_round_mono, H.
  - apply Qinv_le_0_compat, Qpower_0_le. discriminate.
Qed.

(** X12: each number of a reading follows its draw: a larger value of
    [random.random()] never gives a smaller latitude, longitude or
    temperature, and never a larger battery level (the float arithmetic and
    the two roundings keep the order). *)
Theorem fields_follow_the_draw k1 k2 :
  (k1 mod 2 ^ 53 <= k2 mod 2 ^ 53)%N ->
  lat_value k1 <= lat_value k2
  /\ lon_value k1 <= lon_value k2
  /\ temperature_value k1 <= temperature_value k2
  /\ battery_value k2 <= battery_value k1.
Proof.
  intros H. apply random_value_mono in H.
  unfold lat_value, lon_value, temperature_value, battery_value.
  repeat split; apply py_round_mono.
  - apply fadd_mono_r, uniform_value_mono; [apply jitter_span_pos | exact H].
  - apply fadd_mono_r, uniform_value_mono; [apply jitter_span_pos | exact H].
  - apply fadd_mono_r, uniform_value_mono; [apply temp_span_pos | exact H].
  - apply binary64_mono.
    assert (fmul (random_value k1) (float_of_int 2)
            <= fmul (random_value k2) (float_of_int 2)).
    { apply binary64_mono. apply Qmult_le_compat_r; [exact H|].
      vm_compute. discriminate. }
    lra.
Qed.

(** The draws one quarter and three quarters of the way. *)
Lemma fields_follow_the_draw_quarters :
  lat_value (2 ^ 51) <= lat_value (3 * 2 ^ 51)
  /\ lon_value (2 ^ 51) <= lon_value (3 * 2 ^ 51)
  /\ temperature_value (2 ^ 51) <= temperature_value (3 * 2 ^ 51)
  /\ battery_value (3 * 2 ^ 51) <= battery_value (2 ^ 51).
Proof.
  apply (fields_follow_the_draw (2 ^ 51) (3 * 2 ^ 51)).
  vm_compute. discriminate.
Defined.

Lemma same_fraction_eq a b : same_fraction a b = true -> a = b.
Proof.
  unfold same_fraction. intros H. apply andb_true_iff in H. destruct H as [H1 H2].
  apply Z.eqb_eq in H1. apply Pos.eqb_eq in H2.
  destruct a, b. cbn in H1, H2. subst. reflexivity.
Qed.

Lemma lat_values_reached :
  forallb (fun m => same_fraction (lat_value (draw_at 13511 20 m)) (decimal_double m 4))
          (Zrange 13511 21) = true.
Proof. vm_compute. reflexivity. Qed.

Lemma lon_values_reached :
  forallb (fun m => same_fraction (lon_value (draw_at 1038188 20 m)) (decimal_double m 4))
          (Zrange 1038188 21) = true.
Proof. vm_compute. reflexivity. Qed.

Lemma temperature_values_reached :
  forallb (fun m => same_fraction (temperature_value (draw_at 37 10 m)) (decimal_double m 1))
          (Zrange 37 11) = true.
Proof. vm_compute. reflexivity. Qed.

Lemma battery_values_reached :
  forallb (fun m => same_fraction (battery_value (draw_at (-870) 20 (- m)))
                                  (decimal_double m 1))
          (Zrange 850 21) = true.
Proof. vm_compute. reflexivity. Qed.

Lemma reading_of_numbers now k1 k2 k3 k4 :
  nested_float "location" "lat" (reading_of now k1 k2 k3 k4) = Some (lat_value k1)
  /\ nested_float "location" "lon" (reading_of now k1 k2 k3 k4) = Some (lon_value k2)
  /\ float_field "temperature" (reading_of now k1 k2 k3 k4) = Some (temperature_value k3)
  /\ float_field "battery" (reading_of now k1 k2 k3 k4) = Some (battery_value k4).
Proof.
  cbv [reading_of reading_shape nested_float float_field field dict_get
       String.eqb Ascii.eqb Bool.eqb andb].
  repeat split.
Qed.

(** X13: the ranges are exactly the values taken, and the four numbers
    vary freely: for every choice of a latitude among the 21 four-place
    decimals from 1.3511 to 1.3531, a longitude among the 21 from 103.8188
    to 103.8208, a temperature among the 11 one-place decimals from 3.7 to
    4.7 and a battery level among the 21 from 85.0 to 87.0, some state of
    the random source makes [generate_cargo_data] return just these. *)
Theorem every_value_is_reached m_lat m_lon m_t m_b :
  (13511 <= m_lat <= 13531)%Z -> (1038188 <= m_lon <= 1038208)%Z ->
  (37 <= m_t <= 47)%Z -> (850 <= m_b <= 870)%Z ->
  exists w data,
    fst (generate_cargo_data w init) = Ok data
    /\ nested_float "location" "lat" data = Some (decimal_double m_lat 4)
    /\ nested_float "location" "lon" data = Some (decimal_double m_lon 4)
    /\ float_field "temperature" data = Some (decimal_double m_t 1)
    /\ float_field "battery" data = Some (decimal_double m_b 1).
Proof.
  intros H1 H2 H3 H4.
  pose proof (forallb_Zrange _ _ _ m_lat lat_values_reached ltac:(simpl; lia)) as E1.
  pose proof (forallb_Zrange _ _ _ m_lon lon_values_reached ltac:(simpl; lia)) as E2.
  pose proof (forallb_Zrange _ _ _ m_t temperature_values_reached ltac:(simpl; lia)) as E3.
  pose proof (forallb_Zrange _ _ _ m_b battery_values_reached ltac:(simpl; lia)) as E4.
  cbv beta in E1, E2, E3, E4.
  apply same_fraction_eq in E1, E2, E3, E4.
  exists (drawing_world (draw_at 13511 20 m_lat) (draw_at 1038188 20 m_lon)
                        (draw_at 37 10 m_t) (draw_at (-870) 20 (- m_b))).
  eexists. rewrite generate_cargo_data_eq. split; [reflexivity|].
  change (draws init) with 0%nat.
  cbn [entropy drawing_world].
  rewrite <- E1, <- E2, <- E3, <- E4.
  apply reading_of_numbers.
Qed.

(** The middle of each range. *)
Lemma every_value_is_reached_middle :
  exists w data,
    fst (generate_cargo_data w init) = Ok data
    /\ nested_float "location" "lat" data = Some (decimal_double 13521 4)
    /\ nested_float "location" "lon" data = Some (decimal_double 1038198 4)
    /\ float_field "temperature" data = Some (decimal_double 42 1)
    /\ float_field "battery" data = Some (decimal_double 860 1).
Proof.
  apply (every_value_is_reached 13521 1038198 42 860); lia.
Defined.

Close Scope Q_scope.
Close Scope Z_scope.

(** ** The timestamp *)

Open Scope string_scope.

Lemma digits_fuel_length fuel : forall n acc w,
  (n < 10 ^ N.of_nat w)%N -> 1 <= w ->
  exists pre, digits_fuel fuel n acc = pre ++ acc /\ String.length pre <= w.
Proof.
  induction fuel as [|f IH]; intros n acc w H Hw.
  - exists "". split; [reflexivity | cbn; lia].
  - cbn [digits_fuel]. destruct (N.eqb_spec (n / 10) 0) as [Z|NZ].
    + exists (String (digit_char (n mod 10)) ""). split; [reflexivity | cbn; lia].
    + destruct w as [|[|w]]; [lia| |].
      * exfalso. apply NZ. apply N.div_small. exact H.
      * destruct (IH (n / 10)%N (String (digit_char (n mod 10)) acc) (S w))
          as (pre & E & L).
        { rewrite Nat2N.inj_succ, N.pow_succ_r' in H.
          apply N.Div0.div_lt_upper_bound. exact H. }
        { lia. }
        exists (pre ++ String (digit_char (n mod 10)) "").
        split. { rewrite E, append_assoc. reflexivity. }
        rewrite length_append. cbn. lia.
Qed.

Lemma length_zeros k : String.length (zeros k) = k.
Proof. induction k as [|k IH]; [reflexivity|]. cbn. rewrite IH. reflexivity. Qed.

(** A number below [10^w] padded to [w] places fills them exactly. *)
Lemma length_pad_nat w n :
  (n < 10 ^ N.of_nat w)%N -> 1 <= w -> String.length (pad_nat w n) = w.
Proof.
  intros H Hw. unfold pad_nat, str_nat.
  destruct (digits_fuel_length (S (N.to_nat (N.log2 n))) n "" w H Hw) as (pre & E & L).
  rewrite E. rewrite length_append, length_zeros, !length_append. cbn. lia.
Qed.

Lemma digits_value_zeros k s : digits_value 0 (zeros k ++ s) = digits_value 0 s.
Proof. induction k as [|k IH]; [reflexivity|]. cbn [zeros append digits_value]. exact IH. Qed.

Lemma pad_nat_inj w n1 n2 : pad_nat w n1 = pad_nat w n2 -> n1 = n2.
Proof.
  intros E. apply (f_equal (digits_value 0)) in E. unfold pad_nat in E.
  rewrite !digits_value_zeros, !str_nat_value in E. exact E.
Qed.

Lemma append_split (a a' : string) : forall b b',
  String.length a = String.length a' -> a ++ b = a' ++ b' -> a = a' /\ b = b'.
Proof.
  revert a'. induction a as [|c a IH]; intros [|c' a'] b b' L E;
    try discriminate L.
  - split; [reflexivity | exact E].
  - cbn [append] in E. injection E as -> E. cbn in L.
    destruct (IH a' b b' ltac:(lia) E) as [-> ->]. split; reflexivity.
Qed.

Lemma timestamp_of_reading now k1 k2 k3 k4 :
  field "timestamp" (reading_of now k1 k2 k3 k4) = Some (PStr (isoformat now ++ "Z")).
Proof.
  cbv [reading_of reading_shape field dict_get String.eqb Ascii.eqb Bool.eqb andb].
  reflexivity.
Qed.

(** The timestamp, piece by piece. *)
Lemma timestamp_pieces dt :
  isoformat dt ++ "Z"
  = pad_nat 4 (year dt) ++ "-" ++ pad_nat 2 (month dt) ++ "-" ++ pad_nat 2 (day dt)
    ++ "T" ++ pad_nat 2 (hour dt) ++ ":" ++ pad_nat 2 (minute dt)
    ++ ":" ++ pad_nat 2 (second dt)
    ++ (if (microsecond dt =? 0)%N then "Z" else "." ++ pad_nat 6 (microsecond dt) ++ "Z").
Proof.
  unfold isoformat. rewrite !append_assoc.
  destruct (microsecond dt =? 0)%N; [reflexivity|].
  rewrite !append_assoc. reflexivity.
Qed.

Section Timestamp.
Variable dt : datetime.
Hypothesis Hv : valid_datetime dt.

Lemma pad_lengths :
  String.length (pad_nat 4 (year dt)) = 4
  /\ String.length (pad_nat 2 (month dt)) = 2
  /\ String.length (pad_nat 2 (day dt)) = 2
  /\ String.length (pad_nat 2 (hour dt)) = 2
  /\ String.length (pad_nat 2 (minute dt)) = 2
  /\ String.length (pad_nat 2 (second dt)) = 2
  /\ String.length (pad_nat 6 (microsecond dt)) = 6.
Proof.
  destruct Hv as (Hy & Hmo & Hd & Hh & Hmi & Hs & Hus).
  repeat split; apply length_pad_nat; try lia.
Qed.

Lemma timestamp_length :
  String.length (isoformat dt ++ "Z")
  = if (microsecond dt =? 0)%N then 20 else 27.
Proof.
  destruct pad_lengths as (L1 & L2 & L3 & L4 & L5 & L6 & L7).
  rewrite timestamp_pieces.
  destruct (microsecond dt =? 0)%N;
    repeat (rewrite length_append; cbn [String.length]);
    rewrite ?L1, ?L2, ?L3, ?L4, ?L5, ?L6, ?L7; reflexivity.
Qed.

End Timestamp.

Lemma string_of_length_2 s :
  String.length s = 2 -> exists a b, s = String a (String b "").
Proof.
  destruct s as [|a [|b [|c s]]]; intros L; try discriminate L.
  exists a, b. reflexivity.
Qed.

Lemma string_of_length_4 s :
  String.length s = 4 -> exists a b c d, s = String a (String b (String c (String d ""))).
Proof.
  destruct s as [|a [|b [|c [|d [|e s]]]]]; intros L; try discriminate L.
  exists a, b, c, d. reflexivity.
Qed.

Lemma string_cons_inv c s c' s' : String c s = String c' s' -> c = c' /\ s = s'.
Proof. intros E. injection E as E1 E2. split; assumption. Qed.

Lemma string_tail_eq c s c' s' : String c s = String c' s' -> s = s'.
Proof. intros E. injection E as _ E. exact E. Qed.

Lemma all_digits_append a b :
  all_digits (a ++ b) = (all_digits a && all_digits b)%bool.
Proof.
  induction a as [|c a IH]; [reflexivity|].
  cbn [append all_digits]. rewrite IH, andb_assoc. reflexivity.
Qed.

Lemma all_digits_zeros k : all_digits (zeros k) = true.
Proof. induction k as [|k IH]; [reflexivity|]. cbn [zeros all_digits]. exact IH. Qed.

Lemma digits_fuel_all_digits fuel : forall n acc,
  all_digits acc = true -> all_digits (digits_fuel fuel n acc) = true.
Proof.
  induction fuel as [|f IH]; intros n acc H; [exact H|].
  cbn [digits_fuel].
  assert (Hd : all_digits (String (digit_char (n mod 10)) acc) = true).
  { cbn [all_digits]. rewrite H, is_digit_digit_char; [reflexivity|].
    apply N.mod_lt. discriminate. }
  destruct (n / 10 =? 0)%N; [exact Hd | apply IH, Hd].
Qed.

(** A number below [10^w] padded to [w] places is written with exactly [w]
    digits. *)
Lemma written_pad w n :
  (n < 10 ^ N.of_nat w)%N -> 1 <= w -> written w (pad_nat w n) n.
Proof.
  intros H Hw. split; [apply length_pad_nat; assumption|]. split.
  - unfold pad_nat. rewrite all_digits_append, all_digits_zeros.
    apply digits_fuel_all_digits. reflexivity.
  - unfold pad_nat. rewrite digits_value_zeros. apply str_nat_value.
Qed.

(** X14: the timestamp of a reading has a fixed layout: the year in four
    digits, month, day, hour, minute and second in two digits each,
    separated by - - T : :, then nothing (20 characters in all) when the
    clock shows no microseconds and otherwise a point and the microseconds
    in six digits (27 characters), then Z.  It identifies the instant: two
    readings with the same timestamp were taken at the same clock value. *)
Theorem timestamp_identifies_instant w1 s1 w2 s2 :
  valid_datetime (utcnow w1 (ticks s1)) ->
  valid_datetime (utcnow w2 (ticks s2)) ->
  exists data1 data2 ts1 ts2,
    fst (generate_cargo_data w1 s1) = Ok data1
    /\ fst (generate_cargo_data w2 s2) = Ok data2
    /\ field "timestamp" data1 = Some (PStr ts1)
    /\ field "timestamp" data2 = Some (PStr ts2)
    /\ (exists y mo d h mi s frac,
          ts1 = y ++ "-" ++ mo ++ "-" ++ d ++ "T" ++ h ++ ":" ++ mi ++ ":" ++ s
                  ++ frac ++ "Z"
          /\ written 4 y (year (utcnow w1 (ticks s1)))
          /\ written 2 mo (month (utcnow w1 (ticks s1)))
          /\ written 2 d (day (utcnow w1 (ticks s1)))
          /\ written 2 h (hour (utcnow w1 (ticks s1)))
          /\ written 2 mi (minute (utcnow w1 (ticks s1)))
          /\ written 2 s (second (utcnow w1 (ticks s1)))
          /\ (if (microsecond (utcnow w1 (ticks s1)) =? 0)%N
              then frac = ""
              else exists f, frac = "." ++ f
                             /\ written 6 f (microsecond (utcnow w1 (ticks s1)))))
    /\ String.length ts1
       = (if (microsecond (utcnow w1 (ticks s1)) =? 0)%N then 20 else 27)
    /\ char_at 4 ts1 = Some "-"%char /\ char_at 7 ts1 = Some "-"%char
    /\ char_at 10 ts1 = Some "T"%char
    /\ char_at 13 ts1 = Some ":"%char /\ char_at 16 ts1 = Some ":"%char
    /\ (ts1 = ts2 -> utcnow w1 (ticks s1) = utcnow w2 (ticks s2)).
Proof.
  intros V1 V2. rewrite !generate_cargo_data_eq.
  set (d1 := utcnow w1 (ticks s1)) in *. set (d2 := utcnow w2 (ticks s2)) in *.
  clearbody d1 d2.
  eexists. eexists. exists (isoformat d1 ++ "Z"), (isoformat d2 ++ "Z").
  split; [reflexivity|]. split; [reflexivity|].
  split; [apply timestamp_of_reading|]. split; [apply timestamp_of_reading|].
  split.
  { exists (pad_nat 4 (year d1)), (pad_nat 2 (month d1)), (pad_nat 2 (day d1)),
           (pad_nat 2 (hour d1)), (pad_nat 2 (minute d1)), (pad_nat 2 (second d1)),
           (if (microsecond d1 =? 0)%N then "" else "." ++ pad_nat 6 (microsecond d1)).
    split; [unfold isoformat; rewrite !append_assoc; reflexivity|].
    destruct V1 as (Hy & Hmo & Hd & Hh & Hmi & Hs & Hus).
    repeat (split; [apply written_pad; lia|]).
    destruct (microsecond d1 =? 0)%N; [reflexivity|].
    eexists. split; [reflexivity|]. apply written_pad; lia. }
  split; [apply timestamp_length, V1|].
  destruct (pad_lengths d1 V1) as (A1 & A2 & A3 & A4 & A5 & A6 & A7).
  destruct (pad_lengths d2 V2) as (B1 & B2 & B3 & B4 & B5 & B6 & B7).
  rewrite !timestamp_pieces.
  destruct (string_of_length_4 _ A1) as (y1 & y2 & y3 & y4 & Ey1).
  destruct (string_of_length_2 _ A2) as (mo1 & mo2 & Emo1).
  destruct (string_of_length_2 _ A3) as (da1 & da2 & Eda1).
  destruct (string_of_length_2 _ A4) as (h1 & h2 & Eh1).
  destruct (string_of_length_2 _ A5) as (mi1 & mi2 & Emi1).
  destruct (string_of_length_2 _ A6) as (se1 & se2 & Ese1).
  destruct (string_of_length_4 _ B1) as (y1' & y2' & y3' & y4' & Ey2).
  destruct (string_of_length_2 _ B2) as (mo1' & mo2' & Emo2).
  destruct (string_of_length_2 _ B3) as (da1' & da2' & Eda2).
  destruct (string_of_length_2 _ B4) as (h1' & h2' & Eh2).
  destruct (string_of_length_2 _ B5) as (mi1' & mi2' & Emi2).
  destruct (string_of_length_2 _ B6) as (se1' & se2' & Ese2).
  rewrite Ey1, Emo1, Eda1, Eh1, Emi1, Ese1, Ey2, Emo2, Eda2, Eh2, Emi2, Ese2.
  cbn [append].
  repeat (split; [reflexivity|]).
  intros E.
  repeat (apply string_cons_inv in E; destruct E as [? E]). subst.
  assert (Hus : microsecond d1 = microsecond d2).
  { destruct (N.eqb_spec (microsecond d1) 0) as [Z1|N1],
             (N.eqb_spec (microsecond d2) 0) as [Z2|N2].
    - congruence.
    - cbn [append] in E. discriminate E.
    - cbn [append] in E. discriminate E.
    - cbn [append] in E. apply string_tail_eq in E.
      apply append_split in E; [|congruence].
      exact (pad_nat_inj _ _ _ (proj1 E)). }
  rewrite <- Ey2 in Ey1. rewrite <- Emo2 in Emo1. rewrite <- Eda2 in Eda1.
  rewrite <- Eh2 in Eh1. rewrite <- Emi2 in Emi1. rewrite <- Ese2 in Ese1.
  apply pad_nat_inj in Ey1, Emo1, Eda1, Eh1, Emi1, Ese1.
  clear - Ey1 Emo1 Eda1 Eh1 Emi1 Ese1 Hus.
  destruct d1, d2. cbn in *. congruence.
Qed.

(** A reading taken one microsecond after noon against one taken at noon:
    the first timestamp has the long layout, and the two differ. *)
Lemma timestamp_identifies_instant_microsecond :
  exists data1 data2 ts1 ts2,
    fst (generate_cargo_data later_world init) = Ok data1
    /\ fst (generate_cargo_data quiet_world init) = Ok data2
    /\ field "timestamp" data1 = Some (PStr ts1)
    /\ field "timestamp" data2 = Some (PStr ts2)
    /\ (exists y mo d h mi s frac,
          ts1 = y ++ "-" ++ mo ++ "-" ++ d ++ "T" ++ h ++ ":" ++ mi ++ ":" ++ s
                  ++ frac ++ "Z"
          /\ written 4 y 2026 /\ written 2 mo 11 /\ written 2 d 3
          /\ written 2 h 12 /\ written 2 mi 0 /\ written 2 s 0
          /\ exists f, frac = "." ++ f /\ written 6 f 1)
    /\ String.length ts1 = 27
    /\ char_at 4 ts1 = Some "-"%char /\ char_at 7 ts1 = Some "-"%char
    /\ char_at 10 ts1 = Some "T"%char
    /\ char_at 13 ts1 = Some ":"%char /\ char_at 16 ts1 = Some ":"%char
    /\ (ts1 = ts2 -> mk_datetime 2026 11 3 12 0 0 1 = noon).
Proof.
  apply (timestamp_identifies_instant later_world init quiet_world init);
    cbv [valid_datetime later_world quiet_world utcnow noon year month day hour
         minute second microsecond]; lia.
Defined.


Open Scope list_scope.

(** ** What goes over the wire *)

Lemma loads_dumps_reading_of now k1 k2 k3 k4 :
  loads (dumps (reading_of now k1 k2 k3 k4)) = Some (reading_of now k1 k2 k3 k4).
Proof.
  unfold reading_of.
  destruct (lat_ticks_range k1) as [m1 [-> R1]].
  destruct (lon_ticks_range k2) as [m2 [-> R2]].
  destruct (temperature_ticks_range k3) as [m3 [-> R3]].
  destruct (battery_ticks_range k4) as [m4 [-> R4]].
  apply loads_dumps_reading.
  - intros f rest. apply lat_text_scans, R1.
  - intros f rest. apply lon_text_scans, R2.
  - intros f rest. apply temperature_text_scans, R3.
  - intros f rest. apply battery_text_scans, R4.
Qed.

Lemma nth_error_map_seq {A : Type} (f : nat -> A) m i p :
  nth_error (map f (seq 0 m)) i = Some p -> i < m /\ p = f i.
Proof.
  intros H. destruct (Nat.lt_ge_cases i m) as [L|G].
  - split; [exact L|].
    assert (E : nth_error (seq 0 m) i = Some i).
    { rewrite (nth_error_nth' _ 0) by (rewrite length_seq; exact L).
      rewrite seq_nth by exact L. reflexivity. }
    rewrite (map_nth_error f _ _ E) in H. congruence.
  - assert (K : nth_error (map f (seq 0 m)) i = None).
    { apply nth_error_None. rewrite length_map, length_seq. exact G. }
    congruence.
Qed.

(** X15: every message of every run, complete or cut short, is a JSON
    text that parses back to the reading generated in its turn: the
    payload of the [i]-th publish call (from 0) is read back by
    [json.loads] as the reading made from the [i]-th clock value and the
    draws [4i .. 4i+3]. *)
Theorem every_payload_parses w i p :
  nth_error (payloads (trace w)) i = Some p ->
  i < Z.to_nat TOTAL_STEPS /\ loads p = Some (reading_at w i).
Proof.
  intros Hn. destruct (run_payloads w) as (m & Hm & P & _).
  rewrite P in Hn. apply nth_error_map_seq in Hn. destruct Hn as [L ->].
  split; [lia|]. unfold reading_at, reading_from. apply loads_dumps_reading_of.
Qed.

(** The one message of the run whose first publish fails. *)
Lemma every_payload_parses_failing :
  0 < Z.to_nat TOTAL_STEPS
  /\ loads (dumps (reading_at publish_fails_world 0))
     = Some (reading_at publish_fails_world 0).
Proof.
  apply (every_payload_parses publish_fails_world 0
           (dumps (reading_at publish_fails_world 0))).
  vm_compute. reflexivity.
Defined.
